(** * ALI Rural: enrichment by fiscal module and the prospection queries

    A shallow embedding of [src/etl/enrich_modulo_fiscal.py] and of the query
    and formatting code of [app.py], with the properties their
    specification states about them.

    Conventions of the embedding:
    - a pandas [float64] cell is an IEEE 754 binary64 value, taken from
      [SpecFloat] (precision 53, [emax] 1024); the pandas null of a numeric
      column is NaN;
    - a Python exception is the [Raise] outcome of the result type [res];
    - a DataFrame or a table is the list of its rows, in row order. *)

From Stdlib Require Import ZArith List String Ascii Bool Lia.
From Stdlib Require Import SpecFloat DecimalString.
From Stdlib Require Import Sorted Permutation.
From Stdlib Require DecimalZ DecimalPos.
Import ListNotations.

Local Open Scope string_scope.
Local Open Scope Z_scope.

(** ** Python values and exceptions *)

Inductive exn : Type :=
| TypeError (msg : string)
| ValueError (msg : string)
| OverflowError (msg : string)
| FileNotFoundError (msg : string)
| DatabaseError (msg : string).

Inductive res (A : Type) : Type :=
| Ok (a : A)
| Raise (e : exn).

Arguments Ok {A} a.
Arguments Raise {A} e.

Definition bind {A B : Type} (m : res A) (k : A -> res B) : res B :=
  match m with
  | Ok a => k a
  | Raise e => Raise e
  end.

Notation "x <- m ;; k" := (bind m (fun x => k))
  (at level 61, m at next level, right associativity).

Fixpoint mapM {A B : Type} (f : A -> res B) (l : list A) : res (list B) :=
  match l with
  | [] => Ok []
  | a :: l' => b <- f a ;; bs <- mapM f l' ;; Ok (b :: bs)
  end.

(** ** binary64 *)

Definition float64 : Type := spec_float.

Definition prec : Z := 53.
Definition emax : Z := 1024.

Definition nan : float64 := S754_nan.

(** The float of a Python [int] literal. *)
Definition f64_of_Z (z : Z) : float64 := binary_normalize prec emax z 0 false.

(** Division, and the comparisons (false whenever an operand is NaN). *)
Definition f64_div (x y : float64) : float64 := SFdiv prec emax x y.
Definition f64_leb (x y : float64) : bool := SFleb x y.
Definition f64_ltb (x y : float64) : bool := SFltb x y.

Definition f64_is_nan (x : float64) : bool :=
  match x with
  | S754_nan => true
  | _ => false
  end.



(** [pd.isna] on a scalar that is [None] or a float. *)
Definition pd_isna (x : option float64) : bool :=
  match x with
  | None => true
  | Some f => f64_is_nan f
  end.

Definition is_None {A : Type} (x : option A) : bool :=
  match x with
  | None => true
  | Some _ => false
  end.

(** [x <= n] for [x] a float or [None] and [n] an [int] literal: Python
    raises [TypeError] when [x] is [None]. *)
Definition py_le (x : option float64) (n : Z) : res bool :=
  match x with
  | None => Raise (TypeError "'<=' not supported between instances of 'NoneType' and 'int'")
  | Some f => Ok (f64_leb f (f64_of_Z n))
  end.

(** ** [enrich_modulo_fiscal.py] *)

Definition SEM_MF : string := "Sem MF".
Definition PEQUENA : string := "Pequena (<=4 MF)".
Definition MEDIA : string := "Média (4–15 MF)".
Definition GRANDE : string := "Grande (>15 MF)".

Definition classificar_por_mf (area_em_mf : option float64) : res string :=
  if is_None area_em_mf || pd_isna area_em_mf then Ok SEM_MF
  else
    le4 <- py_le area_em_mf 4 ;;
    if le4 then Ok PEQUENA
    else
      le15 <- py_le area_em_mf 15 ;;
      if le15 then Ok MEDIA
      else Ok GRANDE.

(** *** Tables read and written by the job *)

(** A text cell; [None] is the SQL NULL (pandas [None] / [<NA>]). *)
Definition texto : Type := option string.

Definition texto_eqb (a b : texto) : bool :=
  match a, b with
  | None, None => true
  | Some x, Some y => String.eqb x y
  | _, _ => false
  end.

(** One row of table [imoveis]. Numeric cells are [float64], NaN for NULL. *)
Record imovel : Type := mk_imovel {
  codigo_imovel : texto;
  denominacao : texto;
  denominacao_norm : texto;
  ibge_municipio : texto;
  municipio : texto;
  municipio_norm : texto;
  uf : texto;
  area_total_ha : float64;
  percentual_detencao : float64;
  condicao_pessoa : texto;
  natureza_juridica : texto;
  titular : texto;
  titular_norm : texto;
  pais : texto
}.

(** A cell of column [mf_ha] of the reference CSV, by what its text denotes:
    a number (read as such by [read_csv], or by [to_numeric] when the column
    was kept as text), text that denotes no number, or an empty cell. *)
Inductive celula : Type :=
| Numero (f : float64)
| NaoNumerico (s : string)
| Vazia.

Record ref_row : Type := mk_ref {
  ref_municipio_norm : texto;
  ref_mf_ha : celula
}.

(** One row of table [imoveis_enriquecido]: the columns of [imoveis] and the
    three derived ones. *)
Record enriquecido : Type := mk_enr {
  base : imovel;
  mf_ha : float64;
  area_em_mf : float64;
  classe_tamanho : string
}.

(** [im.merge(ref[["municipio_norm", "mf_ha"]], on="municipio_norm",
    how="left")]: every left row, in order, once per reference row with an
    equal key (null keys are equal to each other), or once with a missing
    [mf_ha] when no reference row has its key. *)
Definition merge_left (im : list imovel) (ref : list ref_row)
  : list (imovel * celula) :=
  flat_map
    (fun r =>
       match filter (fun q => texto_eqb (municipio_norm r) (ref_municipio_norm q)) ref with
       | [] => [(r, Vazia)]
       | ms => map (fun q => (r, ref_mf_ha q)) ms
       end)
    im.

(** [pd.to_numeric(_, errors="coerce")] on one cell. *)
Definition to_numeric_coerce (c : celula) : float64 :=
  match c with
  | Numero f => f
  | NaoNumerico _ => nan
  | Vazia => nan
  end.

(** The three assignments of [main] on one row of the merged frame. *)
Definition enriquecer_linha (rc : imovel * celula) : res enriquecido :=
  let (r, c) := rc in
  let mf := to_numeric_coerce c in
  let area_mf := f64_div (area_total_ha r) mf in
  classe <- classificar_por_mf (Some area_mf) ;;
  Ok {| base := r; mf_ha := mf; area_em_mf := area_mf; classe_tamanho := classe |}.

Definition enriquecer (im : list imovel) (ref : list ref_row)
  : res (list enriquecido) :=
  mapM enriquecer_linha (merge_left im ref).

(** *** The SQLite file and the files of the job *)

Record indice : Type := mk_indice {
  idx_nome : string;
  idx_tabela : string;
  idx_coluna : string
}.

Record banco : Type := mk_banco {
  imoveis : option (list imovel);
  imoveis_enriquecido : option (list enriquecido);
  indices : list indice
}.

(** What the job can see and change: the SQLite file at [DB_PATH], the
    reference CSV at [REF_PATH] (each [None] when the file does not exist)
    and the standard output. *)
Record mundo : Type := mk_mundo {
  db_file : option banco;
  ref_file : option (list ref_row);
  stdout : list string
}.

Definition DB_PATH : string := "data/processed/imoveis_rurais.sqlite".
Definition REF_PATH : string := "data/reference/modulo_fiscal_er_jundiai.csv".

(** [df.to_sql("imoveis_enriquecido", conn, if_exists="replace",
    index=False)]: the old table is dropped, its indexes with it, and the new
    one is created with the rows of [df]. *)
Definition to_sql_replace (df : list enriquecido) (b : banco) : banco :=
  {| imoveis := imoveis b;
     imoveis_enriquecido := Some df;
     indices :=
       filter (fun i => negb (String.eqb (idx_tabela i) "imoveis_enriquecido"))
              (indices b) |}.

(** [CREATE INDEX IF NOT EXISTS nome ON tabela (coluna)]. *)
Definition create_index_if_not_exists (nome tabela coluna : string) (b : banco)
  : banco :=
  if existsb (fun i => String.eqb (idx_nome i) nome) (indices b) then b
  else
    {| imoveis := imoveis b;
       imoveis_enriquecido := imoveis_enriquecido b;
       indices := indices b ++ [mk_indice nome tabela coluna] |}.

(** The three [CREATE INDEX IF NOT EXISTS] statements of [main], in order:
    on [municipio], on [area_em_mf], on [classe_tamanho]. *)
Definition cria_indices (b : banco) : banco :=
  create_index_if_not_exists "idx_enr_classe" "imoveis_enriquecido" "classe_tamanho"
    (create_index_if_not_exists "idx_enr_area_mf" "imoveis_enriquecido" "area_em_mf"
       (create_index_if_not_exists "idx_enr_municipio" "imoveis_enriquecido" "municipio" b)).

(** [main]: the outcome and the world it leaves. The two existence checks
    come first; then the table [imoveis] is read, the frame is built, written
    with [to_sql], indexed, and the message is printed. *)
Definition main (w : mundo) : res unit * mundo :=
  match db_file w with
  | None => (Raise (FileNotFoundError ("SQLite não encontrado: " ++ DB_PATH)), w)
  | Some b =>
    match ref_file w with
    | None => (Raise (FileNotFoundError ("Referência MF não encontrada: " ++ REF_PATH)), w)
    | Some ref =>
      (* conn = sqlite3.connect(...); try: ... finally: conn.close() *)
      match imoveis b with
      | None => (Raise (DatabaseError "no such table: imoveis"), w)
      | Some im =>
        match enriquecer im ref with
        | Raise e => (Raise e, w)
        | Ok df =>
          (Ok tt,
           {| db_file := Some (cria_indices (to_sql_replace df b));
              ref_file := ref_file w;
              stdout := stdout w ++ ["✅ Tabela criada/atualizada: imoveis_enriquecido"] |})
        end
      end
    end
  end.

(** ** [app.py]: formatting helpers *)

Definition ascii_eqb (a b : ascii) : bool := Ascii.eqb a b.

(** [s.replace(old, new)] for a one-character [old]. *)
Fixpoint replace1 (old : ascii) (new : string) (s : string) : string :=
  match s with
  | EmptyString => EmptyString
  | String c s' =>
    if ascii_eqb c old then new ++ replace1 old new s'
    else String c (replace1 old new s')
  end.

(** Decimal digits of a natural number, most significant first. *)
Definition digitos (n : Z) : list ascii :=
  list_ascii_of_string (NilZero.string_of_uint (N.to_uint (Z.to_N n))).

(** Thousands separators, on the digits in reverse order. *)
Fixpoint milhar_rev (l : list ascii) : list ascii :=
  match l with
  | a :: b :: c :: ((_ :: _) as resto) =>
    a :: b :: c :: ","%char :: milhar_rev resto
  | _ => l
  end.

Definition milhar (ds : list ascii) : list ascii := rev (milhar_rev (rev ds)).

Definition sinal (negativo : bool) : string := if negativo then "-" else "".

(** [f"{n:,}"] for an [int]. *)
Definition format_int_comma (n : Z) : string :=
  sinal (n <? 0) ++ string_of_list_ascii (milhar (digitos (Z.abs n))).

(** The argument of [fmt_int]: an [int], as its annotation says, or one of
    the two null inputs, [None] and the float NaN. (The general format of a
    finite float is not modelled.) *)
Inductive int_ou_nulo : Type :=
| UmInt (n : Z)
| UmNone
| UmNaN.

Definition fmt_int (n : int_ou_nulo) : res string :=
  match n with
  | UmInt z => Ok (replace1 ","%char "." (format_int_comma z))
  | UmNone => Raise (TypeError "unsupported format string passed to NoneType.__format__")
  | UmNaN => Ok (replace1 ","%char "." "nan")
  end.

(** Rounding of [num / den] to the nearest integer, ties to even. *)
Definition arredonda_meio_par (num den : Z) : Z :=
  let q := num / den in
  let r := num mod den in
  match (2 * r) ?= den with
  | Lt => q
  | Gt => q + 1
  | Eq => if Z.even q then q else q + 1
  end.

(** The integer nearest to [m * 2^e * 10^dec]. *)
Definition escala_decimal (m : positive) (e : Z) (dec : nat) : Z :=
  let p := 10 ^ Z.of_nat dec in
  if 0 <=? e then Zpos m * 2 ^ e * p
  else arredonda_meio_par (Zpos m * p) (2 ^ (- e)).

Definition zeros (n : nat) : list ascii := repeat "0"%char n.

(** The digits of [n / 10^dec] in fixed point, with thousands separators. *)
Definition ponto_fixo (n : Z) (dec : nat) : string :=
  let ds := digitos n in
  let ds := (zeros (S dec - List.length ds) ++ ds)%list in
  let k := (List.length ds - dec)%nat in
  string_of_list_ascii
    (milhar (firstn k ds) ++
     match dec with
     | O => []
     | S _ => "."%char :: skipn k ds
     end)%list.

(** [f"{x:,.{dec}f}"] for a float [x]. *)
Definition format_float_comma (x : float64) (dec : nat) : string :=
  match x with
  | S754_nan => "nan"
  | S754_infinity s => sinal s ++ "inf"
  | S754_zero s => sinal s ++ ponto_fixo 0 dec
  | S754_finite s m e => sinal s ++ ponto_fixo (escala_decimal m e dec) dec
  end.

(** A value of type [float | int | None]. *)
Inductive pyval : Type :=
| PyNone
| PyInt (n : Z)
| PyFloat (f : float64).

Definition pyval_isna (x : pyval) : bool :=
  match x with
  | PyNone => true
  | PyInt _ => false
  | PyFloat f => f64_is_nan f
  end.

Definition pyval_is_None (x : pyval) : bool :=
  match x with
  | PyNone => true
  | _ => false
  end.

(** [float(x)]. *)
Definition py_float (x : pyval) : res float64 :=
  match x with
  | PyNone => Raise (TypeError "float() argument must be a string or a real number, not 'NoneType'")
  | PyFloat f => Ok f
  | PyInt n =>
    match f64_of_Z n with
    | S754_infinity _ => Raise (OverflowError "int too large to convert to float")
    | f => Ok f
    end
  end.

Definition fmt_float (x : pyval) (dec : nat) : res string :=
  if pyval_is_None x || pyval_isna x then Ok "-"
  else
    f <- py_float x ;;
    let s := format_float_comma f dec in
    Ok (replace1 "X"%char "." (replace1 "."%char "," (replace1 ","%char "X" s))).

(** ** [app.py]: the queries sent to SQLite

    [run_query] hands a SQL text and its parameters to SQLite. The embedding
    keeps each query in structured form (the conditions of its WHERE clause
    with the parameters bound to their placeholders, its ORDER BY columns,
    its LIMIT and OFFSET), gives the text and the parameter tuple the source
    builds from it, and evaluates it on the rows of the table. *)

Inductive sqlval : Type :=
| SNull
| SReal (f : float64)
| SText (s : string).

Inductive coluna : Type :=
| c_codigo_imovel | c_denominacao | c_denominacao_norm | c_ibge_municipio
| c_municipio | c_municipio_norm | c_uf | c_area_total_ha
| c_percentual_detencao | c_condicao_pessoa | c_natureza_juridica
| c_titular | c_titular_norm | c_pais
| c_mf_ha | c_area_em_mf | c_classe_tamanho.

Definition nome_coluna (c : coluna) : string :=
  match c with
  | c_codigo_imovel => "codigo_imovel"
  | c_denominacao => "denominacao"
  | c_denominacao_norm => "denominacao_norm"
  | c_ibge_municipio => "ibge_municipio"
  | c_municipio => "municipio"
  | c_municipio_norm => "municipio_norm"
  | c_uf => "uf"
  | c_area_total_ha => "area_total_ha"
  | c_percentual_detencao => "percentual_detencao"
  | c_condicao_pessoa => "condicao_pessoa"
  | c_natureza_juridica => "natureza_juridica"
  | c_titular => "titular"
  | c_titular_norm => "titular_norm"
  | c_pais => "pais"
  | c_mf_ha => "mf_ha"
  | c_area_em_mf => "area_em_mf"
  | c_classe_tamanho => "classe_tamanho"
  end.

(** A float as SQLite receives it, stored or bound to a placeholder: NaN
    becomes NULL. *)
Definition sql_of_float (f : float64) : sqlval :=
  if f64_is_nan f then SNull else SReal f.

Definition sql_of_texto (t : texto) : sqlval :=
  match t with
  | None => SNull
  | Some s => SText s
  end.

(** A row of the table in use: of [imoveis] or of [imoveis_enriquecido]. *)
Inductive linha : Type :=
| LBase (r : imovel)
| LEnr (e : enriquecido).

Definition imovel_de (l : linha) : imovel :=
  match l with
  | LBase r => r
  | LEnr e => base e
  end.

Definition tem_enriquecimento (l : linha) : bool :=
  match l with
  | LBase _ => false
  | LEnr _ => true
  end.

(** The three derived columns exist in [imoveis_enriquecido] only. *)
Definition coluna_derivada (c : coluna) : bool :=
  match c with
  | c_mf_ha | c_area_em_mf | c_classe_tamanho => true
  | _ => false
  end.

(** The cell of column [c] in a row; a derived column of a base row, which
    no checked query reads, is NULL. *)
Definition valor (c : coluna) (l : linha) : sqlval :=
  let r := imovel_de l in
  match c with
  | c_codigo_imovel => sql_of_texto (codigo_imovel r)
  | c_denominacao => sql_of_texto (denominacao r)
  | c_denominacao_norm => sql_of_texto (denominacao_norm r)
  | c_ibge_municipio => sql_of_texto (ibge_municipio r)
  | c_municipio => sql_of_texto (municipio r)
  | c_municipio_norm => sql_of_texto (municipio_norm r)
  | c_uf => sql_of_texto (uf r)
  | c_area_total_ha => sql_of_float (area_total_ha r)
  | c_percentual_detencao => sql_of_float (percentual_detencao r)
  | c_condicao_pessoa => sql_of_texto (condicao_pessoa r)
  | c_natureza_juridica => sql_of_texto (natureza_juridica r)
  | c_titular => sql_of_texto (titular r)
  | c_titular_norm => sql_of_texto (titular_norm r)
  | c_pais => sql_of_texto (pais r)
  | c_mf_ha =>
    match l with LEnr e => sql_of_float (mf_ha e) | LBase _ => SNull end
  | c_area_em_mf =>
    match l with LEnr e => sql_of_float (area_em_mf e) | LBase _ => SNull end
  | c_classe_tamanho =>
    match l with LEnr e => SText (classe_tamanho e) | LBase _ => SNull end
  end.

(** *** Comparison of SQL values *)

(** The order SQLite sorts by: NULL first, then numbers, then text. *)
Definition sql_ordem (a b : sqlval) : comparison :=
  match a, b with
  | SNull, SNull => Eq
  | SNull, _ => Lt
  | _, SNull => Gt
  | SReal x, SReal y =>
    match SFcompare x y with Some c => c | None => Eq end
  | SReal _, SText _ => Lt
  | SText _, SReal _ => Gt
  | SText x, SText y => String.compare x y
  end.

(** A comparison operator: NULL when an operand is NULL. *)
Definition sql_cmp (a b : sqlval) : option comparison :=
  match a, b with
  | SNull, _ | _, SNull => None
  | _, _ => Some (sql_ordem a b)
  end.

Definition sql_eq (a b : sqlval) : option bool :=
  match sql_cmp a b with
  | Some Eq => Some true
  | Some _ => Some false
  | None => None
  end.

Definition sql_ge (a b : sqlval) : option bool :=
  match sql_cmp a b with
  | Some Lt => Some false
  | Some _ => Some true
  | None => None
  end.

Definition sql_le (a b : sqlval) : option bool :=
  match sql_cmp a b with
  | Some Gt => Some false
  | Some _ => Some true
  | None => None
  end.

(** Three-valued AND and OR. *)
Definition sql_and (a b : option bool) : option bool :=
  match a, b with
  | Some false, _ | _, Some false => Some false
  | Some true, Some true => Some true
  | _, _ => None
  end.

Definition sql_or (a b : option bool) : option bool :=
  match a, b with
  | Some true, _ | _, Some true => Some true
  | Some false, Some false => Some false
  | _, _ => None
  end.

(** [x BETWEEN lo AND hi] is [x >= lo AND x <= hi]. *)
Definition sql_between (x lo hi : sqlval) : option bool :=
  sql_and (sql_ge x lo) (sql_le x hi).

(** *** UPPER and LIKE, as SQLite defines them: on ASCII letters only *)

Definition ascii_upper (c : ascii) : ascii :=
  let n := N_of_ascii c in
  if (97 <=? n)%N && (n <=? 122)%N then ascii_of_N (n - 32) else c.

Definition sql_upper_str (s : string) : string :=
  string_of_list_ascii (map ascii_upper (list_ascii_of_string s)).

(** A continuation byte of a UTF-8 character. *)
Definition byte_continuacao (c : ascii) : bool :=
  let n := N_of_ascii c in (128 <=? n)%N && (n <? 192)%N.

Fixpoint sem_continuacao (s : list ascii) : list ascii :=
  match s with
  | c :: s' => if byte_continuacao c then sem_continuacao s' else s
  | [] => []
  end.

(** [s LIKE p]: [%] matches any run of characters, [_] one character, any
    other character itself up to ASCII case. *)
Fixpoint like_lista (p s : list ascii) {struct p} : bool :=
  match p with
  | [] => match s with [] => true | _ :: _ => false end
  | c :: p' =>
    if ascii_eqb c "%"%char then
      (fix qualquer (t : list ascii) : bool :=
         like_lista p' t ||
         match t with
         | [] => false
         | _ :: t' => qualquer t'
         end) s
    else if ascii_eqb c "_"%char then
      match s with
      | [] => false
      | _ :: s' => like_lista p' (sem_continuacao s')
      end
    else
      match s with
      | [] => false
      | d :: s' => ascii_eqb (ascii_upper c) (ascii_upper d) && like_lista p' s'
      end
  end.

(** The columns the queries match with LIKE hold text; a number is taken
    not to match. *)
Definition sql_like (x pat : sqlval) : option bool :=
  match x, pat with
  | SText s, SText p =>
    Some (like_lista (list_ascii_of_string p) (list_ascii_of_string s))
  | SNull, _ | _, SNull => None
  | _, _ => Some false
  end.

Definition sql_upper (x : sqlval) : sqlval :=
  match x with
  | SText s => SText (sql_upper_str s)
  | _ => x
  end.

(** *** Conditions, queries and their evaluation *)

(** One entry of the list [where], with the parameters appended to [params]
    alongside it. *)
Inductive cond : Type :=
| CIgual (c : coluna) (v : sqlval)             (* c = ? *)
| CEntre (c : coluna) (lo hi : sqlval)         (* c BETWEEN ? AND ? *)
| CMaiorIgual (c : coluna) (v : sqlval)        (* c >= ? *)
| CUpperLike (c : coluna) (p : sqlval)         (* UPPER(c) LIKE ? *)
| CBusca (p1 p2 p3 : sqlval).                  (* the free-text search *)

(** The text of a condition, as [w.strip()] leaves it. *)
Definition cond_sql (w : cond) : string :=
  match w with
  | CIgual c _ => nome_coluna c ++ " = ?"
  | CEntre c _ _ => nome_coluna c ++ " BETWEEN ? AND ?"
  | CMaiorIgual c _ => nome_coluna c ++ " >= ?"
  | CUpperLike c _ => "UPPER(" ++ nome_coluna c ++ ") LIKE ?"
  | CBusca _ _ _ =>
    "(
            codigo_imovel LIKE ?
            OR denominacao_norm LIKE ?
            OR titular_norm LIKE ?
        )"
  end.

Definition cond_params (w : cond) : list sqlval :=
  match w with
  | CIgual _ v => [v]
  | CEntre _ lo hi => [lo; hi]
  | CMaiorIgual _ v => [v]
  | CUpperLike _ p => [p]
  | CBusca p1 p2 p3 => [p1; p2; p3]
  end.

Definition cond_colunas (w : cond) : list coluna :=
  match w with
  | CIgual c _ | CEntre c _ _ | CMaiorIgual c _ | CUpperLike c _ => [c]
  | CBusca _ _ _ => [c_codigo_imovel; c_denominacao_norm; c_titular_norm]
  end.

Definition eval_cond (w : cond) (l : linha) : option bool :=
  match w with
  | CIgual c v => sql_eq (valor c l) v
  | CEntre c lo hi => sql_between (valor c l) lo hi
  | CMaiorIgual c v => sql_ge (valor c l) v
  | CUpperLike c p => sql_like (sql_upper (valor c l)) p
  | CBusca p1 p2 p3 =>
    sql_or (sql_or (sql_like (valor c_codigo_imovel l) p1)
                   (sql_like (valor c_denominacao_norm l) p2))
           (sql_like (valor c_titular_norm l) p3)
  end.

(** A row passes the WHERE clause when the conjunction is true, that is
    when every condition is true (neither false nor NULL). *)
Definition verdadeiro (o : option bool) : bool :=
  match o with
  | Some true => true
  | _ => false
  end.

Definition passa (ws : list cond) (l : linha) : bool :=
  forallb (fun w => verdadeiro (eval_cond w l)) ws.

Fixpoint join (sep : string) (l : list string) : string :=
  match l with
  | [] => ""
  | [x] => x
  | x :: l' => x ++ sep ++ join sep l'
  end.

Definition where_sql (ws : list cond) : string :=
  match ws with
  | [] => ""
  | _ => "WHERE " ++ join " AND " (map cond_sql ws)
  end.

Definition params (ws : list cond) : list sqlval := flat_map cond_params ws.

(** [ORDER BY c1 DESC, c2 DESC, ...] *)
Definition order_by_sql (cs : list coluna) : string :=
  match cs with
  | [] => ""
  | _ => "ORDER BY " ++ join ", " (map (fun c => nome_coluna c ++ " DESC") cs)
  end.

(** The descending lexicographic comparison of two rows on the ORDER BY
    columns: [Lt] when [a] sorts before [b]. *)
Fixpoint cmp_desc (cs : list coluna) (a b : linha) : comparison :=
  match cs with
  | [] => Eq
  | c :: cs' =>
    match sql_ordem (valor c b) (valor c a) with
    | Eq => cmp_desc cs' a b
    | r => r
    end
  end.

Definition vem_antes (cs : list coluna) (a b : linha) : bool :=
  match cmp_desc cs a b with
  | Gt => false
  | _ => true
  end.

(** SQLite may return rows that tie on the ORDER BY columns in any order;
    the embedding keeps them in table order (a stable insertion sort). *)
Fixpoint insere (cs : list coluna) (x : linha) (l : list linha) : list linha :=
  match l with
  | [] => [x]
  | y :: l' => if vem_antes cs x y then x :: l else y :: insere cs x l'
  end.

Fixpoint ordena (cs : list coluna) (l : list linha) : list linha :=
  match l with
  | [] => []
  | x :: l' => insere cs x (ordena cs l')
  end.

(** [LIMIT n OFFSET k]; a negative [n] is no limit, a negative [k] is 0. *)
Definition limita (lim : option (Z * Z)) (l : list linha) : list linha :=
  match lim with
  | None => l
  | Some (n, k) =>
    let l' := skipn (Z.to_nat k) l in
    if n <? 0 then l' else firstn (Z.to_nat n) l'
  end.

Record consulta : Type := mk_consulta {
  q_colunas : list coluna;
  q_where : list cond;
  q_ordem : list coluna;
  q_limite : option (Z * Z)
}.

Definition consulta_colunas (q : consulta) : list coluna :=
  (q_colunas q ++ flat_map cond_colunas (q_where q) ++ q_ordem q)%list.

Definition table_exists (b : banco) (table_name : string) : bool :=
  if String.eqb table_name "imoveis" then
    match imoveis b with Some _ => true | None => false end
  else if String.eqb table_name "imoveis_enriquecido" then
    match imoveis_enriquecido b with Some _ => true | None => false end
  else false.

Definition linhas_da_tabela (b : banco) (tbl : string) : res (list linha) :=
  if String.eqb tbl "imoveis" then
    match imoveis b with
    | Some rs => Ok (map LBase rs)
    | None => Raise (DatabaseError "no such table: imoveis")
    end
  else if String.eqb tbl "imoveis_enriquecido" then
    match imoveis_enriquecido b with
    | Some es => Ok (map LEnr es)
    | None => Raise (DatabaseError "no such table: imoveis_enriquecido")
    end
  else Raise (DatabaseError ("no such table: " ++ tbl)).

Definition coluna_existe (tbl : string) (c : coluna) : bool :=
  negb (coluna_derivada c) || String.eqb tbl "imoveis_enriquecido".

(** [run_query] for [SELECT cols_sql FROM tbl WHERE ... ORDER BY ... LIMIT ...].
    Its cache returns what the query returned before for the same text and
    parameters; on a database that does not change it is not observable. *)
Definition run_query (b : banco) (tbl : string) (q : consulta)
  : res (list linha) :=
  rows <- linhas_da_tabela b tbl ;;
  if forallb (coluna_existe tbl) (consulta_colunas q) then
    Ok (limita (q_limite q) (ordena (q_ordem q) (filter (passa (q_where q)) rows)))
  else Raise (DatabaseError "no such column").

(** [run_query] for [SELECT COUNT( * ) AS n FROM tbl WHERE ...], read as
    [int(df.iloc[0]["n"])]. *)
Definition run_count (b : banco) (tbl : string) (ws : list cond) : res Z :=
  rows <- linhas_da_tabela b tbl ;;
  if forallb (coluna_existe tbl) (flat_map cond_colunas ws) then
    Ok (Z.of_nat (List.length (filter (passa ws) rows)))
  else Raise (DatabaseError "no such column").

(** *** Choice of the table in use *)

Definition TBL (b : banco) : string :=
  if table_exists b "imoveis_enriquecido" then "imoveis_enriquecido" else "imoveis".

Definition HAS_ENRICH (b : banco) : bool :=
  String.eqb (TBL b) "imoveis_enriquecido".

(** *** Tab "Prospecção" *)

(** The values of the filter widgets, after the source's [.strip()] on the
    two text inputs. [f_classe] and the MF range exist only when the
    enriched table is in use and are not read otherwise. *)
Record filtros : Type := mk_filtros {
  f_municipio : string;
  f_condicao : string;
  f_area_min : float64;
  f_area_max : float64;
  f_pct_min : float64;
  f_busca : string;
  f_natureza : string;
  f_classe : string;
  f_area_mf_min : float64;
  f_area_mf_max : float64;
  f_page_size : Z;
  f_page : Z;
  f_show_adv : bool
}.

Definition nao_vazia (s : string) : bool :=
  match s with
  | EmptyString => false
  | String _ _ => true
  end.

Definition quando {A : Type} (b : bool) (l : list A) : list A :=
  if b then l else [].

Section Prospeccao.

(** Python's [str.upper], which maps every cased Unicode letter. *)
Variable py_upper : string -> string.

(** The list [where] with [params], in the order the source appends. *)
Definition monta_where (has_enrich : bool) (f : filtros) : list cond :=
  ([CIgual c_uf (SText "SP");
    CEntre c_area_total_ha (sql_of_float (f_area_min f)) (sql_of_float (f_area_max f));
    CMaiorIgual c_percentual_detencao (sql_of_float (f_pct_min f))]
   ++ quando (negb (String.eqb (f_municipio f) "Todos"))
        [CIgual c_municipio (SText (f_municipio f))]
   ++ quando (negb (String.eqb (f_condicao f) "Todas"))
        [CIgual c_condicao_pessoa (SText (f_condicao f))]
   ++ quando (nao_vazia (f_natureza f))
        [CUpperLike c_natureza_juridica (SText ("%" ++ py_upper (f_natureza f) ++ "%"))]
   ++ quando (nao_vazia (f_busca f))
        [CBusca (SText ("%" ++ f_busca f ++ "%"))
                (SText ("%" ++ py_upper (f_busca f) ++ "%"))
                (SText ("%" ++ py_upper (f_busca f) ++ "%"))]
   ++ quando has_enrich
        (quando (negb (String.eqb (f_classe f) "Todas"))
           [CIgual c_classe_tamanho (SText (f_classe f))]
         ++ [CEntre c_area_em_mf (sql_of_float (f_area_mf_min f))
                                 (sql_of_float (f_area_mf_max f))]))%list.

Definition base_cols : list coluna :=
  [c_codigo_imovel; c_denominacao; c_municipio; c_uf; c_area_total_ha;
   c_percentual_detencao; c_condicao_pessoa; c_natureza_juridica;
   c_titular; c_pais].

Definition cols_sql (has_enrich show_adv : bool) : list coluna :=
  (base_cols
   ++ quando show_adv [c_ibge_municipio]
   ++ quando (has_enrich && show_adv) [c_mf_ha; c_area_em_mf; c_classe_tamanho])%list.

(** The columns of the ORDER BY clause, all descending. *)
Definition ordem (has_enrich : bool) : list coluna :=
  if has_enrich then [c_area_em_mf; c_area_total_ha] else [c_area_total_ha].

(** The query of the current page. *)
Definition consulta_pagina (has_enrich : bool) (f : filtros) : consulta :=
  {| q_colunas := cols_sql has_enrich (f_show_adv f);
     q_where := monta_where has_enrich f;
     q_ordem := ordem has_enrich;
     q_limite := Some (f_page_size f, (f_page f - 1) * f_page_size f) |}.

(** The query behind "Gerar Excel (todos filtrados)". *)
Definition consulta_todos (has_enrich : bool) (f : filtros) : consulta :=
  {| q_colunas := cols_sql has_enrich (f_show_adv f);
     q_where := monta_where has_enrich f;
     q_ordem := ordem has_enrich;
     q_limite := None |}.

Definition export_limit : Z := 200000.

Definition can_export_all (total : Z) : bool := total <=? export_limit.

(** [st.button(label, disabled=d)]: true in the run that follows a click,
    and a disabled button cannot be clicked. *)
Definition st_button (clicado disabled : bool) : bool :=
  clicado && negb disabled.

(** What one run of the tab shows. *)
Record saida_prospeccao : Type := mk_saida {
  s_total : Z;
  s_pagina : list linha;
  s_aviso : option string;
  s_exportar_habilitado : bool;
  s_arquivo_todos : option (list linha)
}.

Definition prospeccao (b : banco) (f : filtros) (clicou_exportar : bool)
  : res saida_prospeccao :=
  let tbl := TBL b in
  let he := HAS_ENRICH b in
  total <- run_count b tbl (monta_where he f) ;;
  df <- run_query b tbl (consulta_pagina he f) ;;
  aviso <-
    (if negb (can_export_all total) then
       limite_txt <- fmt_int (UmInt export_limit) ;;
       Ok (Some ("Exportação total limitada a " ++ limite_txt ++ " linhas por segurança."))
     else Ok None) ;;
  if st_button clicou_exportar (negb (can_export_all total)) then
    df_all <- run_query b tbl (consulta_todos he f) ;;
    Ok {| s_total := total; s_pagina := df; s_aviso := aviso;
          s_exportar_habilitado := can_export_all total;
          s_arquivo_todos := Some df_all |}
  else
    Ok {| s_total := total; s_pagina := df; s_aviso := aviso;
          s_exportar_habilitado := can_export_all total;
          s_arquivo_todos := None |}.

End Prospeccao.

(** *** Detail of a property, by code *)

Definition det_cols (has_enrich : bool) : list coluna :=
  ([c_codigo_imovel; c_denominacao; c_ibge_municipio; c_municipio; c_uf;
    c_area_total_ha; c_titular; c_natureza_juridica; c_condicao_pessoa;
    c_percentual_detencao; c_pais]
   ++ quando has_enrich [c_mf_ha; c_area_em_mf; c_classe_tamanho])%list.

Definition consulta_detalhe (has_enrich : bool) (codigo : string) : consulta :=
  {| q_colunas := det_cols has_enrich;
     q_where := [CIgual c_codigo_imovel (SText codigo)];
     q_ordem := [];
     q_limite := None |}.

(** What the detail block shows: nothing for an empty input, the warning
    when [det] is empty, otherwise the frame [det] and the summaries made
    from its first row. *)
Inductive saida_detalhe : Type :=
| SemConsulta
| Aviso (msg : string)
| Detalhe (det : list linha) (row : linha).

(** [codigo] is the text input after [.strip()]. *)
Definition detalhe (b : banco) (codigo : string) : res saida_detalhe :=
  if nao_vazia codigo then
    det <- run_query b (TBL b) (consulta_detalhe (HAS_ENRICH b) codigo) ;;
    match det with
    | [] => Ok (Aviso "Código não encontrado.")
    | row :: _ => Ok (Detalhe det row)
    end
  else Ok SemConsulta.

(** ** Definitions used to state the properties *)

(** The class of a float, by the thresholds, as a pure function. *)
Definition classe_de (a : float64) : string :=
  if f64_is_nan a then SEM_MF
  else if f64_leb a (f64_of_Z 4) then PEQUENA
  else if f64_leb a (f64_of_Z 15) then MEDIA
  else GRANDE.

(** The enriched row of a merged row. *)
Definition linha_enriquecida (rc : imovel * celula) : enriquecido :=
  let mf := to_numeric_coerce (snd rc) in
  let a := f64_div (area_total_ha (fst rc)) mf in
  {| base := fst rc; mf_ha := mf; area_em_mf := a; classe_tamanho := classe_de a |}.

(** A property with a code, a municipality key and a total area; the other
    text columns are set to fixed values. *)
Definition imovel_exemplo (codigo mun : string) (area pct : float64) : imovel :=
  {| codigo_imovel := Some codigo;
     denominacao := Some "SITIO";
     denominacao_norm := Some "SITIO";
     ibge_municipio := Some "3509502";
     municipio := Some mun;
     municipio_norm := Some mun;
     uf := Some "SP";
     area_total_ha := area;
     percentual_detencao := pct;
     condicao_pessoa := Some "Física";
     natureza_juridica := Some "Pessoa Física";
     titular := Some "FULANO";
     titular_norm := Some "FULANO";
     pais := Some "BRASIL" |}.

Definition campinas_50 : imovel :=
  imovel_exemplo "9500001" "CAMPINAS" (f64_of_Z 50) (f64_of_Z 100).

Definition itu_100 : imovel :=
  imovel_exemplo "9500002" "ITU" (f64_of_Z 100) (f64_of_Z 100).


(** A database with an enriched table of an earlier run and no base table. *)
Definition banco_sem_base : banco :=
  {| imoveis := None;
     imoveis_enriquecido :=
       Some [linha_enriquecida (campinas_50, Numero (f64_of_Z 20))];
     indices := [mk_indice "idx_enr_municipio" "imoveis_enriquecido" "municipio"] |}.



Definition banco_base (rs : list imovel) : banco :=
  {| imoveis := Some rs; imoveis_enriquecido := None; indices := [] |}.

(** Some table the queries can read exists. *)
Definition tem_tabela (b : banco) : Prop :=
  imoveis b <> None \/ imoveis_enriquecido b <> None.


(** Row [a] is above row [b] on column [c], or level with it, in SQLite's
    order of values. *)
Definition chave_maior (c : coluna) (a b : linha) : Prop :=
  sql_ordem (valor c a) (valor c b) = Gt.

Definition chave_igual (c : coluna) (a b : linha) : Prop :=
  sql_ordem (valor c a) (valor c b) = Eq.

(** [a] may come right before [b]: by area in modules descending, then by
    total area descending. *)
Definition ordem_enriquecida (a b : linha) : Prop :=
  chave_maior c_area_em_mf a b \/
  (chave_igual c_area_em_mf a b /\
   (chave_maior c_area_total_ha a b \/ chave_igual c_area_total_ha a b)).

(** [a] may come right before [b]: by total area descending. *)
Definition ordem_base (a b : linha) : Prop :=
  chave_maior c_area_total_ha a b \/ chave_igual c_area_total_ha a b.

(** The filters as the widgets first show them. *)
Definition filtros_padrao : filtros :=
  {| f_municipio := "Todos";
     f_condicao := "Todas";
     f_area_min := f64_of_Z 0;
     f_area_max := f64_of_Z 200;
     f_pct_min := f64_of_Z 0;
     f_busca := "";
     f_natureza := "";
     f_classe := "Todas";
     f_area_mf_min := f64_of_Z 0;
     f_area_mf_max := f64_of_Z 10;
     f_page_size := 100;
     f_page := 1;
     f_show_adv := false |}.

(** Case mapping that leaves a string as it is, for examples in capitals. *)
Definition upper_id (s : string) : string := s.

(** The database after the job has run on three properties, one of them in
    a municipality without a reference row. *)
Definition jundiai_120 : imovel :=
  imovel_exemplo "9500004" "JUNDIAI" (f64_of_Z 120) (f64_of_Z 100).

Definition referencia_exemplo : list ref_row :=
  [mk_ref (Some "CAMPINAS") (Numero (f64_of_Z 20));
   mk_ref (Some "JUNDIAI") (Numero (f64_of_Z 12))].

Definition banco_enriquecido_exemplo : banco :=
  {| imoveis := Some [campinas_50; itu_100; jundiai_120];
     imoveis_enriquecido :=
       Some (map linha_enriquecida
               (merge_left [campinas_50; itu_100; jundiai_120] referencia_exemplo));
     indices := [] |}.

(** [a] is placed no later than [b] by the ORDER BY columns [cs]. *)
Definition precede (cs : list coluna) (a b : linha) : Prop :=
  vem_antes cs a b = true.

(** The default filters with the class "Sem MF" selected and the widest
    ranges of area. *)
Definition filtros_sem_mf : filtros :=
  {| f_municipio := "Todos";
     f_condicao := "Todas";
     f_area_min := f64_of_Z 0;
     f_area_max := f64_of_Z 5000;
     f_pct_min := f64_of_Z 0;
     f_busca := "";
     f_natureza := "";
     f_classe := "Sem MF";
     f_area_mf_min := f64_of_Z 0;
     f_area_mf_max := f64_of_Z 100;
     f_page_size := 100;
     f_page := 1;
     f_show_adv := false |}.

(** The filters with the page number set to [p], the other widgets as they
    are. *)
Definition na_pagina (f : filtros) (p : Z) : filtros :=
  {| f_municipio := f_municipio f;
     f_condicao := f_condicao f;
     f_area_min := f_area_min f;
     f_area_max := f_area_max f;
     f_pct_min := f_pct_min f;
     f_busca := f_busca f;
     f_natureza := f_natureza f;
     f_classe := f_classe f;
     f_area_mf_min := f_area_mf_min f;
     f_area_mf_max := f_area_mf_max f;
     f_page_size := f_page_size f;
     f_page := p;
     f_show_adv := f_show_adv f |}.

(** A decimal digit. *)
Definition eh_digito (c : ascii) : bool :=
  let n := N_of_ascii c in (48 <=? n)%N && (n <=? 57)%N.

(** What a one-character [replace] does to one character. *)
Definition troca_char (old : ascii) (new : list ascii) (c : ascii) : list ascii :=
  if ascii_eqb c old then new else [c].

(** The exchange of the two separators. *)
Definition troca_sep (c : ascii) : ascii :=
  if ascii_eqb c ","%char then "."%char
  else if ascii_eqb c "."%char then ","%char
  else c.

(** A string without its dots. *)
Definition sem_pontos (s : string) : string :=
  string_of_list_ascii
    (filter (fun c => negb (ascii_eqb c "."%char)) (list_ascii_of_string s)).

(** A float that is a number: neither NaN nor an infinity. *)
Definition f64_finito (x : float64) : bool :=
  match x with
  | S754_zero _ | S754_finite _ _ _ => true
  | _ => false
  end.

(** ** [app.py]: the text handed to the clipboard button *)

Definition LF : ascii := "010"%char.
Definition CR : ascii := "013"%char.
Definition barra : ascii := "092"%char.

(** [p] is a prefix of [s]. *)
Fixpoint prefixo (p s : list ascii) : bool :=
  match p, s with
  | [], _ => true
  | a :: p', b :: s' => ascii_eqb a b && prefixo p' s'
  | _ :: _, [] => false
  end.

(** The scan of [str.replace] for a non-empty [old]: left to right, each
    occurrence found is replaced and the scan goes on after it ([pular]
    counts the characters of the occurrence still to skip). *)
Fixpoint replace_desde (old new : list ascii) (pular : nat) (s : list ascii)
  : list ascii :=
  match s with
  | [] => []
  | c :: s' =>
    match pular with
    | S k => replace_desde old new k s'
    | O =>
      if prefixo old s
      then (new ++ replace_desde old new (List.length old - 1) s')%list
      else c :: replace_desde old new 0 s'
    end
  end.

(** [s.replace(old, new)]. With an empty [old] Python puts [new] before
    every character and at the end. The strings are UTF-8 bytes; the
    patterns used here are ASCII, which occurs in UTF-8 only as itself. *)
Definition py_replace (old new s : string) : string :=
  match old with
  | EmptyString =>
    new ++ string_of_list_ascii
             (flat_map (fun c => c :: list_ascii_of_string new)
                       (list_ascii_of_string s))
  | String _ _ =>
    string_of_list_ascii
      (replace_desde (list_ascii_of_string old) (list_ascii_of_string new) 0
                     (list_ascii_of_string s))
  end.

(** The variable [safe] of [clipboard_button]: the text as it is put
    between the backticks of a JavaScript template literal. *)
Definition clipboard_safe (text : string) : string :=
  py_replace (String LF "") (String barra "n")
    (py_replace (String CR (String LF "")) (String LF "")
       (py_replace "$" (String barra "$")
          (py_replace "`" (String barra "`")
             (py_replace (String barra "") (String barra (String barra "")) text)))).

(** What the five replacements do to one character, once CR LF has become
    LF. *)
Definition escapa_js (c : ascii) : list ascii :=
  if ascii_eqb c barra then [barra; barra]
  else if ascii_eqb c "`"%char then [barra; "`"%char]
  else if ascii_eqb c "$"%char then [barra; "$"%char]
  else if ascii_eqb c LF then [barra; "n"%char]
  else [c].

(** A character the replacements leave alone. *)
Definition char_comum (c : ascii) : bool :=
  negb (ascii_eqb c barra || ascii_eqb c "`"%char || ascii_eqb c "$"%char
        || ascii_eqb c LF || ascii_eqb c CR).

(** ** [app.py]: tab "Ranking" *)

Definition f64_mul (x y : float64) : float64 := SFmul prec emax x y.

(** A term of an ORDER BY clause: a column, or the computed column
    [area_ponderada_ha]. *)
Inductive chave : Type :=
| KColuna (c : coluna)
| KAreaPonderada.

Definition nome_chave (k : chave) : string :=
  match k with
  | KColuna c => nome_coluna c
  | KAreaPonderada => "area_ponderada_ha"
  end.

(** [(area_total_ha * (percentual_detencao / 100.0))], computed by SQLite
    in binary64: NULL when an operand is NULL, and NULL when the product is
    not a number. *)
Definition area_ponderada (l : linha) : sqlval :=
  let r := imovel_de l in
  sql_of_float
    (f64_mul (area_total_ha r) (f64_div (percentual_detencao r) (f64_of_Z 100))).

Definition valor_chave (k : chave) (l : linha) : sqlval :=
  match k with
  | KColuna c => valor c l
  | KAreaPonderada => area_ponderada l
  end.

(** The descending lexicographic comparison on a list of terms. *)
Fixpoint cmp_desc_chaves (ks : list chave) (a b : linha) : comparison :=
  match ks with
  | [] => Eq
  | k :: ks' =>
    match sql_ordem (valor_chave k b) (valor_chave k a) with
    | Eq => cmp_desc_chaves ks' a b
    | r => r
    end
  end.

Definition vem_antes_chaves (ks : list chave) (a b : linha) : bool :=
  match cmp_desc_chaves ks a b with
  | Gt => false
  | _ => true
  end.

(** Stable insertion sort by a comparison [antes]; rows that tie keep their
    order, as in [ordena]. *)
Fixpoint insere_por {A : Type} (antes : A -> A -> bool) (x : A) (l : list A)
  : list A :=
  match l with
  | [] => [x]
  | y :: l' => if antes x y then x :: l else y :: insere_por antes x l'
  end.

Fixpoint ordena_por {A : Type} (antes : A -> A -> bool) (l : list A) : list A :=
  match l with
  | [] => []
  | x :: l' => insere_por antes x (ordena_por antes l')
  end.

Definition MAIOR_AREA_MF : string := "Maior área em MF (recomendado)".
Definition MAIOR_AREA : string := "Maior área (ha)".
Definition MAIOR_DETENCAO : string := "Maior % detenção".
Definition AREA_X_PCT : string := "Área x % (aprox.)".

(** The list [where] of the tab, with its parameters. *)
Definition monta_where_rank (municipio_rank : string) : list cond :=
  (CIgual c_uf (SText "SP")
   :: quando (negb (String.eqb municipio_rank "Todos"))
        [CIgual c_municipio (SText municipio_rank)])%list.

(** The terms of [order_sql], all descending: the four branches of the
    [if] on the ranking type. *)
Definition ordem_rank (has_enrich : bool) (ranking_tipo : string) : list chave :=
  if has_enrich && String.eqb ranking_tipo MAIOR_AREA_MF
  then [KColuna c_area_em_mf; KColuna c_area_total_ha]
  else if String.eqb ranking_tipo MAIOR_AREA
  then [KColuna c_area_total_ha]
  else if String.eqb ranking_tipo MAIOR_DETENCAO
  then [KColuna c_percentual_detencao; KColuna c_area_total_ha]
  else [KAreaPonderada; KColuna c_area_total_ha].

(** The columns [select_extra] adds to the SELECT list (the computed
    column of the last branch reads base columns only). *)
Definition select_extra (has_enrich : bool) (ranking_tipo : string) : list coluna :=
  if has_enrich && String.eqb ranking_tipo MAIOR_AREA_MF
  then [c_mf_ha; c_area_em_mf; c_classe_tamanho]
  else [].

Definition order_sql (ks : list chave) : string :=
  "ORDER BY " ++ join ", " (map (fun k => nome_chave k ++ " DESC") ks).

Definition colunas_chave (k : chave) : list coluna :=
  match k with
  | KColuna c => [c]
  | KAreaPonderada => [c_area_total_ha; c_percentual_detencao]
  end.

Definition rank_cols (has_enrich : bool) (ranking_tipo : string) : list coluna :=
  ([c_codigo_imovel; c_denominacao; c_municipio; c_uf; c_area_total_ha;
    c_percentual_detencao]
   ++ select_extra has_enrich ranking_tipo
   ++ [c_condicao_pessoa; c_natureza_juridica; c_titular])%list.

(** The query of the tab, [... WHERE ... ORDER BY ... LIMIT ?], on the
    table in use. *)
Definition ranking (b : banco) (ranking_tipo municipio_rank : string) (top_n : Z)
  : res (list linha) :=
  let tbl := TBL b in
  let he := HAS_ENRICH b in
  rows <- linhas_da_tabela b tbl ;;
  if forallb (coluna_existe tbl)
       (rank_cols he ranking_tipo
        ++ flat_map cond_colunas (monta_where_rank municipio_rank)
        ++ flat_map colunas_chave (ordem_rank he ranking_tipo))
  then
    Ok (limita (Some (top_n, 0))
          (ordena_por (vem_antes_chaves (ordem_rank he ranking_tipo))
             (filter (passa (monta_where_rank municipio_rank)) rows)))
  else Raise (DatabaseError "no such column").

(** Row [a] may come right before row [b] under the terms [ks]: on the
    first term where they differ, [a] has the greater value. *)
Definition precede_chaves (ks : list chave) (a b : linha) : Prop :=
  vem_antes_chaves ks a b = true.

(** The same for two terms, spelled out. *)
Definition desc_por_duas (k1 k2 : chave) (a b : linha) : Prop :=
  sql_ordem (valor_chave k1 a) (valor_chave k1 b) = Gt \/
  (sql_ordem (valor_chave k1 a) (valor_chave k1 b) = Eq /\
   sql_ordem (valor_chave k2 a) (valor_chave k2 b) <> Lt).

Definition desc_por_uma (k : chave) (a b : linha) : Prop :=
  sql_ordem (valor_chave k a) (valor_chave k b) <> Lt.

Definition eh_nulo (v : sqlval) : bool :=
  match v with
  | SNull => true
  | _ => false
  end.

(** Two holders for the example of the weighted ranking. *)
Definition metade_de_100 : imovel :=
  imovel_exemplo "9500005" "ITU" (f64_of_Z 100) (f64_of_Z 50).

Definition inteiro_de_40 : imovel :=
  imovel_exemplo "9500006" "ITU" (f64_of_Z 40) (f64_of_Z 100).

(** ** [app.py], tab "Dashboard", and [sql_check.py]: counts per group *)

(** Two values fall in the same group of a GROUP BY (NULLs together). *)
Definition mesma_chave (a b : sqlval) : bool :=
  match sql_ordem a b with
  | Eq => true
  | _ => false
  end.

(** The distinct values of a list, each at its first occurrence. *)
Fixpoint distintas (ks : list sqlval) : list sqlval :=
  match ks with
  | [] => []
  | k :: ks' => k :: filter (fun x => negb (mesma_chave k x)) (distintas ks')
  end.

Definition conta (k : sqlval) (ks : list sqlval) : nat :=
  List.length (filter (mesma_chave k) ks).

(** [SELECT c, COUNT( * ) AS qtd ... GROUP BY c]: one row per value of [c],
    with the number of rows that have it. *)
Definition contagem_por (c : coluna) (rows : list linha) : list (sqlval * nat) :=
  let ks := map (valor c) rows in
  map (fun k => (k, conta k ks)) (distintas ks).

(** [ORDER BY qtd DESC]; groups that tie stay in order of first occurrence
    (SQLite may give them in any order). *)
Definition qtd_desc (a b : sqlval * nat) : bool := (snd b <=? snd a)%nat.

Definition limita_n {A : Type} (lim : option nat) (l : list A) : list A :=
  match lim with
  | None => l
  | Some n => firstn n l
  end.

(** [run_query] for
    [SELECT c, COUNT( * ) AS qtd FROM tbl [WHERE ...] GROUP BY c
     ORDER BY qtd DESC [LIMIT n]]; [filtro] is the WHERE clause, if any. *)
Definition run_contagem (b : banco) (tbl : string) (c : coluna)
           (colunas_filtro : list coluna) (filtro : linha -> bool)
           (lim : option nat)
  : res (list (sqlval * nat)) :=
  rows <- linhas_da_tabela b tbl ;;
  if forallb (coluna_existe tbl) (c :: colunas_filtro) then
    Ok (limita_n lim (ordena_por qtd_desc (contagem_por c (filter filtro rows))))
  else Raise (DatabaseError "no such column").

Definition sem_filtro (l : linha) : bool := true.


Definition df_cls (b : banco) : res (list (sqlval * nat)) :=
  run_contagem b (TBL b) c_classe_tamanho [] sem_filtro None.

Definition df_pf_pj (b : banco) : res (list (sqlval * nat)) :=
  run_contagem b (TBL b) c_condicao_pessoa [] sem_filtro None.


(** The chart on the right of the dashboard: classes with the enriched
    table, person conditions otherwise. *)
Definition grafico_direito (b : banco) : res (list (sqlval * nat)) :=
  if HAS_ENRICH b then df_cls b else df_pf_pj b.

(** [sql_check.py], query 2: municipalities of the enriched table with a
    missing module, and query 3: the distribution of the classes. *)
Definition mf_faltando (b : banco) : res (list (sqlval * nat)) :=
  run_contagem b "imoveis_enriquecido" c_municipio [c_mf_ha]
    (fun l => eh_nulo (valor c_mf_ha l)) None.

Definition distribuicao_por_classe (b : banco) : res (list (sqlval * nat)) :=
  run_contagem b "imoveis_enriquecido" c_classe_tamanho [] sem_filtro None.

(** A column that holds text. *)
Definition coluna_de_texto (c : coluna) : bool :=
  match c with
  | c_area_total_ha | c_percentual_detencao | c_mf_ha | c_area_em_mf => false
  | _ => true
  end.

Definition valor_textual (v : sqlval) : bool :=
  match v with
  | SReal _ => false
  | _ => true
  end.


(** The names of the four classes, as values of column [classe_tamanho]. *)
Definition CLASSES : list sqlval :=
  [SText SEM_MF; SText PEQUENA; SText MEDIA; SText GRANDE].

(** ** Properties *)

(** *** binary64 comparison *)

Lemma SFcompare_antisym (x y : float64) :
  SFcompare y x = option_map CompOpp (SFcompare x y).
Proof.
  destruct x as [sx | sx | | sx mx ex], y as [sy | sy | | sy my ey];
    simpl; try reflexivity;
    try (destruct sx; reflexivity); try (destruct sy; reflexivity);
    try (destruct sx, sy; reflexivity).
  f_equal.
  change (Pos.compare_cont Eq my mx) with (Pos.compare my mx).
  change (Pos.compare_cont Eq mx my) with (Pos.compare mx my).
  rewrite (Z.compare_antisym ex ey), (Pos.compare_antisym mx my).
  destruct sx, sy; simpl; try reflexivity;
    destruct (ex ?= ey); simpl; reflexivity.
Qed.

Lemma f64_ltb_not_leb (x y : float64) :
  f64_ltb x y = true -> f64_leb y x = false.
Proof.
  unfold f64_ltb, f64_leb, SFltb, SFleb.
  rewrite (SFcompare_antisym x y).
  destruct (SFcompare x y) as [[ | | ] | ]; simpl; congruence.
Qed.

Lemma f64_leb_not_nan (x y : float64) :
  f64_leb x y = true -> f64_is_nan x = false.
Proof. destruct x; try reflexivity. discriminate. Qed.

Lemma f64_ltb_not_nan_r (x y : float64) :
  f64_ltb x y = true -> f64_is_nan y = false.
Proof. destruct y; try reflexivity. destruct x; discriminate. Qed.

Lemma f64_not_leb_ltb (x y : float64) :
  f64_is_nan x = false -> f64_is_nan y = false ->
  f64_leb x y = false -> f64_ltb y x = true.
Proof.
  unfold f64_ltb, f64_leb, SFltb, SFleb.
  rewrite (SFcompare_antisym x y).
  destruct x, y; simpl; try congruence;
    match goal with
    | |- context [match ?c with _ => _ end] => destruct c; simpl; congruence
    end.
Qed.

Lemma f64_of_Z_4 : f64_of_Z 4 = S754_finite false 4503599627370496 (-50).
Proof. vm_compute. reflexivity. Qed.

Lemma f64_of_Z_15 : f64_of_Z 15 = S754_finite false 8444249301319680 (-49).
Proof. vm_compute. reflexivity. Qed.

Lemma f64_gt_15_not_le_4 (a : float64) :
  f64_ltb (f64_of_Z 15) a = true -> f64_leb a (f64_of_Z 4) = false.
Proof.
  rewrite f64_of_Z_4, f64_of_Z_15.
  destruct a as [s | s | | s m e]; try destruct s; try discriminate; try reflexivity.
  unfold f64_ltb, f64_leb, SFltb, SFleb. cbn [SFcompare].
  destruct (-49 ?= e) eqn:E; try discriminate; intros _.
  - apply Z.compare_eq in E. subst e. reflexivity.
  - rewrite Z.compare_lt_iff in E.
    assert (G : (e ?= -50) = Gt) by (rewrite Z.compare_gt_iff; lia).
    now rewrite G.
Qed.

Lemma f64_div_nan_r (x : float64) : f64_div x nan = nan.
Proof. destruct x; reflexivity. Qed.

(** *** The classifier *)

Lemma classificar_por_mf_Some (a : float64) :
  classificar_por_mf (Some a) = Ok (classe_de a).
Proof.
  unfold classificar_por_mf, classe_de, py_le, bind.
  cbn [is_None pd_isna orb].
  destruct (f64_is_nan a); [reflexivity | ].
  destruct (f64_leb a (f64_of_Z 4)); [reflexivity | ].
  destruct (f64_leb a (f64_of_Z 15)); reflexivity.
Qed.

Lemma classe_de_cases (a : float64) :
  In (classe_de a) [SEM_MF; PEQUENA; MEDIA; GRANDE].
Proof.
  unfold classe_de.
  destruct (f64_is_nan a); [simpl; auto | ].
  destruct (f64_leb a (f64_of_Z 4)); [simpl; auto | ].
  destruct (f64_leb a (f64_of_Z 15)); simpl; auto.
Qed.

Lemma classe_de_SEM_MF (a : float64) :
  classe_de a = SEM_MF -> f64_is_nan a = true.
Proof.
  unfold classe_de.
  destruct (f64_is_nan a); [reflexivity | ].
  destruct (f64_leb a (f64_of_Z 4)); [discriminate | ].
  destruct (f64_leb a (f64_of_Z 15)); discriminate.
Qed.

Lemma classes_distintas : NoDup [SEM_MF; PEQUENA; MEDIA; GRANDE].
Proof.
  repeat constructor; simpl; intuition discriminate.
Qed.

(** C2. The classifier returns, for every input, exactly one of the four
    classes: "Sem MF" for None or NaN, "Pequena (<=4 MF)" up to 4,
    "Média (4–15 MF)" above 4 and up to 15, "Grande (>15 MF)" above 15; one
    of these cases always applies. Total area 50 over a module of 20 is 2.5
    and is classified "Pequena (<=4 MF)". *)
Theorem classificar_por_mf_thresholds :
  forall x : option float64,
    (pd_isna x = true -> classificar_por_mf x = Ok SEM_MF) /\
    (forall a, x = Some a -> f64_leb a (f64_of_Z 4) = true ->
               classificar_por_mf x = Ok PEQUENA) /\
    (forall a, x = Some a -> f64_ltb (f64_of_Z 4) a = true ->
               f64_leb a (f64_of_Z 15) = true ->
               classificar_por_mf x = Ok MEDIA) /\
    (forall a, x = Some a -> f64_ltb (f64_of_Z 15) a = true ->
               classificar_por_mf x = Ok GRANDE) /\
    (pd_isna x = true \/
     exists a, x = Some a /\
       (f64_leb a (f64_of_Z 4) = true \/
        (f64_ltb (f64_of_Z 4) a = true /\ f64_leb a (f64_of_Z 15) = true) \/
        f64_ltb (f64_of_Z 15) a = true)) /\
    (exists c, classificar_por_mf x = Ok c /\ In c [SEM_MF; PEQUENA; MEDIA; GRANDE]) /\
    NoDup [SEM_MF; PEQUENA; MEDIA; GRANDE] /\
    f64_div (f64_of_Z 50) (f64_of_Z 20) = binary_normalize prec emax 5 (-1) false /\
    classificar_por_mf (Some (f64_div (f64_of_Z 50) (f64_of_Z 20))) = Ok PEQUENA.
Proof.
  intros x. repeat apply conj.
  - destruct x as [a | ]; simpl; intros H; [ | reflexivity].
    rewrite classificar_por_mf_Some. unfold classe_de. now rewrite H.
  - intros a -> H. rewrite classificar_por_mf_Some. unfold classe_de.
    now rewrite (f64_leb_not_nan _ _ H), H.
  - intros a -> H4 H15. rewrite classificar_por_mf_Some. unfold classe_de.
    now rewrite (f64_leb_not_nan _ _ H15), (f64_ltb_not_leb _ _ H4), H15.
  - intros a -> H15. rewrite classificar_por_mf_Some. unfold classe_de.
    rewrite (f64_ltb_not_nan_r _ _ H15), (f64_ltb_not_leb _ _ H15).
    now rewrite (f64_gt_15_not_le_4 _ H15).
  - destruct x as [a | ]; [ | left; reflexivity].
    destruct (f64_is_nan a) eqn:Hn; [left; exact Hn | right].
    exists a. split; [reflexivity | ].
    destruct (f64_leb a (f64_of_Z 4)) eqn:H4; [now left | right].
    assert (N4 : f64_is_nan (f64_of_Z 4) = false) by reflexivity.
    assert (N15 : f64_is_nan (f64_of_Z 15) = false) by reflexivity.
    destruct (f64_leb a (f64_of_Z 15)) eqn:H15.
    + left. split; [ | reflexivity]. now apply f64_not_leb_ltb.
    + right. now apply f64_not_leb_ltb.
  - destruct x as [a | ].
    + exists (classe_de a). split; [apply classificar_por_mf_Some | apply classe_de_cases].
    + exists SEM_MF. split; [reflexivity | simpl; auto].
  - apply classes_distintas.
  - vm_compute. reflexivity.
  - vm_compute. reflexivity.
Qed.

(** *** The enrichment of one frame *)

Lemma mapM_pure {A B : Type} (f : A -> res B) (g : A -> B) :
  (forall a, f a = Ok (g a)) -> forall l, mapM f l = Ok (map g l).
Proof.
  intros Hf l. induction l as [ | a l IH]; simpl; [reflexivity | ].
  now rewrite Hf, IH.
Qed.

Lemma enriquecer_linha_ok (rc : imovel * celula) :
  enriquecer_linha rc = Ok (linha_enriquecida rc).
Proof.
  destruct rc as [r c]. unfold enriquecer_linha, linha_enriquecida.
  now rewrite classificar_por_mf_Some.
Qed.

Lemma enriquecer_ok (im : list imovel) (ref : list ref_row) :
  enriquecer im ref = Ok (map linha_enriquecida (merge_left im ref)).
Proof. apply mapM_pure, enriquecer_linha_ok. Qed.

Lemma classe_de_nan : classe_de nan = SEM_MF.
Proof. reflexivity. Qed.





(** *** Municipalities without a reference row *)

Lemma filter_nil {A : Type} (f : A -> bool) (l : list A) :
  (forall x, In x l -> f x = false) -> filter f l = [].
Proof.
  induction l as [ | a l IH]; simpl; intros H; [reflexivity | ].
  rewrite (H a (or_introl eq_refl)). apply IH. intros x Hx. apply H. now right.
Qed.

Lemma merge_left_fst (im : list imovel) (ref : list ref_row) (rc : imovel * celula) :
  In rc (merge_left im ref) ->
  In (fst rc) im /\
  (snd rc = Vazia /\
   filter (fun q => texto_eqb (municipio_norm (fst rc)) (ref_municipio_norm q)) ref = []
   \/ exists q, In q ref /\
        texto_eqb (municipio_norm (fst rc)) (ref_municipio_norm q) = true /\
        snd rc = ref_mf_ha q).
Proof.
  unfold merge_left. rewrite in_flat_map. intros [r [Hr Hrc]].
  destruct (filter _ ref) as [ | q0 ms] eqn:E.
  - destruct Hrc as [<- | []]. simpl. split; [exact Hr | left; now split].
  - apply in_map_iff in Hrc. destruct Hrc as [q [<- Hq]]. simpl.
    split; [exact Hr | right]. exists q.
    rewrite <- E in Hq. apply filter_In in Hq. destruct Hq as [Hq1 Hq2].
    now repeat split.
Qed.

Lemma merge_left_ausente (im : list imovel) (ref : list ref_row) (r : imovel) :
  In r im ->
  filter (fun q => texto_eqb (municipio_norm r) (ref_municipio_norm q)) ref = [] ->
  In (r, Vazia) (merge_left im ref).
Proof.
  intros Hr E. unfold merge_left. rewrite in_flat_map. exists r.
  split; [exact Hr | ]. rewrite E. now left.
Qed.

(** C3. A property whose normalized municipality name is the key of no
    reference row comes out of the job with a null module size, a null
    area-in-modules and the class "Sem MF". *)
Theorem municipio_ausente_sem_mf :
  forall (im : list imovel) (ref : list ref_row) (r : imovel),
    In r im ->
    (forall q, In q ref ->
               texto_eqb (municipio_norm r) (ref_municipio_norm q) = false) ->
    exists df,
      enriquecer im ref = Ok df /\
      In {| base := r; mf_ha := nan; area_em_mf := nan; classe_tamanho := SEM_MF |} df /\
      forall e, In e df -> base e = r ->
                mf_ha e = nan /\ area_em_mf e = nan /\ classe_tamanho e = SEM_MF.
Proof.
  intros im ref r Hr Habs.
  exists (map linha_enriquecida (merge_left im ref)).
  split; [apply enriquecer_ok | ].
  pose proof (filter_nil _ _ Habs) as E.
  split.
  - apply in_map_iff. exists (r, Vazia). split.
    + unfold linha_enriquecida. cbn [fst snd to_numeric_coerce].
      now rewrite f64_div_nan_r.
    + now apply merge_left_ausente.
  - intros e He Hb. apply in_map_iff in He. destruct He as [[r' c] [<- Hrc]].
    cbn in Hb. subst r'.
    apply merge_left_fst in Hrc. cbn [fst snd] in Hrc.
    destruct Hrc as [_ [[-> _] | [q [Hq [Hk _]]]]].
    + unfold linha_enriquecida. cbn [fst snd to_numeric_coerce mf_ha area_em_mf classe_tamanho].
      now rewrite f64_div_nan_r.
    + rewrite (Habs q Hq) in Hk. discriminate.
Qed.

Lemma municipio_ausente_sem_mf_witness :
  exists df,
    enriquecer [itu_100] [mk_ref (Some "CAMPINAS") (Numero (f64_of_Z 20))] = Ok df /\
    In {| base := itu_100; mf_ha := nan; area_em_mf := nan; classe_tamanho := SEM_MF |} df /\
    forall e, In e df -> base e = itu_100 ->
              mf_ha e = nan /\ area_em_mf e = nan /\ classe_tamanho e = SEM_MF.
Proof.
  apply (municipio_ausente_sem_mf
           [itu_100] [mk_ref (Some "CAMPINAS") (Numero (f64_of_Z 20))] itu_100).
  - simpl. left. reflexivity.
  - intros q [<- | []]. reflexivity.
Defined.

(** *** The job as a whole *)







Lemma main_falha_intacto (w : mundo) (e : exn) :
  fst (main w) = Raise e -> snd (main w) = w.
Proof.
  unfold main.
  destruct (db_file w) as [b | ]; [ | reflexivity].
  destruct (ref_file w) as [ref | ]; [ | reflexivity].
  destruct (imoveis b) as [im | ]; [ | reflexivity].
  destruct (enriquecer im ref); [discriminate | reflexivity].
Qed.

(** C7. When the SQLite file, the table [imoveis] in it, or the reference
    file is absent, the job ends with an exception and leaves the database,
    the reference file and the output exactly as they were. *)
Theorem main_aborta_sem_entradas :
  forall w : mundo,
    (db_file w = None \/
     ref_file w = None \/
     exists b, db_file w = Some b /\ imoveis b = None) ->
    exists e, main w = (Raise e, w).
Proof.
  intros w H. unfold main.
  destruct (db_file w) as [b | ] eqn:Hb; [ | eauto].
  destruct (ref_file w) as [ref | ] eqn:Hr; [ | eauto].
  destruct H as [H | [H | [b' [Hb' Hi]]]]; try discriminate.
  injection Hb' as <-. rewrite Hi. eauto.
Qed.

Lemma main_aborta_sem_entradas_witness :
  (exists e, main (mk_mundo None (Some []) []) = (Raise e, mk_mundo None (Some []) [])) /\
  (exists e, main (mk_mundo (Some banco_sem_base) None [])
             = (Raise e, mk_mundo (Some banco_sem_base) None [])) /\
  (exists e, main (mk_mundo (Some banco_sem_base) (Some []) [])
             = (Raise e, mk_mundo (Some banco_sem_base) (Some []) [])).
Proof.
  repeat apply conj.
  - apply (main_aborta_sem_entradas (mk_mundo None (Some []) [])).
    left. reflexivity.
  - apply (main_aborta_sem_entradas (mk_mundo (Some banco_sem_base) None [])).
    right. left. reflexivity.
  - apply (main_aborta_sem_entradas (mk_mundo (Some banco_sem_base) (Some []) [])).
    right. right. exists banco_sem_base. split; reflexivity.
Defined.



(** *** Formatting helpers *)

(** C4, as the code has it. [fmt_float] returns the placeholder "-" for
    None and for NaN, whatever the number of decimals, and raises on no
    float. [fmt_int] is declared for an [int] and has no such guard: it
    formats every [int] without raising, raises [TypeError] on None and
    returns "nan" on NaN. *)
Theorem fmt_float_placeholder :
  (forall (x : pyval) (dec : nat),
      pyval_isna x = true -> fmt_float x dec = Ok "-") /\
  (forall (f : float64) (dec : nat), exists s, fmt_float (PyFloat f) dec = Ok s) /\
  (forall n : Z, exists s, fmt_int (UmInt n) = Ok s) /\
  fmt_int UmNone
  = Raise (TypeError "unsupported format string passed to NoneType.__format__") /\
  fmt_int UmNaN = Ok "nan".
Proof.
  repeat apply conj.
  - intros x dec H. unfold fmt_float. rewrite H. now rewrite orb_true_r.
  - intros f dec. unfold fmt_float. cbn [pyval_is_None pyval_isna orb].
    destruct (f64_is_nan f); cbn [py_float bind]; eauto.
  - intros n. cbn [fmt_int]. eauto.
  - reflexivity.
  - reflexivity.
Qed.

(** C4 fails on [fmt_int]: None raises, and NaN gives "nan", not "-". *)
Lemma fmt_int_has_no_placeholder :
  fmt_int UmNone
  = Raise (TypeError "unsupported format string passed to NoneType.__format__")
  /\ fmt_int UmNaN = Ok "nan"
  /\ fmt_int UmNaN <> Ok "-".
Proof.
  repeat apply conj; try reflexivity. discriminate.
Qed.

(** *** The table in use *)

Lemma TBL_cases (b : banco) :
  (exists es, imoveis_enriquecido b = Some es /\
              TBL b = "imoveis_enriquecido" /\ HAS_ENRICH b = true /\
              linhas_da_tabela b (TBL b) = Ok (map LEnr es))
  \/
  (imoveis_enriquecido b = None /\ TBL b = "imoveis" /\ HAS_ENRICH b = false /\
   linhas_da_tabela b (TBL b) =
   match imoveis b with
   | Some rs => Ok (map LBase rs)
   | None => Raise (DatabaseError "no such table: imoveis")
   end).
Proof.
  unfold HAS_ENRICH, TBL, table_exists, linhas_da_tabela.
  destruct (imoveis_enriquecido b) as [es | ]; cbn.
  - left. exists es. now repeat split.
  - right. now repeat split.
Qed.

Lemma linhas_da_tabela_ok (b : banco) :
  tem_tabela b -> exists rows, linhas_da_tabela b (TBL b) = Ok rows.
Proof.
  intros H. destruct (TBL_cases b) as [[es [_ [_ [_ E]]]] | [En [_ [_ E]]]].
  - eauto.
  - rewrite E. destruct (imoveis b) as [rs | ] eqn:Ei; [eauto | ].
    destruct H as [H | H]; congruence.
Qed.

Lemma coluna_existe_enriquecida (cs : list coluna) :
  forallb (coluna_existe "imoveis_enriquecido") cs = true.
Proof.
  apply forallb_forall. intros c _. unfold coluna_existe. cbn. apply orb_true_r.
Qed.

Lemma monta_where_colunas (up : string -> string) (b : banco) (f : filtros) :
  forallb (coluna_existe (TBL b))
          (flat_map cond_colunas (monta_where up (HAS_ENRICH b) f)) = true.
Proof.
  destruct (TBL_cases b) as [[es [_ [-> [_ _]]]] | [_ [Et [Eh _]]]].
  - apply coluna_existe_enriquecida.
  - rewrite Et, Eh. unfold monta_where.
    destruct (negb (String.eqb (f_municipio f) "Todos")),
             (negb (String.eqb (f_condicao f) "Todas")),
             (nao_vazia (f_natureza f)), (nao_vazia (f_busca f)); reflexivity.
Qed.

Lemma cols_colunas (b : banco) (adv : bool) :
  forallb (coluna_existe (TBL b)) (cols_sql (HAS_ENRICH b) adv) = true.
Proof.
  destruct (TBL_cases b) as [[es [_ [-> [_ _]]]] | [_ [Et [Eh _]]]].
  - apply coluna_existe_enriquecida.
  - rewrite Et, Eh. destruct adv; reflexivity.
Qed.

Lemma ordem_colunas (b : banco) :
  forallb (coluna_existe (TBL b)) (ordem (HAS_ENRICH b)) = true.
Proof.
  destruct (TBL_cases b) as [[es [_ [-> [_ _]]]] | [_ [Et [Eh _]]]].
  - apply coluna_existe_enriquecida.
  - rewrite Et, Eh. reflexivity.
Qed.

Lemma run_count_ok (up : string -> string) (b : banco) (f : filtros) (rows : list linha) :
  linhas_da_tabela b (TBL b) = Ok rows ->
  run_count b (TBL b) (monta_where up (HAS_ENRICH b) f)
  = Ok (Z.of_nat (List.length (filter (passa (monta_where up (HAS_ENRICH b) f)) rows))).
Proof.
  intros E. unfold run_count. rewrite E. cbn [bind].
  now rewrite monta_where_colunas.
Qed.

Lemma run_query_pagina_ok (up : string -> string) (b : banco) (f : filtros) (rows : list linha) :
  linhas_da_tabela b (TBL b) = Ok rows ->
  run_query b (TBL b) (consulta_pagina up (HAS_ENRICH b) f)
  = Ok (limita (Some (f_page_size f, (f_page f - 1) * f_page_size f))
          (ordena (ordem (HAS_ENRICH b))
             (filter (passa (monta_where up (HAS_ENRICH b) f)) rows))).
Proof.
  intros E. unfold run_query. rewrite E. cbn [bind].
  unfold consulta_colunas, consulta_pagina. cbn [q_colunas q_where q_ordem q_limite].
  now rewrite !forallb_app, cols_colunas, monta_where_colunas, ordem_colunas.
Qed.

Lemma run_query_todos_ok (up : string -> string) (b : banco) (f : filtros) (rows : list linha) :
  linhas_da_tabela b (TBL b) = Ok rows ->
  run_query b (TBL b) (consulta_todos up (HAS_ENRICH b) f)
  = Ok (ordena (ordem (HAS_ENRICH b))
          (filter (passa (monta_where up (HAS_ENRICH b) f)) rows)).
Proof.
  intros E. unfold run_query. rewrite E. cbn [bind].
  unfold consulta_colunas, consulta_todos. cbn [q_colunas q_where q_ordem q_limite].
  now rewrite !forallb_app, cols_colunas, monta_where_colunas, ordem_colunas.
Qed.

(** *** Export of all filtered rows *)

Lemma aviso_exportacao :
  fmt_int (UmInt export_limit) = Ok "200.000".
Proof. vm_compute. reflexivity. Qed.

(** C5. Whatever the filters, the export of all filtered rows is enabled
    exactly when the count of matching rows is at most 200000 (so it is at
    200000 and is not at 200001). Above the ceiling the run shows the
    warning and produces no file, clicked or not; up to the ceiling there
    is no warning and a click produces the file of all matching rows. *)
Theorem exportacao_total_limitada :
  forall (up : string -> string) (b : banco) (f : filtros) (clicou : bool),
    tem_tabela b ->
    exists out rows,
      prospeccao up b f clicou = Ok out /\
      linhas_da_tabela b (TBL b) = Ok rows /\
      s_total out
      = Z.of_nat (List.length (filter (passa (monta_where up (HAS_ENRICH b) f)) rows)) /\
      (s_exportar_habilitado out = true <-> s_total out <= 200000) /\
      (s_total out > 200000 ->
       s_aviso out = Some "Exportação total limitada a 200.000 linhas por segurança." /\
       s_arquivo_todos out = None) /\
      (s_total out <= 200000 ->
       s_aviso out = None /\
       s_arquivo_todos out
       = if clicou
         then Some (ordena (ordem (HAS_ENRICH b))
                      (filter (passa (monta_where up (HAS_ENRICH b) f)) rows))
         else None) /\
      can_export_all 200000 = true /\
      can_export_all 200001 = false.
Proof.
  intros up b f clicou Ht.
  destruct (linhas_da_tabela_ok b Ht) as [rows E].
  unfold prospeccao.
  rewrite (run_count_ok up b f rows E), (run_query_pagina_ok up b f rows E),
    (run_query_todos_ok up b f rows E).
  cbn [bind].
  set (total := Z.of_nat (List.length (filter (passa (monta_where up (HAS_ENRICH b) f)) rows))).
  unfold can_export_all, export_limit.
  destruct (Z.leb_spec total 200000) as [Hle | Hgt].
  - cbn [negb bind]. unfold st_button. rewrite andb_true_r.
    destruct clicou; cbn [bind];
      eexists; exists rows; (split; [reflexivity | ]);
      cbn [s_total s_aviso s_exportar_habilitado s_arquivo_todos];
      repeat apply conj; try reflexivity; try tauto; try lia.
  - cbn [negb]. change (fmt_int (UmInt 200000)) with (fmt_int (UmInt export_limit)).
    rewrite aviso_exportacao. cbn [bind]. unfold st_button. rewrite andb_false_r.
    eexists; exists rows; (split; [reflexivity | ]).
    cbn [s_total s_aviso s_exportar_habilitado s_arquivo_todos].
    repeat apply conj; try exact E; try reflexivity; try lia.
    intros _. split; reflexivity.
Qed.

Lemma exportacao_total_limitada_witness :
  exists out rows,
    prospeccao upper_id (banco_base [campinas_50; itu_100]) filtros_padrao true = Ok out /\
    linhas_da_tabela (banco_base [campinas_50; itu_100])
                     (TBL (banco_base [campinas_50; itu_100])) = Ok rows /\
    s_total out
    = Z.of_nat (List.length
        (filter (passa (monta_where upper_id
                          (HAS_ENRICH (banco_base [campinas_50; itu_100])) filtros_padrao))
                rows)) /\
    (s_exportar_habilitado out = true <-> s_total out <= 200000) /\
    (s_total out > 200000 ->
     s_aviso out = Some "Exportação total limitada a 200.000 linhas por segurança." /\
     s_arquivo_todos out = None) /\
    (s_total out <= 200000 ->
     s_aviso out = None /\
     s_arquivo_todos out
     = if true
       then Some (ordena (ordem (HAS_ENRICH (banco_base [campinas_50; itu_100])))
                    (filter (passa (monta_where upper_id
                                      (HAS_ENRICH (banco_base [campinas_50; itu_100]))
                                      filtros_padrao)) rows))
       else None) /\
    can_export_all 200000 = true /\
    can_export_all 200001 = false.
Proof.
  apply (exportacao_total_limitada upper_id (banco_base [campinas_50; itu_100])
           filtros_padrao true).
  left. discriminate.
Defined.

(** *** Sorting of the result *)

Lemma sql_ordem_antisym (a b : sqlval) :
  sql_ordem b a = CompOpp (sql_ordem a b).
Proof.
  destruct a as [ | x | x], b as [ | y | y]; cbn [sql_ordem];
    try reflexivity.
  - rewrite (SFcompare_antisym x y). now destruct (SFcompare x y).
  - apply String.compare_antisym.
Qed.

Lemma cmp_desc_antisym (cs : list coluna) (a b : linha) :
  cmp_desc cs b a = CompOpp (cmp_desc cs a b).
Proof.
  induction cs as [ | c cs IH]; cbn [cmp_desc]; [reflexivity | ].
  rewrite (sql_ordem_antisym (valor c b) (valor c a)).
  destruct (sql_ordem (valor c b) (valor c a)); cbn; auto.
Qed.

Lemma vem_antes_total (cs : list coluna) (a b : linha) :
  vem_antes cs a b = false -> vem_antes cs b a = true.
Proof.
  unfold vem_antes. rewrite (cmp_desc_antisym cs a b).
  destruct (cmp_desc cs a b); cbn; congruence.
Qed.

Section Ordenacao.

Variable cs : list coluna.

Lemma insere_HdRel (x a : linha) (l : list linha) :
  precede cs a x -> HdRel (precede cs) a l -> HdRel (precede cs) a (insere cs x l).
Proof.
  intros Hax Hal. destruct l as [ | y l]; cbn [insere].
  - now constructor.
  - destruct (vem_antes cs x y); constructor; [exact Hax | ].
    now apply HdRel_inv in Hal.
Qed.

Lemma insere_Sorted (x : linha) (l : list linha) :
  Sorted (precede cs) l -> Sorted (precede cs) (insere cs x l).
Proof.
  induction l as [ | y l IH]; cbn [insere]; intros Hs.
  - repeat constructor.
  - destruct (vem_antes cs x y) eqn:E.
    + constructor; [exact Hs | now constructor].
    + apply Sorted_inv in Hs. destruct Hs as [Hs Hd].
      constructor; [now apply IH | ].
      apply insere_HdRel; [ | exact Hd]. now apply vem_antes_total.
Qed.

Lemma ordena_Sorted (l : list linha) : Sorted (precede cs) (ordena cs l).
Proof.
  induction l as [ | x l IH]; cbn [ordena]; [constructor | ].
  now apply insere_Sorted.
Qed.

Lemma In_insere (x y : linha) (l : list linha) :
  In y (insere cs x l) <-> y = x \/ In y l.
Proof.
  induction l as [ | z l IH]; cbn [insere].
  - simpl. intuition.
  - destruct (vem_antes cs x z); simpl; [intuition | ].
    rewrite IH. simpl. intuition.
Qed.

Lemma In_ordena (y : linha) (l : list linha) :
  In y (ordena cs l) <-> In y l.
Proof.
  induction l as [ | x l IH]; cbn [ordena]; [reflexivity | ].
  rewrite In_insere, IH. simpl. intuition.
Qed.

End Ordenacao.

Lemma Sorted_skipn {A : Type} (R : A -> A -> Prop) (n : nat) (l : list A) :
  Sorted R l -> Sorted R (skipn n l).
Proof.
  revert l. induction n as [ | n IH]; intros l Hs; [exact Hs | ].
  destruct l as [ | a l]; [constructor | ].
  cbn [skipn]. apply IH. now apply Sorted_inv in Hs.
Qed.

Lemma Sorted_firstn {A : Type} (R : A -> A -> Prop) (n : nat) (l : list A) :
  Sorted R l -> Sorted R (firstn n l).
Proof.
  revert l. induction n as [ | n IH]; intros l Hs; [constructor | ].
  destruct l as [ | a l]; [constructor | ].
  cbn [firstn]. apply Sorted_inv in Hs. destruct Hs as [Hs Hd].
  constructor; [now apply IH | ].
  destruct l as [ | b l]; [destruct n; constructor | ].
  apply HdRel_inv in Hd. destruct n; constructor. exact Hd.
Qed.

Lemma limita_Sorted (R : linha -> linha -> Prop) (lim : option (Z * Z)) (l : list linha) :
  Sorted R l -> Sorted R (limita lim l).
Proof.
  intros Hs. destruct lim as [[n k] | ]; cbn [limita]; [ | exact Hs].
  destruct (n <? 0); [ | apply Sorted_firstn]; now apply Sorted_skipn.
Qed.

Lemma In_skipn_In {A : Type} (n : nat) (y : A) (l : list A) :
  In y (skipn n l) -> In y l.
Proof.
  intros H. rewrite <- (firstn_skipn n l). apply in_or_app. now right.
Qed.

Lemma In_firstn_In {A : Type} (n : nat) (y : A) (l : list A) :
  In y (firstn n l) -> In y l.
Proof.
  intros H. rewrite <- (firstn_skipn n l). apply in_or_app. now left.
Qed.

Lemma In_limita (lim : option (Z * Z)) (y : linha) (l : list linha) :
  In y (limita lim l) -> In y l.
Proof.
  destruct lim as [[n k] | ]; cbn [limita]; [ | auto].
  destruct (n <? 0); intros H.
  - now apply In_skipn_In in H.
  - apply In_firstn_In in H. now apply In_skipn_In in H.
Qed.

Lemma limita_nil (lim : option (Z * Z)) : limita lim [] = [].
Proof.
  destruct lim as [[n k] | ]; cbn [limita]; [ | reflexivity].
  rewrite skipn_nil. destruct (n <? 0); [reflexivity | apply firstn_nil].
Qed.

Lemma Sorted_weaken {A : Type} (R R' : A -> A -> Prop) (l : list A) :
  (forall a b, R a b -> R' a b) -> Sorted R l -> Sorted R' l.
Proof.
  intros HR. induction 1 as [ | a l Hs IH Hd]; constructor; [exact IH | ].
  destruct Hd; constructor. now apply HR.
Qed.

Lemma vem_antes_enriquecida (a b : linha) :
  vem_antes [c_area_em_mf; c_area_total_ha] a b = true -> ordem_enriquecida a b.
Proof.
  unfold vem_antes, ordem_enriquecida, chave_maior, chave_igual. cbn [cmp_desc].
  rewrite (sql_ordem_antisym (valor c_area_em_mf a) (valor c_area_em_mf b)).
  rewrite (sql_ordem_antisym (valor c_area_total_ha a) (valor c_area_total_ha b)).
  destruct (sql_ordem (valor c_area_em_mf a) (valor c_area_em_mf b));
    destruct (sql_ordem (valor c_area_total_ha a) (valor c_area_total_ha b));
    cbn; intros H; try discriminate; auto.
Qed.

Lemma vem_antes_base (a b : linha) :
  vem_antes [c_area_total_ha] a b = true -> ordem_base a b.
Proof.
  unfold vem_antes, ordem_base, chave_maior, chave_igual. cbn [cmp_desc].
  rewrite (sql_ordem_antisym (valor c_area_total_ha a) (valor c_area_total_ha b)).
  destruct (sql_ordem (valor c_area_total_ha a) (valor c_area_total_ha b));
    cbn; intros H; try discriminate; auto.
Qed.

(** C9. Whatever the filters, the rows of the page and the rows of the
    full export come back ordered: from the enriched table by area in
    modules descending, ties by total area descending; from the base table
    by total area descending alone. The ORDER BY clause sent to SQLite says
    so, and the page is a slice of the full ordered result. *)
Theorem resultados_ordenados :
  forall (up : string -> string) (b : banco) (f : filtros),
    tem_tabela b ->
    exists pagina todos,
      run_query b (TBL b) (consulta_pagina up (HAS_ENRICH b) f) = Ok pagina /\
      run_query b (TBL b) (consulta_todos up (HAS_ENRICH b) f) = Ok todos /\
      pagina = limita (q_limite (consulta_pagina up (HAS_ENRICH b) f)) todos /\
      (HAS_ENRICH b = true ->
       TBL b = "imoveis_enriquecido" /\
       order_by_sql (q_ordem (consulta_pagina up (HAS_ENRICH b) f))
       = "ORDER BY area_em_mf DESC, area_total_ha DESC" /\
       order_by_sql (q_ordem (consulta_todos up (HAS_ENRICH b) f))
       = "ORDER BY area_em_mf DESC, area_total_ha DESC" /\
       Sorted ordem_enriquecida pagina /\ Sorted ordem_enriquecida todos) /\
      (HAS_ENRICH b = false ->
       TBL b = "imoveis" /\
       order_by_sql (q_ordem (consulta_pagina up (HAS_ENRICH b) f))
       = "ORDER BY area_total_ha DESC" /\
       order_by_sql (q_ordem (consulta_todos up (HAS_ENRICH b) f))
       = "ORDER BY area_total_ha DESC" /\
       Sorted ordem_base pagina /\ Sorted ordem_base todos).
Proof.
  intros up b f Ht.
  destruct (linhas_da_tabela_ok b Ht) as [rows E].
  rewrite (run_query_pagina_ok up b f rows E), (run_query_todos_ok up b f rows E).
  do 2 eexists. do 3 (split; [reflexivity | ]).
  cbn [consulta_pagina consulta_todos q_ordem q_limite].
  pose proof (ordena_Sorted (ordem (HAS_ENRICH b))
                (filter (passa (monta_where up (HAS_ENRICH b) f)) rows)) as Hs.
  destruct (TBL_cases b) as [[es [_ [Et [Eh _]]]] | [_ [Et [Eh _]]]];
    rewrite Eh in *; cbn [ordem] in *.
  - split; [intros _ | discriminate].
    apply (Sorted_weaken _ _ _ vem_antes_enriquecida) in Hs.
    repeat apply conj; try reflexivity; try exact Et; try exact Hs.
    now apply limita_Sorted.
  - split; [discriminate | intros _].
    apply (Sorted_weaken _ _ _ vem_antes_base) in Hs.
    repeat apply conj; try reflexivity; try exact Et; try exact Hs.
    now apply limita_Sorted.
Qed.

Lemma resultados_ordenados_witness :
  exists pagina todos,
    run_query banco_enriquecido_exemplo (TBL banco_enriquecido_exemplo)
      (consulta_pagina upper_id (HAS_ENRICH banco_enriquecido_exemplo) filtros_padrao)
    = Ok pagina /\
    run_query banco_enriquecido_exemplo (TBL banco_enriquecido_exemplo)
      (consulta_todos upper_id (HAS_ENRICH banco_enriquecido_exemplo) filtros_padrao)
    = Ok todos /\
    pagina = limita (q_limite (consulta_pagina upper_id
                                 (HAS_ENRICH banco_enriquecido_exemplo) filtros_padrao))
                    todos /\
    (HAS_ENRICH banco_enriquecido_exemplo = true ->
     TBL banco_enriquecido_exemplo = "imoveis_enriquecido" /\
     order_by_sql (q_ordem (consulta_pagina upper_id
                              (HAS_ENRICH banco_enriquecido_exemplo) filtros_padrao))
     = "ORDER BY area_em_mf DESC, area_total_ha DESC" /\
     order_by_sql (q_ordem (consulta_todos upper_id
                              (HAS_ENRICH banco_enriquecido_exemplo) filtros_padrao))
     = "ORDER BY area_em_mf DESC, area_total_ha DESC" /\
     Sorted ordem_enriquecida pagina /\ Sorted ordem_enriquecida todos) /\
    (HAS_ENRICH banco_enriquecido_exemplo = false ->
     TBL banco_enriquecido_exemplo = "imoveis" /\
     order_by_sql (q_ordem (consulta_pagina upper_id
                              (HAS_ENRICH banco_enriquecido_exemplo) filtros_padrao))
     = "ORDER BY area_total_ha DESC" /\
     order_by_sql (q_ordem (consulta_todos upper_id
                              (HAS_ENRICH banco_enriquecido_exemplo) filtros_padrao))
     = "ORDER BY area_total_ha DESC" /\
     Sorted ordem_base pagina /\ Sorted ordem_base todos).
Proof.
  apply (resultados_ordenados upper_id banco_enriquecido_exemplo filtros_padrao).
  left. discriminate.
Defined.

(** The page of the example: Jundiaí (120 ha over 12, 10 MF) comes before
    Campinas (50 ha over 20, 2.5 MF); Itu, without a module, is not there. *)
Example pagina_exemplo :
  run_query banco_enriquecido_exemplo (TBL banco_enriquecido_exemplo)
    (consulta_pagina upper_id (HAS_ENRICH banco_enriquecido_exemplo) filtros_padrao)
  = Ok [LEnr (linha_enriquecida (jundiai_120, Numero (f64_of_Z 12)));
        LEnr (linha_enriquecida (campinas_50, Numero (f64_of_Z 20)))].
Proof. vm_compute. reflexivity. Qed.

(** *** Detail by code *)

Lemma string_compare_refl (s : string) : String.compare s s = Eq.
Proof.
  pose proof (String.compare_antisym s s) as H.
  destruct (String.compare s s); cbn in H; congruence.
Qed.

Lemma texto_eqb_eq (t : texto) (c : string) :
  texto_eqb t (Some c) = true <-> t = Some c.
Proof.
  destruct t as [s | ]; cbn; [ | split; discriminate].
  rewrite String.eqb_eq. split; congruence.
Qed.

Lemma sql_eq_texto (t : texto) (c : string) :
  verdadeiro (sql_eq (sql_of_texto t) (SText c)) = texto_eqb t (Some c).
Proof.
  destruct t as [s | ]; cbn; [ | reflexivity].
  destruct (String.eqb_spec s c) as [-> | Hne].
  - now rewrite string_compare_refl.
  - destruct (String.compare s c) eqn:E; try reflexivity.
    apply String.compare_eq_iff in E. contradiction.
Qed.









(** An unknown code gives the notice. *)
Example detalhe_desconhecido :
  detalhe banco_enriquecido_exemplo "0000000" = Ok (Aviso "Código não encontrado.").
Proof. vm_compute. reflexivity. Qed.

(** *** The range on area in modules *)

Lemma SFcompare_Some (x y : float64) :
  f64_is_nan x = false -> f64_is_nan y = false ->
  exists c, SFcompare x y = Some c.
Proof.
  destruct x, y; cbn; intros; try discriminate; eauto.
Qed.

Lemma sql_between_float (x lo hi : float64) :
  sql_between (sql_of_float x) (sql_of_float lo) (sql_of_float hi) = Some true ->
  f64_is_nan x = false /\ f64_leb lo x = true /\ f64_leb x hi = true.
Proof.
  unfold sql_between, sql_ge, sql_le, sql_cmp, sql_of_float.
  destruct (f64_is_nan x) eqn:Nx; [cbn; now destruct (f64_is_nan hi) | ].
  destruct (f64_is_nan lo) eqn:Nlo;
    [cbn; destruct (f64_is_nan hi); cbn;
     try destruct (match SFcompare x hi with Some c => c | None => Eq end);
     discriminate | ].
  destruct (f64_is_nan hi) eqn:Nhi;
    [cbn; destruct (match SFcompare x lo with Some c => c | None => Eq end);
     discriminate | ].
  cbn [sql_ordem]. unfold f64_leb, SFleb.
  rewrite (SFcompare_antisym x lo).
  destruct (SFcompare_Some x lo Nx Nlo) as [c1 ->].
  destruct (SFcompare_Some x hi Nx Nhi) as [c2 ->].
  destruct c1, c2; cbn; intros H; try discriminate; auto.
Qed.

Lemma passa_In (ws : list cond) (w : cond) (l : linha) :
  In w ws -> passa ws l = true -> eval_cond w l = Some true.
Proof.
  unfold passa. rewrite forallb_forall. intros Hw H.
  specialize (H w Hw). destruct (eval_cond w l) as [[ | ] | ]; now try discriminate.
Qed.

Lemma monta_where_faixa_mf (up : string -> string) (f : filtros) :
  exists ws,
    monta_where up true f
    = (ws ++ [CEntre c_area_em_mf (sql_of_float (f_area_mf_min f))
                     (sql_of_float (f_area_mf_max f))])%list.
Proof.
  unfold monta_where. cbn [quando].
  rewrite !app_assoc. eexists. reflexivity.
Qed.

Lemma monta_where_classe (up : string -> string) (f : filtros) :
  String.eqb (f_classe f) "Todas" = false ->
  In (CIgual c_classe_tamanho (SText (f_classe f))) (monta_where up true f).
Proof.
  intros H. unfold monta_where. rewrite H. cbn [negb quando].
  rewrite !in_app_iff. do 5 right. left. now left.
Qed.

Lemma linha_enriquecida_classe (im : list imovel) (ref : list ref_row)
      (es : list enriquecido) (e : enriquecido) :
  enriquecer im ref = Ok es -> In e es ->
  classe_tamanho e = classe_de (area_em_mf e).
Proof.
  rewrite enriquecer_ok. intros [= <-] He.
  apply in_map_iff in He. destruct He as [rc [<- _]]. reflexivity.
Qed.

(** C10. With the enriched table in use the WHERE clause always ends with
    "area_em_mf BETWEEN ? AND ?", whatever the filters. So every row of a
    page or of a full export has a non-null area in modules, within the
    chosen range; on a table written by the job no such row has the class
    "Sem MF", and when the class "Sem MF" is selected the count is zero and
    the page and the export are empty, whatever the other filters. *)
Theorem sem_mf_nunca_aparece :
  forall (up : string -> string) (f : filtros) (b : banco) (es : list enriquecido),
    imoveis_enriquecido b = Some es ->
    HAS_ENRICH b = true /\
    (exists ws,
        monta_where up (HAS_ENRICH b) f
        = (ws ++ [CEntre c_area_em_mf (sql_of_float (f_area_mf_min f))
                         (sql_of_float (f_area_mf_max f))])%list) /\
    cond_sql (CEntre c_area_em_mf (sql_of_float (f_area_mf_min f))
                     (sql_of_float (f_area_mf_max f)))
    = "area_em_mf BETWEEN ? AND ?" /\
    exists total pagina todos,
      run_count b (TBL b) (monta_where up (HAS_ENRICH b) f) = Ok total /\
      run_query b (TBL b) (consulta_pagina up (HAS_ENRICH b) f) = Ok pagina /\
      run_query b (TBL b) (consulta_todos up (HAS_ENRICH b) f) = Ok todos /\
      (forall l, In l pagina \/ In l todos ->
         exists e, l = LEnr e /\ In e es /\
           f64_is_nan (area_em_mf e) = false /\
           f64_leb (f_area_mf_min f) (area_em_mf e) = true /\
           f64_leb (area_em_mf e) (f_area_mf_max f) = true) /\
      (forall im ref, enriquecer im ref = Ok es ->
         (forall l e, In l pagina \/ In l todos -> l = LEnr e ->
                      classe_tamanho e <> SEM_MF) /\
         (f_classe f = SEM_MF -> total = 0 /\ pagina = [] /\ todos = [])).
Proof.
  intros up f b es Hes.
  destruct (TBL_cases b) as [[es' [Hes' [Et [Eh E]]]] | [En _]]; [ | congruence].
  rewrite Hes in Hes'. injection Hes' as <-.
  rewrite (run_count_ok up b f _ E), (run_query_pagina_ok up b f _ E),
    (run_query_todos_ok up b f _ E).
  rewrite Eh.
  split; [reflexivity | ]. split; [apply monta_where_faixa_mf | ].
  split; [reflexivity | ].
  do 3 eexists. do 3 (split; [reflexivity | ]).
  set (ws := monta_where up true f).
  assert (Hfaixa : forall l, In l (filter (passa ws) (map LEnr es)) ->
            exists e, l = LEnr e /\ In e es /\
              f64_is_nan (area_em_mf e) = false /\
              f64_leb (f_area_mf_min f) (area_em_mf e) = true /\
              f64_leb (area_em_mf e) (f_area_mf_max f) = true).
  { intros l Hl. apply filter_In in Hl. destruct Hl as [Hl Hp].
    apply in_map_iff in Hl. destruct Hl as [e [<- He]].
    exists e. split; [reflexivity | ]. split; [exact He | ].
    destruct (monta_where_faixa_mf up f) as [ws0 Hws].
    assert (Hin : In (CEntre c_area_em_mf (sql_of_float (f_area_mf_min f))
                             (sql_of_float (f_area_mf_max f))) ws).
    { unfold ws. rewrite Hws. apply in_or_app. right. now left. }
    pose proof (passa_In ws _ _ Hin Hp) as Hb.
    cbn [eval_cond valor] in Hb. now apply sql_between_float in Hb. }
  assert (Hres : forall l,
            In l (limita (Some (f_page_size f, (f_page f - 1) * f_page_size f))
                    (ordena (ordem true) (filter (passa ws) (map LEnr es))))
            \/ In l (ordena (ordem true) (filter (passa ws) (map LEnr es))) ->
            In l (filter (passa ws) (map LEnr es))).
  { intros l [H | H]; [apply In_limita in H | ]; now apply In_ordena in H. }
  split.
  - intros l Hl. apply Hfaixa, Hres, Hl.
  - intros im ref Hjob.
    assert (Hclasse : forall l e, In l (filter (passa ws) (map LEnr es)) ->
              l = LEnr e -> classe_tamanho e <> SEM_MF).
    { intros l e Hl ->. destruct (Hfaixa _ Hl) as [e' [[= <-] [He [Hn _]]]].
      rewrite (linha_enriquecida_classe im ref es e Hjob He).
      intros Hc. apply classe_de_SEM_MF in Hc. congruence. }
    split.
    + intros l e Hl. apply Hclasse, Hres, Hl.
    + intros Hsel.
      assert (Hvazio : filter (passa ws) (map LEnr es) = []).
      { apply filter_nil. intros l Hin.
        destruct (passa ws l) eqn:Hp; [exfalso | reflexivity].
        assert (Hl : In l (filter (passa ws) (map LEnr es)))
          by (apply filter_In; now split).
        destruct (Hfaixa _ Hl) as [e [-> _]].
        apply (Hclasse (LEnr e) e Hl eq_refl).
        assert (Hne : String.eqb (f_classe f) "Todas" = false)
          by (rewrite Hsel; reflexivity).
        pose proof (passa_In ws _ _ (monta_where_classe up f Hne) Hp) as Hb.
        cbn [eval_cond valor] in Hb.
        assert (Hv : verdadeiro (sql_eq (sql_of_texto (Some (classe_tamanho e)))
                                        (SText (f_classe f))) = true)
          by (cbn [sql_of_texto]; now rewrite Hb).
        rewrite sql_eq_texto in Hv. apply texto_eqb_eq in Hv.
        injection Hv as ->. exact Hsel. }
      rewrite Hvazio. cbn [ordena]. rewrite limita_nil. repeat split; reflexivity.
Qed.

Lemma sem_mf_nunca_aparece_witness :
  exists total pagina todos,
    run_count banco_enriquecido_exemplo (TBL banco_enriquecido_exemplo)
      (monta_where upper_id (HAS_ENRICH banco_enriquecido_exemplo) filtros_padrao)
    = Ok total /\
    run_query banco_enriquecido_exemplo (TBL banco_enriquecido_exemplo)
      (consulta_pagina upper_id (HAS_ENRICH banco_enriquecido_exemplo) filtros_padrao)
    = Ok pagina /\
    run_query banco_enriquecido_exemplo (TBL banco_enriquecido_exemplo)
      (consulta_todos upper_id (HAS_ENRICH banco_enriquecido_exemplo) filtros_padrao)
    = Ok todos /\
    forall l, In l pagina \/ In l todos ->
      exists e, l = LEnr e /\
        In e (map linha_enriquecida
                (merge_left [campinas_50; itu_100; jundiai_120] referencia_exemplo)) /\
        f64_is_nan (area_em_mf e) = false.
Proof.
  destruct (sem_mf_nunca_aparece upper_id filtros_padrao banco_enriquecido_exemplo
              (map linha_enriquecida
                 (merge_left [campinas_50; itu_100; jundiai_120] referencia_exemplo))
              eq_refl)
    as [_ [_ [_ [total [pagina [todos [H1 [H2 [H3 [H4 _]]]]]]]]]].
  exists total, pagina, todos. repeat apply conj; try assumption.
  intros l Hl. destruct (H4 l Hl) as [e [He1 [He2 [He3 _]]]]. eauto.
Defined.

(** *** Examples *)

(** The WHERE clause and the parameters of the default filters. *)
Example where_padrao :
  where_sql (monta_where upper_id true filtros_padrao)
  = "WHERE uf = ? AND area_total_ha BETWEEN ? AND ? AND percentual_detencao >= ? AND area_em_mf BETWEEN ? AND ?"
  /\ params (monta_where upper_id true filtros_padrao)
     = [SText "SP"; SReal (f64_of_Z 0); SReal (f64_of_Z 200); SReal (f64_of_Z 0);
        SReal (f64_of_Z 0); SReal (f64_of_Z 10)]
  /\ where_sql (monta_where upper_id false filtros_padrao)
     = "WHERE uf = ? AND area_total_ha BETWEEN ? AND ? AND percentual_detencao >= ?".
Proof. repeat apply conj; vm_compute; reflexivity. Qed.

(** The enriched table of the example holds a row of class "Sem MF", the
    one of Itu, and selecting that class finds nothing. *)
Example sem_mf_selecionada :
  In (mk_enr itu_100 nan nan SEM_MF)
     (map linha_enriquecida
        (merge_left [campinas_50; itu_100; jundiai_120] referencia_exemplo))
  /\ run_count banco_enriquecido_exemplo (TBL banco_enriquecido_exemplo)
       (monta_where upper_id (HAS_ENRICH banco_enriquecido_exemplo) filtros_sem_mf)
     = Ok 0
  /\ run_query banco_enriquecido_exemplo (TBL banco_enriquecido_exemplo)
       (consulta_todos upper_id (HAS_ENRICH banco_enriquecido_exemplo) filtros_sem_mf)
     = Ok [].
Proof.
  repeat apply conj; try (vm_compute; reflexivity).
  right. left. vm_compute. reflexivity.
Qed.

(** The spec's example of a matched municipality, through the whole job. *)
Example campinas_enriquecido :
  enriquecer [campinas_50] [mk_ref (Some "CAMPINAS") (Numero (f64_of_Z 20))]
  = Ok [ {| base := campinas_50;
            mf_ha := f64_of_Z 20;
            area_em_mf := binary_normalize prec emax 5 (-1) false;
            classe_tamanho := PEQUENA |} ].
Proof. vm_compute. reflexivity. Qed.

(** Search by a fragment of the holder's name, in lower case in the
    pattern: LIKE ignores the case of ASCII letters. *)
Example busca_titular :
  like_lista (list_ascii_of_string "%fulan%") (list_ascii_of_string "FULANO") = true
  /\ like_lista (list_ascii_of_string "F_LANO") (list_ascii_of_string "FULANO") = true
  /\ like_lista (list_ascii_of_string "%BELTR%") (list_ascii_of_string "FULANO") = false.
Proof. repeat apply conj; vm_compute; reflexivity. Qed.

(** Formatting in the Brazilian convention. *)
Example formatos :
  fmt_int (UmInt 1234567) = Ok "1.234.567"
  /\ fmt_float (PyFloat (f64_div (f64_of_Z 1234567891) (f64_of_Z 1000))) 1
     = Ok "1.234.567,9"
  /\ fmt_float (PyFloat (f64_div (f64_of_Z 5) (f64_of_Z 2))) 2 = Ok "2,50"
  /\ fmt_float (PyInt 1234) 0 = Ok "1.234"
  /\ fmt_float PyNone 1 = Ok "-"
  /\ fmt_float (PyFloat nan) 1 = Ok "-".
Proof. repeat apply conj; vm_compute; reflexivity. Qed.

(** ** Further properties of the enrichment job *)

Lemma texto_eqb_true_iff (a b : texto) : texto_eqb a b = true <-> a = b.
Proof.
  destruct a as [x | ], b as [y | ]; cbn; try (split; congruence).
  rewrite String.eqb_eq. split; congruence.
Qed.

Lemma chave_unica_geral {A : Type} (chave : A -> texto) (k : texto) (l : list A) :
  NoDup (map chave l) ->
  (List.length (filter (fun x => texto_eqb k (chave x)) l) <= 1)%nat.
Proof.
  induction l as [ | a l IH]; cbn [map filter]; intros Hn; [cbn; lia | ].
  apply NoDup_cons_iff in Hn. destruct Hn as [Hnotin Hn].
  destruct (texto_eqb k (chave a)) eqn:E; [ | now apply IH].
  apply texto_eqb_true_iff in E.
  rewrite filter_nil; [cbn; lia | ].
  intros x Hx. destruct (texto_eqb k (chave x)) eqn:Ex; [ | reflexivity].
  apply texto_eqb_true_iff in Ex. exfalso. apply Hnotin.
  rewrite <- E, Ex. now apply in_map.
Qed.

Lemma merge_left_cons (r : imovel) (im : list imovel) (ref : list ref_row) :
  merge_left (r :: im) ref
  = (match filter (fun q => texto_eqb (municipio_norm r) (ref_municipio_norm q)) ref with
     | [] => [(r, Vazia)]
     | q :: ms => map (fun q => (r, ref_mf_ha q)) (q :: ms)
     end ++ merge_left im ref)%list.
Proof. reflexivity. Qed.

Lemma map_base_linha_enriquecida (r : imovel) (cs : list celula) :
  map base (map linha_enriquecida (map (fun c => (r, c)) cs))
  = repeat r (List.length cs).
Proof.
  induction cs as [ | c cs IH]; cbn; [reflexivity | now rewrite <- IH].
Qed.

(** The left join keeps every property and invents none: in the enriched
    table each property of the base table appears, in base order, once per
    reference row that has its key, and once when no reference row has it. *)
Theorem enriquecer_linhas_por_imovel :
  forall (im : list imovel) (ref : list ref_row),
  exists df,
    enriquecer im ref = Ok df /\
    map base df
    = flat_map
        (fun r =>
           repeat r
             (Nat.max 1
                (List.length
                   (filter (fun q => texto_eqb (municipio_norm r) (ref_municipio_norm q))
                           ref))))
        im /\
    (forall r, In r im <-> exists e, In e df /\ base e = r).
Proof.
  intros im ref. exists (map linha_enriquecida (merge_left im ref)).
  split; [apply enriquecer_ok | ].
  assert (Hmap : map base (map linha_enriquecida (merge_left im ref))
                 = flat_map
                     (fun r =>
                        repeat r
                          (Nat.max 1
                             (List.length
                                (filter (fun q => texto_eqb (municipio_norm r)
                                                            (ref_municipio_norm q))
                                        ref))))
                     im).
  { induction im as [ | r im IH]; [reflexivity | ].
    rewrite merge_left_cons. rewrite !map_app, IH. cbn [flat_map]. f_equal.
    destruct (filter _ ref) as [ | q ms]; [reflexivity | ].
    rewrite <- (map_map ref_mf_ha (fun c => (r, c))).
    rewrite map_base_linha_enriquecida, length_map.
    reflexivity. }
  split; [exact Hmap | ].
  intros r. split.
  - intros Hr.
    assert (H : In r (map base (map linha_enriquecida (merge_left im ref)))).
    { rewrite Hmap. apply in_flat_map. exists r. split; [exact Hr | ].
      destruct (Nat.max_spec 1 (List.length
                  (filter (fun q => texto_eqb (municipio_norm r) (ref_municipio_norm q)) ref)))
        as [[Hlt ->] | [_ ->]].
      - destruct (filter _ ref); cbn in *; [lia | now left].
      - now left. }
    apply in_map_iff in H. destruct H as [e [He1 He2]]. now exists e.
  - intros [e [He Hb]].
    assert (H : In r (map base (map linha_enriquecida (merge_left im ref))))
      by (rewrite <- Hb; now apply in_map).
    rewrite Hmap in H. apply in_flat_map in H. destruct H as [r' [Hr' Hin]].
    apply repeat_spec in Hin. now subst.
Qed.

(** With pairwise distinct keys in the reference (the many-to-one join the
    job expects) the enriched table has exactly the properties of the base
    table, one row each, in the same order. *)
Theorem enriquecer_um_para_um :
  forall (im : list imovel) (ref : list ref_row),
    NoDup (map ref_municipio_norm ref) ->
    exists df, enriquecer im ref = Ok df /\ map base df = im.
Proof.
  intros im ref Hn. exists (map linha_enriquecida (merge_left im ref)).
  split; [apply enriquecer_ok | ].
  induction im as [ | r im IH]; [reflexivity | ].
  rewrite merge_left_cons, !map_app, IH.
  pose proof (chave_unica_geral ref_municipio_norm (municipio_norm r) ref Hn) as Hle.
  destruct (filter _ ref) as [ | q [ | q' ms]]; cbn in Hle; try lia; reflexivity.
Qed.

Lemma enriquecer_um_para_um_witness :
  exists df,
    enriquecer [campinas_50; itu_100; jundiai_120] referencia_exemplo = Ok df /\
    map base df = [campinas_50; itu_100; jundiai_120].
Proof.
  apply (enriquecer_um_para_um [campinas_50; itu_100; jundiai_120] referencia_exemplo).
  repeat constructor; cbn; intuition discriminate.
Defined.

(** A reference key that occurs twice doubles the properties of that
    municipality. *)
Example chave_repetida_duplica :
  exists df,
    enriquecer [campinas_50]
      [mk_ref (Some "CAMPINAS") (Numero (f64_of_Z 20));
       mk_ref (Some "CAMPINAS") (Numero (f64_of_Z 10))] = Ok df
    /\ map base df = [campinas_50; campinas_50]
    /\ map classe_tamanho df = [PEQUENA; MEDIA].
Proof. eexists. repeat apply conj; vm_compute; reflexivity. Qed.

(** With distinct reference keys, every enriched row of a property whose
    municipality has a reference row carries that row's module size, as
    [to_numeric] reads it, and the quotient by it; and there is such a row. *)
Theorem enriquecer_usa_referencia :
  forall (im : list imovel) (ref : list ref_row) (r : imovel) (q : ref_row),
    NoDup (map ref_municipio_norm ref) ->
    In r im -> In q ref ->
    municipio_norm r = ref_municipio_norm q ->
    exists df,
      enriquecer im ref = Ok df /\
      In (linha_enriquecida (r, ref_mf_ha q)) df /\
      forall e, In e df -> base e = r ->
        mf_ha e = to_numeric_coerce (ref_mf_ha q) /\
        area_em_mf e = f64_div (area_total_ha r) (to_numeric_coerce (ref_mf_ha q)) /\
        classificar_por_mf (Some (area_em_mf e)) = Ok (classe_tamanho e).
Proof.
  intros im ref r q Hn Hr Hq Hk.
  exists (map linha_enriquecida (merge_left im ref)).
  split; [apply enriquecer_ok | ].
  assert (Hf : filter (fun q' => texto_eqb (municipio_norm r) (ref_municipio_norm q')) ref
               = [q]).
  { pose proof (chave_unica_geral ref_municipio_norm (municipio_norm r) ref Hn) as Hle.
    assert (Hin : In q (filter (fun q' => texto_eqb (municipio_norm r)
                                                    (ref_municipio_norm q')) ref)).
    { apply filter_In. split; [exact Hq | now apply texto_eqb_true_iff]. }
    destruct (filter _ ref) as [ | q0 [ | q1 ms]]; cbn in Hle; try lia.
    - destruct Hin.
    - destruct Hin as [-> | []]. reflexivity. }
  split.
  - apply in_map. unfold merge_left. apply in_flat_map. exists r.
    split; [exact Hr | ]. rewrite Hf. now left.
  - intros e He Hb. apply in_map_iff in He. destruct He as [[r' c] [<- Hrc]].
    cbn in Hb. subst r'.
    apply merge_left_fst in Hrc. cbn [fst snd] in Hrc.
    destruct Hrc as [_ [[_ Hnil] | [q' [Hq' [Hk' Hc]]]]].
    + rewrite Hf in Hnil. discriminate.
    + assert (Hin : In q' (filter (fun q' => texto_eqb (municipio_norm r)
                                                       (ref_municipio_norm q')) ref))
        by (apply filter_In; now split).
      rewrite Hf in Hin. destruct Hin as [<- | []]. subst c.
      unfold linha_enriquecida. cbn [fst snd mf_ha area_em_mf classe_tamanho base].
      repeat apply conj; try reflexivity. apply classificar_por_mf_Some.
Qed.

Lemma enriquecer_usa_referencia_witness :
  exists df,
    enriquecer [campinas_50; itu_100; jundiai_120] referencia_exemplo = Ok df /\
    In (linha_enriquecida (jundiai_120, Numero (f64_of_Z 12))) df /\
    forall e, In e df -> base e = jundiai_120 ->
      mf_ha e = to_numeric_coerce (Numero (f64_of_Z 12)) /\
      area_em_mf e
      = f64_div (area_total_ha jundiai_120) (to_numeric_coerce (Numero (f64_of_Z 12))) /\
      classificar_por_mf (Some (area_em_mf e)) = Ok (classe_tamanho e).
Proof.
  apply (enriquecer_usa_referencia [campinas_50; itu_100; jundiai_120] referencia_exemplo
           jundiai_120 (mk_ref (Some "JUNDIAI") (Numero (f64_of_Z 12)))).
  - repeat constructor; cbn; intuition discriminate.
  - cbn. auto.
  - cbn. auto.
  - reflexivity.
Defined.






(** *** Order of the classes *)

Lemma SFleb_trans (x y z : float64) :
  SFleb x y = true -> SFleb y z = true -> SFleb x z = true.
Proof.
  unfold SFleb.
  destruct x as [sx | sx | | sx mx ex], y as [sy | sy | | sy my ey],
           z as [sz | sz | | sz mz ez];
    cbn [SFcompare]; try discriminate; try reflexivity;
    try (destruct sx; try discriminate; try reflexivity;
         destruct sy; try discriminate; try reflexivity;
         destruct sz; try discriminate; reflexivity);
    try (destruct sx; try discriminate; try reflexivity;
         destruct sz; try discriminate; reflexivity);
    try (destruct sy; try discriminate; try reflexivity;
         destruct sz; try discriminate; reflexivity);
    try (destruct sx; try discriminate; try reflexivity;
         destruct sy; try discriminate; reflexivity).
  all: change (Pos.compare_cont Eq mx my) with (Pos.compare mx my);
       change (Pos.compare_cont Eq my mz) with (Pos.compare my mz);
       change (Pos.compare_cont Eq mx mz) with (Pos.compare mx mz).
  all: destruct sx, sy, sz; try discriminate; try reflexivity.
  all: destruct (Z.compare_spec ex ey), (Z.compare_spec ey ez),
                (Z.compare_spec ex ez); subst;
       try discriminate; try reflexivity; try lia.
  all: destruct (Pos.compare_spec mx my), (Pos.compare_spec my mz),
                (Pos.compare_spec mx mz); subst;
       cbn; try discriminate; try reflexivity; try lia.
Qed.

Lemma f64_leb_trans (x y z : float64) :
  f64_leb x y = true -> f64_leb y z = true -> f64_leb x z = true.
Proof. apply SFleb_trans. Qed.

Lemma f64_leb_not_nan_r (x y : float64) :
  f64_leb x y = true -> f64_is_nan y = false.
Proof. destruct y; try reflexivity. destruct x; discriminate. Qed.

(** The class never goes down when area-in-modules goes up: below a value
    classified "Pequena" everything is "Pequena", above a value classified
    "Grande" everything is "Grande", and above a "Média" nothing is
    "Pequena". Nothing checks the sign: every value up to zero, negative
    values and minus infinity included, is "Pequena". *)
Theorem classificar_por_mf_monotona :
  forall a b : float64,
    f64_leb a b = true ->
    (classificar_por_mf (Some b) = Ok PEQUENA ->
     classificar_por_mf (Some a) = Ok PEQUENA) /\
    (classificar_por_mf (Some a) = Ok GRANDE ->
     classificar_por_mf (Some b) = Ok GRANDE) /\
    (classificar_por_mf (Some a) = Ok MEDIA ->
     classificar_por_mf (Some b) = Ok MEDIA \/
     classificar_por_mf (Some b) = Ok GRANDE) /\
    (f64_leb b (f64_of_Z 0) = true ->
     classificar_por_mf (Some a) = Ok PEQUENA).
Proof.
  intros a b Hab.
  rewrite !classificar_por_mf_Some. unfold classe_de.
  rewrite (f64_leb_not_nan _ _ Hab), (f64_leb_not_nan_r _ _ Hab).
  pose proof (f64_leb_trans a b (f64_of_Z 4) Hab) as H4.
  pose proof (f64_leb_trans a b (f64_of_Z 15) Hab) as H15.
  assert (H0 : f64_leb b (f64_of_Z 0) = true -> f64_leb a (f64_of_Z 4) = true).
  { intros Hb0. apply (f64_leb_trans a b _ Hab).
    apply (f64_leb_trans b (f64_of_Z 0) _ Hb0). vm_compute. reflexivity. }
  destruct (f64_leb a (f64_of_Z 4)), (f64_leb a (f64_of_Z 15)),
           (f64_leb b (f64_of_Z 4)), (f64_leb b (f64_of_Z 15));
    repeat apply conj; intros; try reflexivity; try discriminate; auto;
    try (specialize (H4 eq_refl); discriminate);
    try (specialize (H15 eq_refl); discriminate);
    try (specialize (H0 ltac:(assumption)); discriminate).
Qed.

Lemma classificar_por_mf_monotona_witness :
  (classificar_por_mf (Some (f64_of_Z 10)) = Ok PEQUENA ->
   classificar_por_mf (Some (f64_of_Z (-3))) = Ok PEQUENA) /\
  (classificar_por_mf (Some (f64_of_Z (-3))) = Ok GRANDE ->
   classificar_por_mf (Some (f64_of_Z 10)) = Ok GRANDE) /\
  (classificar_por_mf (Some (f64_of_Z (-3))) = Ok MEDIA ->
   classificar_por_mf (Some (f64_of_Z 10)) = Ok MEDIA \/
   classificar_por_mf (Some (f64_of_Z 10)) = Ok GRANDE) /\
  (f64_leb (f64_of_Z 10) (f64_of_Z 0) = true ->
   classificar_por_mf (Some (f64_of_Z (-3))) = Ok PEQUENA).
Proof.
  apply (classificar_por_mf_monotona (f64_of_Z (-3)) (f64_of_Z 10)).
  vm_compute. reflexivity.
Defined.

(** *** From the job to the dashboard *)




(** ** Further properties of the prospection queries *)

Lemma insere_Permutation (cs : list coluna) (x : linha) (l : list linha) :
  Permutation (insere cs x l) (x :: l).
Proof.
  induction l as [ | y l IH]; cbn [insere]; [reflexivity | ].
  destruct (vem_antes cs x y); [reflexivity | ].
  rewrite IH. apply perm_swap.
Qed.

Lemma ordena_Permutation (cs : list coluna) (l : list linha) :
  Permutation (ordena cs l) l.
Proof.
  induction l as [ | x l IH]; cbn [ordena]; [reflexivity | ].
  rewrite insere_Permutation. now constructor.
Qed.

Lemma sql_ge_float (x v : float64) :
  sql_ge (sql_of_float x) (sql_of_float v) = Some true ->
  f64_is_nan x = false /\ f64_leb v x = true.
Proof.
  unfold sql_ge, sql_cmp, sql_of_float.
  destruct (f64_is_nan x) eqn:Nx; [discriminate | ].
  destruct (f64_is_nan v) eqn:Nv; [discriminate | ].
  cbn [sql_ordem]. unfold f64_leb, SFleb.
  rewrite (SFcompare_antisym x v).
  destruct (SFcompare_Some x v Nx Nv) as [c ->].
  destruct c; cbn; intros H; try discriminate; auto.
Qed.

Lemma sql_eq_texto_true (t : texto) (c : string) :
  sql_eq (sql_of_texto t) (SText c) = Some true -> t = Some c.
Proof.
  intros H. apply texto_eqb_eq. rewrite <- sql_eq_texto. now rewrite H.
Qed.

(** The full export holds exactly the rows of the table in use that pass
    every condition of the WHERE clause, each as often as it is in the
    table; sorting drops and repeats nothing. The total shown by the count
    query is the number of rows of that export. *)
Theorem exporta_as_linhas_que_passam :
  forall (up : string -> string) (b : banco) (f : filtros),
    tem_tabela b ->
    exists rows total todos,
      linhas_da_tabela b (TBL b) = Ok rows /\
      run_count b (TBL b) (monta_where up (HAS_ENRICH b) f) = Ok total /\
      run_query b (TBL b) (consulta_todos up (HAS_ENRICH b) f) = Ok todos /\
      Permutation todos (filter (passa (monta_where up (HAS_ENRICH b) f)) rows) /\
      total = Z.of_nat (List.length todos) /\
      (forall l, In l todos <->
                 In l rows /\ passa (monta_where up (HAS_ENRICH b) f) l = true).
Proof.
  intros up b f Ht.
  destruct (linhas_da_tabela_ok b Ht) as [rows E].
  exists rows. rewrite (run_count_ok up b f rows E), (run_query_todos_ok up b f rows E).
  do 2 eexists. split; [exact E | ]. do 2 (split; [reflexivity | ]).
  repeat apply conj.
  - apply ordena_Permutation.
  - now rewrite (Permutation_length (ordena_Permutation _ _)).
  - intros l. rewrite In_ordena. apply filter_In.
Qed.

Lemma exporta_as_linhas_que_passam_witness :
  exists rows total todos,
    linhas_da_tabela banco_enriquecido_exemplo (TBL banco_enriquecido_exemplo) = Ok rows /\
    run_count banco_enriquecido_exemplo (TBL banco_enriquecido_exemplo)
      (monta_where upper_id (HAS_ENRICH banco_enriquecido_exemplo) filtros_padrao)
    = Ok total /\
    run_query banco_enriquecido_exemplo (TBL banco_enriquecido_exemplo)
      (consulta_todos upper_id (HAS_ENRICH banco_enriquecido_exemplo) filtros_padrao)
    = Ok todos /\
    Permutation todos
      (filter (passa (monta_where upper_id (HAS_ENRICH banco_enriquecido_exemplo)
                        filtros_padrao)) rows) /\
    total = Z.of_nat (List.length todos) /\
    (forall l, In l todos <->
       In l rows /\
       passa (monta_where upper_id (HAS_ENRICH banco_enriquecido_exemplo)
                filtros_padrao) l = true).
Proof.
  apply (exporta_as_linhas_que_passam upper_id banco_enriquecido_exemplo filtros_padrao).
  left. discriminate.
Defined.

Lemma monta_where_fixas (up : string -> string) (he : bool) (f : filtros) :
  In (CIgual c_uf (SText "SP")) (monta_where up he f) /\
  In (CEntre c_area_total_ha (sql_of_float (f_area_min f)) (sql_of_float (f_area_max f)))
     (monta_where up he f) /\
  In (CMaiorIgual c_percentual_detencao (sql_of_float (f_pct_min f)))
     (monta_where up he f).
Proof.
  unfold monta_where. repeat apply conj; apply in_or_app; left; cbn; auto.
Qed.

Lemma monta_where_municipio (up : string -> string) (he : bool) (f : filtros) :
  String.eqb (f_municipio f) "Todos" = false ->
  In (CIgual c_municipio (SText (f_municipio f))) (monta_where up he f).
Proof.
  intros H. unfold monta_where. rewrite H. cbn [negb quando].
  rewrite !in_app_iff. right. left. now left.
Qed.

Lemma monta_where_condicao (up : string -> string) (he : bool) (f : filtros) :
  String.eqb (f_condicao f) "Todas" = false ->
  In (CIgual c_condicao_pessoa (SText (f_condicao f))) (monta_where up he f).
Proof.
  intros H. unfold monta_where. rewrite H. cbn [negb quando].
  rewrite !in_app_iff. right. right. left. now left.
Qed.

(** What a row shown by the prospection tab (page or full export) is sure
    to satisfy: it is in SP, its total area is not null and lies within the
    chosen range, its holding percentage is not null and at least the
    minimum, and when a municipality or a person condition other than
    "Todos"/"Todas" is chosen the row has exactly that value. Rows with a
    NULL in one of these columns are never shown. *)
Theorem linhas_mostradas_satisfazem_filtros :
  forall (up : string -> string) (b : banco) (f : filtros),
    tem_tabela b ->
    exists pagina todos,
      run_query b (TBL b) (consulta_pagina up (HAS_ENRICH b) f) = Ok pagina /\
      run_query b (TBL b) (consulta_todos up (HAS_ENRICH b) f) = Ok todos /\
      forall l, In l pagina \/ In l todos ->
        let r := imovel_de l in
        uf r = Some "SP" /\
        f64_is_nan (area_total_ha r) = false /\
        f64_leb (f_area_min f) (area_total_ha r) = true /\
        f64_leb (area_total_ha r) (f_area_max f) = true /\
        f64_is_nan (percentual_detencao r) = false /\
        f64_leb (f_pct_min f) (percentual_detencao r) = true /\
        (f_municipio f <> "Todos" -> municipio r = Some (f_municipio f)) /\
        (f_condicao f <> "Todas" -> condicao_pessoa r = Some (f_condicao f)).
Proof.
  intros up b f Ht.
  destruct (linhas_da_tabela_ok b Ht) as [rows E].
  rewrite (run_query_pagina_ok up b f rows E), (run_query_todos_ok up b f rows E).
  do 2 eexists. do 2 (split; [reflexivity | ]).
  intros l Hl.
  assert (Hp : passa (monta_where up (HAS_ENRICH b) f) l = true).
  { destruct Hl as [Hl | Hl]; [apply In_limita in Hl | ];
      apply In_ordena in Hl; apply filter_In in Hl; tauto. }
  clear Hl. cbv zeta.
  destruct (monta_where_fixas up (HAS_ENRICH b) f) as [Huf [Harea Hpct]].
  pose proof (passa_In _ _ _ Huf Hp) as H1.
  pose proof (passa_In _ _ _ Harea Hp) as H2.
  pose proof (passa_In _ _ _ Hpct Hp) as H3.
  cbn [eval_cond valor] in H1, H2, H3.
  apply sql_eq_texto_true in H1.
  apply sql_between_float in H2. destruct H2 as [H2a [H2b H2c]].
  apply sql_ge_float in H3. destruct H3 as [H3a H3b].
  repeat apply conj; try assumption.
  - intros Hm. apply String.eqb_neq in Hm.
    pose proof (passa_In _ _ _ (monta_where_municipio up (HAS_ENRICH b) f Hm) Hp) as H4.
    cbn [eval_cond valor] in H4. now apply sql_eq_texto_true in H4.
  - intros Hc. apply String.eqb_neq in Hc.
    pose proof (passa_In _ _ _ (monta_where_condicao up (HAS_ENRICH b) f Hc) Hp) as H5.
    cbn [eval_cond valor] in H5. now apply sql_eq_texto_true in H5.
Qed.

Lemma linhas_mostradas_satisfazem_filtros_witness :
  exists pagina todos,
    run_query banco_enriquecido_exemplo (TBL banco_enriquecido_exemplo)
      (consulta_pagina upper_id (HAS_ENRICH banco_enriquecido_exemplo) filtros_padrao)
    = Ok pagina /\
    run_query banco_enriquecido_exemplo (TBL banco_enriquecido_exemplo)
      (consulta_todos upper_id (HAS_ENRICH banco_enriquecido_exemplo) filtros_padrao)
    = Ok todos /\
    forall l, In l pagina \/ In l todos ->
      let r := imovel_de l in
      uf r = Some "SP" /\
      f64_is_nan (area_total_ha r) = false /\
      f64_leb (f_area_min filtros_padrao) (area_total_ha r) = true /\
      f64_leb (area_total_ha r) (f_area_max filtros_padrao) = true /\
      f64_is_nan (percentual_detencao r) = false /\
      f64_leb (f_pct_min filtros_padrao) (percentual_detencao r) = true /\
      (f_municipio filtros_padrao <> "Todos" ->
       municipio r = Some (f_municipio filtros_padrao)) /\
      (f_condicao filtros_padrao <> "Todas" ->
       condicao_pessoa r = Some (f_condicao filtros_padrao)).
Proof.
  apply (linhas_mostradas_satisfazem_filtros upper_id banco_enriquecido_exemplo
           filtros_padrao).
  left. discriminate.
Defined.

(** *** Pages *)

Lemma firstn_add_skipn {A : Type} (a c : nat) (l : list A) :
  firstn (a + c) l = (firstn a l ++ firstn c (skipn a l))%list.
Proof.
  revert l. induction a as [ | a IH]; intros l; [reflexivity | ].
  destruct l as [ | x l]; cbn [plus firstn skipn app].
  - now rewrite firstn_nil.
  - now rewrite IH.
Qed.

Lemma concat_fatias {A : Type} (P n : nat) (l : list A) :
  List.concat (map (fun p => firstn P (skipn ((p - 1) * P) l)) (seq 1 n))
  = firstn (n * P) l.
Proof.
  induction n as [ | n IH]; [reflexivity | ].
  rewrite seq_S, map_app, concat_app, IH. cbn [map List.concat].
  rewrite app_nil_r.
  replace (1 + n - 1)%nat with n by lia.
  replace (S n * P)%nat with (n * P + P)%nat by lia.
  symmetry. apply firstn_add_skipn.
Qed.

Lemma limita_fatia (P p : Z) (l : list linha) :
  0 < P -> 1 <= p ->
  limita (Some (P, (p - 1) * P)) l
  = firstn (Z.to_nat P) (skipn ((Z.to_nat p - 1) * Z.to_nat P) l).
Proof.
  intros HP Hp. cbn [limita].
  destruct (Z.ltb_spec P 0) as [Hneg | _]; [lia | ].
  rewrite Z2Nat.inj_mul by lia.
  replace (Z.to_nat (p - 1)) with (Z.to_nat p - 1)%nat by lia.
  reflexivity.
Qed.

(** Page [p] of size [P] is the slice of the full ordered result that
    starts at row [(p - 1) * P]: it has at most [P] rows, its i-th row is
    row [(p - 1) * P + i] of the full result, and a page past the end of the
    result (the count is at most [(p - 1) * P]) is empty, not an error. *)
Theorem pagina_e_fatia :
  forall (up : string -> string) (b : banco) (f : filtros) (p : Z),
    tem_tabela b -> 0 < f_page_size f -> 1 <= p ->
    exists total todos pagina,
      run_count b (TBL b) (monta_where up (HAS_ENRICH b) f) = Ok total /\
      run_query b (TBL b) (consulta_todos up (HAS_ENRICH b) f) = Ok todos /\
      run_query b (TBL b) (consulta_pagina up (HAS_ENRICH b) (na_pagina f p)) = Ok pagina /\
      pagina = firstn (Z.to_nat (f_page_size f))
                 (skipn ((Z.to_nat p - 1) * Z.to_nat (f_page_size f)) todos) /\
      (List.length pagina <= Z.to_nat (f_page_size f))%nat /\
      (forall i, (i < List.length pagina)%nat ->
         nth_error pagina i
         = nth_error todos ((Z.to_nat p - 1) * Z.to_nat (f_page_size f) + i)) /\
      (total <= (p - 1) * f_page_size f -> pagina = []).
Proof.
  intros up b f p Ht HP Hp.
  destruct (linhas_da_tabela_ok b Ht) as [rows E].
  rewrite (run_count_ok up b f rows E), (run_query_todos_ok up b f rows E),
    (run_query_pagina_ok up b (na_pagina f p) rows E).
  change (monta_where up (HAS_ENRICH b) (na_pagina f p))
    with (monta_where up (HAS_ENRICH b) f).
  cbn [na_pagina f_page_size f_page].
  set (todos := ordena (ordem (HAS_ENRICH b))
                  (filter (passa (monta_where up (HAS_ENRICH b) f)) rows)).
  rewrite (limita_fatia _ _ todos HP Hp).
  do 3 eexists. do 4 (split; [reflexivity | ]).
  repeat apply conj.
  - apply firstn_le_length.
  - intros i Hi. rewrite nth_error_firstn.
    rewrite length_firstn in Hi.
    destruct (Nat.ltb_spec i (Z.to_nat (f_page_size f))) as [_ | Hge]; [ | lia].
    apply nth_error_skipn.
  - intros Htot. rewrite skipn_all2; [apply firstn_nil | ].
    unfold todos. rewrite (Permutation_length (ordena_Permutation _ _)). nia.
Qed.

Lemma pagina_e_fatia_witness :
  exists total todos pagina,
    run_count banco_enriquecido_exemplo (TBL banco_enriquecido_exemplo)
      (monta_where upper_id (HAS_ENRICH banco_enriquecido_exemplo) filtros_padrao)
    = Ok total /\
    run_query banco_enriquecido_exemplo (TBL banco_enriquecido_exemplo)
      (consulta_todos upper_id (HAS_ENRICH banco_enriquecido_exemplo) filtros_padrao)
    = Ok todos /\
    run_query banco_enriquecido_exemplo (TBL banco_enriquecido_exemplo)
      (consulta_pagina upper_id (HAS_ENRICH banco_enriquecido_exemplo)
         (na_pagina filtros_padrao 2))
    = Ok pagina /\
    pagina = firstn (Z.to_nat (f_page_size filtros_padrao))
               (skipn ((Z.to_nat 2 - 1) * Z.to_nat (f_page_size filtros_padrao)) todos) /\
    (List.length pagina <= Z.to_nat (f_page_size filtros_padrao))%nat /\
    (forall i, (i < List.length pagina)%nat ->
       nth_error pagina i
       = nth_error todos ((Z.to_nat 2 - 1) * Z.to_nat (f_page_size filtros_padrao) + i)) /\
    (total <= (2 - 1) * f_page_size filtros_padrao -> pagina = []).
Proof.
  apply (pagina_e_fatia upper_id banco_enriquecido_exemplo filtros_padrao 2).
  - left. discriminate.
  - reflexivity.
  - discriminate.
Defined.

(** The pages 1 to [n], one after the other, are the first [n * P] rows of
    the full ordered result, without gap or overlap; once [n * P] reaches
    the number of rows they are the whole result, and their row counts add
    up to the total of the count query. *)
Theorem paginas_cobrem_resultado :
  forall (up : string -> string) (b : banco) (f : filtros) (n : nat),
    tem_tabela b -> 0 < f_page_size f ->
    exists total todos paginas,
      run_count b (TBL b) (monta_where up (HAS_ENRICH b) f) = Ok total /\
      run_query b (TBL b) (consulta_todos up (HAS_ENRICH b) f) = Ok todos /\
      mapM (fun p => run_query b (TBL b)
                       (consulta_pagina up (HAS_ENRICH b) (na_pagina f (Z.of_nat p))))
           (seq 1 n) = Ok paginas /\
      List.concat paginas = firstn (n * Z.to_nat (f_page_size f)) todos /\
      (total <= Z.of_nat n * f_page_size f ->
       List.concat paginas = todos /\
       Z.of_nat (list_sum (map (@List.length linha) paginas)) = total).
Proof.
  intros up b f n Ht HP.
  destruct (linhas_da_tabela_ok b Ht) as [rows E].
  rewrite (run_count_ok up b f rows E), (run_query_todos_ok up b f rows E).
  set (todos := ordena (ordem (HAS_ENRICH b))
                  (filter (passa (monta_where up (HAS_ENRICH b) f)) rows)).
  assert (Hlen : List.length todos
                 = List.length (filter (passa (monta_where up (HAS_ENRICH b) f)) rows))
    by apply (Permutation_length (ordena_Permutation _ _)).
  rewrite (mapM_pure _
             (fun p => limita (Some (f_page_size f, (Z.of_nat p - 1) * f_page_size f)) todos)).
  2:{ intros p. now rewrite (run_query_pagina_ok up b (na_pagina f (Z.of_nat p)) rows E). }
  assert (Hc : List.concat (map (fun p => limita (Some (f_page_size f,
                                                   (Z.of_nat p - 1) * f_page_size f)) todos)
                           (seq 1 n))
               = firstn (n * Z.to_nat (f_page_size f)) todos).
  { rewrite <- concat_fatias. f_equal. apply map_ext_in. intros p Hp.
    apply in_seq in Hp. rewrite limita_fatia by lia.
    now rewrite Nat2Z.id. }
  do 3 eexists. do 3 (split; [reflexivity | ]).
  split; [exact Hc | ].
  intros Htot.
  assert (Hall : List.concat (map (fun p => limita (Some (f_page_size f,
                                                     (Z.of_nat p - 1) * f_page_size f)) todos)
                             (seq 1 n)) = todos).
  { rewrite Hc. apply firstn_all2. rewrite Hlen. nia. }
  split; [exact Hall | ].
  rewrite <- length_concat, Hall, Hlen. reflexivity.
Qed.

Lemma paginas_cobrem_resultado_witness :
  exists total todos paginas,
    run_count banco_enriquecido_exemplo (TBL banco_enriquecido_exemplo)
      (monta_where upper_id (HAS_ENRICH banco_enriquecido_exemplo) filtros_padrao)
    = Ok total /\
    run_query banco_enriquecido_exemplo (TBL banco_enriquecido_exemplo)
      (consulta_todos upper_id (HAS_ENRICH banco_enriquecido_exemplo) filtros_padrao)
    = Ok todos /\
    mapM (fun p => run_query banco_enriquecido_exemplo (TBL banco_enriquecido_exemplo)
                     (consulta_pagina upper_id (HAS_ENRICH banco_enriquecido_exemplo)
                        (na_pagina filtros_padrao (Z.of_nat p))))
         (seq 1 3) = Ok paginas /\
    List.concat paginas = firstn (3 * Z.to_nat (f_page_size filtros_padrao)) todos /\
    (total <= Z.of_nat 3 * f_page_size filtros_padrao ->
     List.concat paginas = todos /\
     Z.of_nat (list_sum (map (@List.length linha) paginas)) = total).
Proof.
  apply (paginas_cobrem_resultado upper_id banco_enriquecido_exemplo filtros_padrao 3).
  - left. discriminate.
  - reflexivity.
Defined.

(** ** Further properties of the formatting helpers *)

Lemma list_ascii_of_string_app (a b : string) :
  list_ascii_of_string (a ++ b)
  = (list_ascii_of_string a ++ list_ascii_of_string b)%list.
Proof.
  induction a as [ | c a IH]; cbn; [reflexivity | now rewrite IH].
Qed.

Lemma string_of_list_ascii_app (a b : list ascii) :
  string_of_list_ascii (a ++ b) = string_of_list_ascii a ++ string_of_list_ascii b.
Proof.
  induction a as [ | c a IH]; cbn; [reflexivity | now rewrite IH].
Qed.

Lemma replace1_flat_map (old : ascii) (new s : string) :
  list_ascii_of_string (replace1 old new s)
  = flat_map (troca_char old (list_ascii_of_string new)) (list_ascii_of_string s).
Proof.
  induction s as [ | c s IH]; cbn [replace1 list_ascii_of_string flat_map];
    [reflexivity | ].
  unfold troca_char at 1. destruct (ascii_eqb c old).
  - now rewrite list_ascii_of_string_app, IH.
  - cbn. now rewrite IH.
Qed.

Lemma string_eq_lista (a b : string) :
  list_ascii_of_string a = list_ascii_of_string b -> a = b.
Proof.
  intros H. rewrite <- (string_of_list_ascii_of_string a),
              <- (string_of_list_ascii_of_string b). now rewrite H.
Qed.

(** Induction along the groups of three that [milhar_rev] makes. *)
Lemma milhar_rev_ind (P : list ascii -> Prop) :
  P [] -> (forall a, P [a]) -> (forall a b, P [a; b]) -> (forall a b c, P [a; b; c]) ->
  (forall a b c d r, P (d :: r) -> P (a :: b :: c :: d :: r)) ->
  forall l, P l.
Proof.
  intros H0 H1 H2 H3 H4 l.
  assert (H : forall n l, (List.length l <= n)%nat -> P l).
  { clear l. induction n as [ | n IH]; intros l Hl.
    - destruct l; [exact H0 | cbn in Hl; lia].
    - destruct l as [ | a [ | b [ | c [ | d r]]]]; auto.
      apply H4. apply IH. cbn in *. lia. }
  apply (H (List.length l)). lia.
Qed.

Lemma milhar_rev_filter (l : list ascii) :
  Forall (fun c => ascii_eqb c ","%char = false) l ->
  filter (fun c => negb (ascii_eqb c ","%char)) (milhar_rev l) = l.
Proof.
  induction l as [ | a | a b | a b c | a b c d r IH] using milhar_rev_ind; intros Hf.
  - reflexivity.
  - inversion Hf as [ | ? ? Ha _]; subst. cbn. now rewrite Ha.
  - inversion Hf as [ | ? ? Ha Hf1]; subst. inversion Hf1 as [ | ? ? Hb _]; subst.
    cbn. now rewrite Ha, Hb.
  - inversion Hf as [ | ? ? Ha Hf1]; subst. inversion Hf1 as [ | ? ? Hb Hf2]; subst.
    inversion Hf2 as [ | ? ? Hc _]; subst. cbn. now rewrite Ha, Hb, Hc.
  - inversion Hf as [ | ? ? Ha Hf1]; subst. inversion Hf1 as [ | ? ? Hb Hf2]; subst.
    inversion Hf2 as [ | ? ? Hc Hf3]; subst.
    change (milhar_rev (a :: b :: c :: d :: r))
      with (a :: b :: c :: ","%char :: milhar_rev (d :: r)).
    cbn [filter]. rewrite Ha, Hb, Hc. cbn [negb].
    change (ascii_eqb ","%char ","%char) with true. cbn [negb].
    now rewrite (IH Hf3).
Qed.

Lemma milhar_filter (l : list ascii) :
  Forall (fun c => ascii_eqb c ","%char = false) l ->
  filter (fun c => negb (ascii_eqb c ","%char)) (milhar l) = l.
Proof.
  intros Hf. unfold milhar. rewrite filter_rev, milhar_rev_filter.
  - apply rev_involutive.
  - apply Forall_rev. exact Hf.
Qed.

Lemma milhar_rev_In (x : ascii) (l : list ascii) :
  In x (milhar_rev l) -> x = ","%char \/ In x l.
Proof.
  induction l as [ | a | a b | a b c | a b c d r IH] using milhar_rev_ind;
    try (intros H; now right).
  change (milhar_rev (a :: b :: c :: d :: r))
    with (a :: b :: c :: ","%char :: milhar_rev (d :: r)).
  intros [<- | [<- | [<- | [<- | H]]]]; cbn [In]; auto.
  destruct (IH H) as [-> | Hin]; cbn [In] in *; intuition.
Qed.

Lemma milhar_In (x : ascii) (l : list ascii) :
  In x (milhar l) -> x = ","%char \/ In x l.
Proof.
  unfold milhar. rewrite <- in_rev. intros H. apply milhar_rev_In in H.
  destruct H as [-> | H]; [now left | right]. now apply in_rev.
Qed.

Lemma NilEmpty_digitos (d : Decimal.uint) :
  Forall (fun c => eh_digito c = true)
         (list_ascii_of_string (NilEmpty.string_of_uint d)).
Proof.
  induction d; cbn; constructor; auto.
Qed.

Lemma digitos_digitos (n : Z) :
  Forall (fun c => eh_digito c = true) (digitos n).
Proof.
  unfold digitos, NilZero.string_of_uint.
  destruct (N.to_uint (Z.to_N n)) eqn:E; try (rewrite <- E; apply NilEmpty_digitos).
  cbn. constructor; auto.
Qed.

Lemma digito_nao_separador (c : ascii) :
  eh_digito c = true ->
  ascii_eqb c ","%char = false /\ ascii_eqb c "."%char = false /\
  ascii_eqb c "X"%char = false /\ ascii_eqb c "-"%char = false.
Proof.
  intros H. unfold ascii_eqb.
  repeat apply conj; apply Ascii.eqb_neq; intros ->; discriminate.
Qed.

Lemma sinal_digitos (n : Z) :
  sinal (n <? 0) ++ string_of_list_ascii (digitos (Z.abs n))
  = NilZero.string_of_int (Z.to_int n).
Proof.
  unfold digitos. rewrite string_of_list_ascii_of_string.
  destruct n as [ | p | p]; reflexivity.
Qed.

(** [fmt_int] writes an [int] so that it can be read back: the result has
    no comma, and without its dots it is the decimal numeral of the number,
    which parses to the number. *)
Theorem fmt_int_sem_pontos :
  forall n : Z,
  exists s,
    fmt_int (UmInt n) = Ok s /\
    ~ In ","%char (list_ascii_of_string s) /\
    sem_pontos s = NilZero.string_of_int (Z.to_int n) /\
    option_map Z.of_int (NilZero.int_of_string (sem_pontos s)) = Some n.
Proof.
  intros n. eexists. split; [reflexivity | ].
  assert (Hd : Forall (fun c => ascii_eqb c ","%char = false) (digitos (Z.abs n))).
  { eapply Forall_impl; [ | apply digitos_digitos].
    intros c Hc. now apply digito_nao_separador in Hc. }
  assert (Hp : Forall (fun c => ascii_eqb c "."%char = false) (digitos (Z.abs n))).
  { eapply Forall_impl; [ | apply digitos_digitos].
    intros c Hc. now apply digito_nao_separador in Hc. }
  assert (Hs : sem_pontos (replace1 ","%char "." (format_int_comma n))
               = NilZero.string_of_int (Z.to_int n)).
  { rewrite <- sinal_digitos. unfold sem_pontos.
    rewrite replace1_flat_map. unfold format_int_comma.
    rewrite list_ascii_of_string_app, list_ascii_of_string_of_list_ascii.
    rewrite flat_map_app, filter_app, string_of_list_ascii_app. f_equal.
    - now destruct (n <? 0).
    - f_equal.
      rewrite <- (milhar_filter (digitos (Z.abs n)) Hd) at 2.
      assert (Hm : Forall (fun c => ascii_eqb c "."%char = false)
                          (milhar (digitos (Z.abs n)))).
      { apply Forall_forall. intros c Hc. apply milhar_In in Hc.
        destruct Hc as [-> | Hc]; [reflexivity | ].
        rewrite Forall_forall in Hp. now apply Hp. }
      induction (milhar (digitos (Z.abs n))) as [ | c l IH]; [reflexivity | ].
      inversion Hm as [ | ? ? Hc Hl]; subst.
      cbn [flat_map]. unfold troca_char at 1.
      destruct (ascii_eqb c ","%char) eqn:Ec;
        cbn [filter app negb list_ascii_of_string]; rewrite ?Ec; cbn [negb].
      + change (ascii_eqb "."%char "."%char) with true. cbn [negb]. now apply IH.
      + rewrite Hc. cbn [negb]. f_equal. now apply IH. }
  repeat apply conj.
  - cbn [fmt_int]. rewrite replace1_flat_map. rewrite in_flat_map.
    intros [c [_ Hc]]. unfold troca_char in Hc.
    destruct (ascii_eqb c ","%char) eqn:Ec.
    + cbn in Hc. destruct Hc as [Hc | []]. discriminate.
    + destruct Hc as [-> | []]. discriminate Ec.
  - exact Hs.
  - rewrite Hs. rewrite NilZero.isi.
    + cbn [option_map]. f_equal. apply DecimalZ.of_to.
    + destruct n as [ | p | p]; cbn; try discriminate.
      intros [= E]. now apply (DecimalPos.Unsigned.to_uint_nonnil p).
    + destruct n as [ | p | p]; cbn; try discriminate.
      intros [= E]. now apply (DecimalPos.Unsigned.to_uint_nonnil p).
Qed.

Lemma troca_um (c : ascii) :
  ascii_eqb c "X"%char = false ->
  flat_map (troca_char "X"%char ["."%char])
    (flat_map (troca_char "."%char [","%char]) (troca_char ","%char ["X"%char] c))
  = [troca_sep c].
Proof.
  unfold troca_sep, troca_char, ascii_eqb. intros Hc.
  destruct (Ascii.eqb_spec c ","%char) as [-> | Hv]; [reflexivity | ].
  cbn [flat_map app].
  destruct (Ascii.eqb_spec c "."%char) as [-> | Hp]; [reflexivity | ].
  cbn [flat_map app]. now rewrite Hc.
Qed.

Lemma troca_tres_vezes (l : list ascii) :
  Forall (fun c => ascii_eqb c "X"%char = false) l ->
  flat_map (troca_char "X"%char ["."%char])
    (flat_map (troca_char "."%char [","%char])
       (flat_map (troca_char ","%char ["X"%char]) l))
  = map troca_sep l.
Proof.
  induction l as [ | c l IH]; intros Hf; [reflexivity | ].
  inversion Hf as [ | ? ? Hc Hl]; subst.
  cbn [flat_map map]. rewrite !flat_map_app, (IH Hl), (troca_um c Hc).
  reflexivity.
Qed.

Lemma ponto_fixo_lista (n : Z) (dec : nat) :
  exists int frac,
    list_ascii_of_string (ponto_fixo n dec)
    = (milhar int ++ match dec with O => [] | S _ => "."%char :: frac end)%list /\
    int <> [] /\
    Forall (fun c => eh_digito c = true) int /\
    Forall (fun c => eh_digito c = true) frac /\
    List.length frac = dec.
Proof.
  unfold ponto_fixo.
  set (ds := (zeros (S dec - List.length (digitos n)) ++ digitos n)%list).
  assert (Hd : Forall (fun c => eh_digito c = true) ds).
  { apply Forall_app. split; [ | apply digitos_digitos].
    unfold zeros. apply Forall_forall. intros c Hc. apply repeat_spec in Hc. now subst. }
  assert (Hl : (S dec <= List.length ds)%nat).
  { unfold ds, zeros. rewrite length_app, repeat_length. lia. }
  exists (firstn (List.length ds - dec) ds), (skipn (List.length ds - dec) ds).
  rewrite list_ascii_of_string_of_list_ascii.
  repeat apply conj.
  - reflexivity.
  - destruct ds as [ | d ds']; [cbn in Hl; lia | ].
    replace (List.length (d :: ds') - dec)%nat
      with (S (List.length ds' - dec)) by (cbn [List.length] in *; lia).
    discriminate.
  - rewrite <- (firstn_skipn (List.length ds - dec) ds) in Hd.
    now apply Forall_app in Hd.
  - rewrite <- (firstn_skipn (List.length ds - dec) ds) in Hd.
    now apply Forall_app in Hd.
  - rewrite length_skipn. lia.
Qed.

Lemma format_float_comma_sem_X (f : float64) (dec : nat) :
  Forall (fun c => ascii_eqb c "X"%char = false)
         (list_ascii_of_string (format_float_comma f dec)).
Proof.
  assert (Hpf : forall n s,
             Forall (fun c => ascii_eqb c "X"%char = false)
                    (list_ascii_of_string (sinal s ++ ponto_fixo n dec))).
  { intros n s. rewrite list_ascii_of_string_app. apply Forall_app. split.
    - destruct s; repeat constructor.
    - destruct (ponto_fixo_lista n dec) as [int [frac [-> [_ [Hi [Hf _]]]]]].
      apply Forall_app. split.
      + apply Forall_forall. intros c Hc. apply milhar_In in Hc.
        destruct Hc as [-> | Hc]; [reflexivity | ].
        rewrite Forall_forall in Hi. now apply digito_nao_separador, Hi.
      + destruct dec; constructor; [reflexivity | ].
        eapply Forall_impl; [ | exact Hf].
        intros c Hc. now apply digito_nao_separador in Hc. }
  destruct f as [s | s | | s m e]; cbn [format_float_comma]; try apply Hpf.
  - destruct s; repeat constructor.
  - repeat constructor.
Qed.

(** The three replacements of [fmt_float], through the placeholder "X",
    exchange the two separators and touch nothing else: the result is
    Python's [f"{x:,.{dec}f}"] with every comma turned into a dot and every
    dot into a comma. *)
Theorem fmt_float_troca_separadores :
  forall (f : float64) (dec : nat),
    f64_is_nan f = false ->
    fmt_float (PyFloat f) dec
    = Ok (string_of_list_ascii
            (map troca_sep (list_ascii_of_string (format_float_comma f dec)))).
Proof.
  intros f dec Hn. unfold fmt_float.
  cbn [pyval_is_None pyval_isna orb py_float bind]. rewrite Hn. f_equal.
  apply string_eq_lista. rewrite list_ascii_of_string_of_list_ascii.
  rewrite !replace1_flat_map.
  apply (troca_tres_vezes _ (format_float_comma_sem_X f dec)).
Qed.

Lemma fmt_float_troca_separadores_witness :
  fmt_float (PyFloat (f64_of_Z 1234567)) 2
  = Ok (string_of_list_ascii
          (map troca_sep
             (list_ascii_of_string (format_float_comma (f64_of_Z 1234567) 2)))).
Proof.
  apply (fmt_float_troca_separadores (f64_of_Z 1234567) 2). reflexivity.
Defined.

Lemma troca_cadeia (s : string) :
  Forall (fun c => ascii_eqb c "X"%char = false) (list_ascii_of_string s) ->
  replace1 "X"%char "." (replace1 "."%char "," (replace1 ","%char "X" s))
  = string_of_list_ascii (map troca_sep (list_ascii_of_string s)).
Proof.
  intros H. apply string_eq_lista. rewrite list_ascii_of_string_of_list_ascii.
  rewrite !replace1_flat_map. now apply troca_tres_vezes.
Qed.

Lemma troca_sep_digito (c : ascii) :
  eh_digito c = true -> troca_sep c = c.
Proof.
  intros H. apply digito_nao_separador in H. destruct H as [Hv [Hp _]].
  unfold troca_sep. now rewrite Hv, Hp.
Qed.

Lemma milhar_contem (d : ascii) (l : list ascii) :
  Forall (fun c => eh_digito c = true) l -> In d l -> In d (milhar l).
Proof.
  intros Hd Hin.
  assert (Hf : Forall (fun c => ascii_eqb c ","%char = false) l).
  { eapply Forall_impl; [ | exact Hd]. intros c Hc.
    now apply digito_nao_separador in Hc. }
  rewrite <- (milhar_filter l Hf) in Hin. now apply filter_In in Hin.
Qed.

Lemma formato_nunca_traco (f : float64) (dec : nat) :
  replace1 "X"%char "."
    (replace1 "."%char "," (replace1 ","%char "X" (format_float_comma f dec)))
  <> "-".
Proof.
  rewrite (troca_cadeia _ (format_float_comma_sem_X f dec)).
  assert (Hpf : forall n s,
             string_of_list_ascii
               (map troca_sep (list_ascii_of_string (sinal s ++ ponto_fixo n dec)))
             <> "-").
  { intros n s E. apply (f_equal list_ascii_of_string) in E.
    rewrite list_ascii_of_string_of_list_ascii in E.
    destruct (ponto_fixo_lista n dec) as [int [frac [Hl [Hne [Hi _]]]]].
    destruct int as [ | d int]; [congruence | ].
    assert (Hd : eh_digito d = true) by (now inversion Hi).
    assert (Hin : In d (map troca_sep (list_ascii_of_string (sinal s ++ ponto_fixo n dec)))).
    { rewrite <- (troca_sep_digito d Hd) at 1. apply in_map.
      rewrite list_ascii_of_string_app, Hl, !in_app_iff. right. left.
      apply milhar_contem; [exact Hi | now left]. }
    rewrite E in Hin. destruct Hin as [<- | []]. discriminate Hd. }
  destruct f as [s | s | | s m e]; cbn [format_float_comma]; try apply Hpf.
  - destruct s; discriminate.
  - discriminate.
Qed.

Lemma py_float_int (n : Z) :
  (exists e, py_float (PyInt n) = Raise e) \/ (exists f, py_float (PyInt n) = Ok f).
Proof.
  cbn [py_float]. destruct (f64_of_Z n); eauto.
Qed.

(** The placeholder is unambiguous: [fmt_float] returns "-" exactly when
    its argument is None or NaN. A number, an infinity included, is never
    shown as "-". *)
Theorem fmt_float_traco_sse_nulo :
  forall (x : pyval) (dec : nat),
    fmt_float x dec = Ok "-" <-> pyval_isna x = true.
Proof.
  intros x dec. split.
  - intros H. destruct (pyval_isna x) eqn:Hn; [reflexivity | exfalso].
    unfold fmt_float in H. rewrite Hn in H.
    destruct x as [ | n | f]; cbn [pyval_is_None orb] in H; [discriminate Hn | | ].
    + destruct (py_float_int n) as [[e E] | [f E]]; rewrite E in H;
        cbn [bind] in H; [discriminate H | ].
      injection H as H. now apply formato_nunca_traco in H.
    + cbn [py_float bind] in H. injection H as H. now apply formato_nunca_traco in H.
  - intros H. unfold fmt_float. rewrite H. now rewrite orb_true_r.
Qed.

(** A number is written with exactly [dec] digits after a single decimal
    comma (and with no comma at all when [dec] is 0); what comes before the
    comma is not empty. *)
Theorem fmt_float_casas_decimais :
  forall (f : float64) (dec : nat),
    f64_finito f = true ->
    exists int frac : list ascii,
      fmt_float (PyFloat f) dec
      = Ok (string_of_list_ascii
              (int ++ match dec with O => [] | S _ => ","%char :: frac end)) /\
      int <> [] /\
      ~ In ","%char int /\
      Forall (fun c => eh_digito c = true) frac /\
      List.length frac = dec.
Proof.
  intros f dec Hfin.
  assert (Hn : f64_is_nan f = false) by (destruct f; try discriminate; reflexivity).
  unfold fmt_float. cbn [pyval_is_None pyval_isna orb py_float bind]. rewrite Hn.
  rewrite (troca_cadeia _ (format_float_comma_sem_X f dec)).
  assert (Hpf : forall n s,
             exists int frac : list ascii,
               map troca_sep (list_ascii_of_string (sinal s ++ ponto_fixo n dec))
               = (int ++ match dec with O => [] | S _ => ","%char :: frac end)%list /\
               int <> [] /\ ~ In ","%char int /\
               Forall (fun c => eh_digito c = true) frac /\ List.length frac = dec).
  { intros n s.
    destruct (ponto_fixo_lista n dec) as [int [frac [Hl [Hne [Hi [Hf Hlen]]]]]].
    exists (map troca_sep (list_ascii_of_string (sinal s) ++ milhar int)), frac.
    repeat apply conj; try assumption.
    - rewrite list_ascii_of_string_app, Hl, app_assoc, map_app. f_equal.
      destruct dec; [reflexivity | ]. cbn [map]. f_equal.
      rewrite (map_ext_in troca_sep (fun c => c)); [apply map_id | ].
      intros c Hc. rewrite Forall_forall in Hf.
      now apply troca_sep_digito, Hf.
    - destruct int as [ | d int]; [congruence | ].
      intros E. apply (f_equal (@List.length ascii)) in E.
      rewrite length_map, length_app in E. cbn [List.length] in E.
      assert (Hin : In d (milhar (d :: int)))
        by (apply milhar_contem; [exact Hi | now left]).
      destruct (milhar (d :: int)); [destruct Hin | cbn in E; lia].
    - rewrite in_map_iff. intros [c [Hc Hin]].
      assert (Ec : c = "."%char).
      { unfold troca_sep, ascii_eqb in Hc.
        destruct (Ascii.eqb_spec c ","%char) as [E1 | Hv]; [discriminate Hc | ].
        destruct (Ascii.eqb_spec c "."%char) as [E2 | Hp]; [exact E2 | ].
        congruence. }
      subst c. apply in_app_iff in Hin. destruct Hin as [Hin | Hin].
      + destruct s; cbn in Hin; intuition discriminate.
      + apply milhar_In in Hin. destruct Hin as [Hin | Hin]; [discriminate | ].
        rewrite Forall_forall in Hi. apply Hi in Hin. discriminate Hin. }
  destruct f as [s | s | | s m e]; try discriminate Hfin; cbn [format_float_comma];
    match goal with
    | |- context [ponto_fixo ?n dec] =>
      destruct (Hpf n s) as [int [frac [E [H1 [H2 [H3 H4]]]]]]
    end;
    exists int, frac; rewrite E; repeat apply conj; auto.
Qed.

Lemma fmt_float_casas_decimais_witness :
  exists int frac : list ascii,
    fmt_float (PyFloat (f64_of_Z 1234567)) 2
    = Ok (string_of_list_ascii
            (int ++ match 2%nat with O => [] | S _ => ","%char :: frac end)) /\
    int <> [] /\
    ~ In ","%char int /\
    Forall (fun c => eh_digito c = true) frac /\
    List.length frac = 2%nat.
Proof.
  apply (fmt_float_casas_decimais (f64_of_Z 1234567) 2). reflexivity.
Defined.

(** ** The text for the clipboard *)

Lemma ascii_eqb_sym (a b : ascii) : ascii_eqb a b = ascii_eqb b a.
Proof. unfold ascii_eqb. apply Ascii.eqb_sym. Qed.

Lemma replace_desde_um (c : ascii) (new l : list ascii) :
  replace_desde [c] new 0 l = flat_map (troca_char c new) l.
Proof.
  induction l as [ | x l IH]; [reflexivity | ].
  cbn [replace_desde prefixo flat_map List.length Nat.sub].
  rewrite andb_true_r, IH, (ascii_eqb_sym c x).
  change (troca_char c new x) with (if ascii_eqb x c then new else [x]).
  now destruct (ascii_eqb x c).
Qed.

(** On a one-character pattern the general scan is [replace1]. *)
Lemma py_replace_um (c : ascii) (new s : string) :
  py_replace (String c "") new s = replace1 c new s.
Proof.
  apply string_eq_lista. unfold py_replace.
  rewrite list_ascii_of_string_of_list_ascii, replace1_flat_map.
  apply replace_desde_um.
Qed.

Lemma crlf_CRLF (r : list ascii) :
  replace_desde [CR; LF] [LF] 0 (CR :: LF :: r)
  = LF :: replace_desde [CR; LF] [LF] 0 r.
Proof. reflexivity. Qed.

Lemma crlf_outro (c : ascii) (r : list ascii) :
  prefixo [CR; LF] (c :: r) = false ->
  replace_desde [CR; LF] [LF] 0 (c :: r)
  = c :: replace_desde [CR; LF] [LF] 0 r.
Proof. intros H. cbn [replace_desde]. now rewrite H. Qed.

Lemma crlf_sem_CR (p x : list ascii) :
  Forall (fun c => ascii_eqb CR c = false) p ->
  replace_desde [CR; LF] [LF] 0 (p ++ x)
  = (p ++ replace_desde [CR; LF] [LF] 0 x)%list.
Proof.
  induction p as [ | c p IH]; intros Hp; [reflexivity | ].
  inversion Hp as [ | ? ? Hc Hp']; subst.
  cbn [app]. rewrite crlf_outro by (cbn [prefixo]; now rewrite Hc).
  now rewrite (IH Hp').
Qed.

Lemma crlf_flat_map (g : ascii -> list ascii) :
  g CR = [CR] -> g LF = [LF] ->
  (forall c, ascii_eqb CR c = false -> ascii_eqb LF c = false ->
             g c <> [] /\
             Forall (fun x => ascii_eqb CR x = false) (g c) /\
             Forall (fun x => ascii_eqb LF x = false) (g c)) ->
  forall l,
    replace_desde [CR; LF] [LF] 0 (flat_map g l)
    = flat_map g (replace_desde [CR; LF] [LF] 0 l).
Proof.
  intros HCR HLF Hg l.
  assert (H : forall n l, (List.length l <= n)%nat ->
                replace_desde [CR; LF] [LF] 0 (flat_map g l)
                = flat_map g (replace_desde [CR; LF] [LF] 0 l)).
  { clear l. induction n as [ | n IH]; intros l Hl.
    - destruct l; [reflexivity | cbn in Hl; lia].
    - destruct l as [ | c r]; [reflexivity | ].
      cbn [List.length] in Hl.
      destruct (ascii_eqb CR c) eqn:Ec.
      + apply Ascii.eqb_eq in Ec. subst c.
        destruct r as [ | x r'].
        * change (replace_desde [CR; LF] [LF] 0 [CR]) with [CR].
          cbn [flat_map]. rewrite HCR. reflexivity.
        * destruct (ascii_eqb LF x) eqn:Ex.
          -- apply Ascii.eqb_eq in Ex. subst x.
             cbn [flat_map]. rewrite HCR, HLF. cbn [app].
             rewrite !crlf_CRLF. cbn [flat_map]. rewrite HLF. cbn [app].
             f_equal. apply IH. cbn [List.length] in Hl. lia.
          -- assert (Hx : exists y ys, g x = y :: ys /\ ascii_eqb LF y = false).
             { destruct (ascii_eqb CR x) eqn:Ex'.
               - apply Ascii.eqb_eq in Ex'. subst x. rewrite HCR. eauto.
               - destruct (Hg x Ex' Ex) as [Hne [_ Hlf]].
                 destruct (g x) as [ | y ys]; [congruence | ].
                 inversion Hlf; subst. eauto. }
             destruct Hx as [y [ys [Egx Hy]]].
             rewrite (crlf_outro CR (x :: r'))
               by (cbn [prefixo]; now rewrite Ex, andb_false_r).
             cbn [flat_map]. rewrite HCR. cbn [app].
             rewrite <- (IH (x :: r')) by lia.
             cbn [flat_map]. rewrite Egx. cbn [app].
             apply crlf_outro. cbn [prefixo]. now rewrite Hy, andb_false_r.
      + rewrite (crlf_outro c r) by (cbn [prefixo]; now rewrite Ec).
        cbn [flat_map]. rewrite <- (IH r) by lia.
        destruct (ascii_eqb LF c) eqn:El.
        * apply Ascii.eqb_eq in El. subst c. rewrite HLF.
          apply (crlf_sem_CR [LF]). repeat constructor.
        * destruct (Hg c Ec El) as [_ [Hcr _]]. now apply crlf_sem_CR. }
  apply (H (List.length l)). lia.
Qed.

(** The first three replacements and the last one, on one character. *)
Lemma escapa_tres (c : ascii) :
  flat_map (troca_char "$"%char [barra; "$"%char])
    (flat_map (troca_char "`"%char [barra; "`"%char])
       (troca_char barra [barra; barra] c))
  = if ascii_eqb c barra then [barra; barra]
    else if ascii_eqb c "`"%char then [barra; "`"%char]
    else if ascii_eqb c "$"%char then [barra; "$"%char]
    else [c].
Proof.
  unfold troca_char, ascii_eqb.
  destruct (Ascii.eqb_spec c barra) as [-> | H1]; [reflexivity | ].
  cbn [flat_map app].
  destruct (Ascii.eqb_spec c "`"%char) as [-> | H2]; [reflexivity | ].
  cbn [flat_map app].
  destruct (Ascii.eqb_spec c "$"%char) as [-> | H3]; reflexivity.
Qed.

Lemma escapa_quatro (c : ascii) :
  flat_map (troca_char LF [barra; "n"%char])
    (if ascii_eqb c barra then [barra; barra]
     else if ascii_eqb c "`"%char then [barra; "`"%char]
     else if ascii_eqb c "$"%char then [barra; "$"%char]
     else [c])
  = escapa_js c.
Proof.
  unfold escapa_js, troca_char, ascii_eqb.
  destruct (Ascii.eqb_spec c barra) as [-> | H1]; [reflexivity | ].
  destruct (Ascii.eqb_spec c "`"%char) as [-> | H2]; [reflexivity | ].
  destruct (Ascii.eqb_spec c "$"%char) as [-> | H3]; [reflexivity | ].
  cbn [flat_map app]. now destruct (Ascii.eqb_spec c LF).
Qed.

Lemma flat_map_flat_map {A B C : Type} (f : A -> list B) (g : B -> list C) (l : list A) :
  flat_map g (flat_map f l) = flat_map (fun a => flat_map g (f a)) l.
Proof.
  induction l as [ | a l IH]; cbn [flat_map]; [reflexivity | ].
  now rewrite flat_map_app, IH.
Qed.

Lemma clipboard_safe_lista (text : string) :
  list_ascii_of_string (clipboard_safe text)
  = flat_map escapa_js
      (replace_desde [CR; LF] [LF] 0 (list_ascii_of_string text)).
Proof.
  unfold clipboard_safe, py_replace.
  rewrite !list_ascii_of_string_of_list_ascii.
  cbn [list_ascii_of_string].
  rewrite !replace_desde_um.
  rewrite (flat_map_flat_map (troca_char barra [barra; barra])).
  rewrite (flat_map_flat_map _ (troca_char "$"%char [barra; "$"%char])).
  rewrite (flat_map_ext _ _ escapa_tres).
  rewrite crlf_flat_map.
  - rewrite flat_map_flat_map. apply flat_map_ext. intros c. apply escapa_quatro.
  - reflexivity.
  - reflexivity.
  - intros c Hcr Hlf. unfold ascii_eqb in *.
    destruct (Ascii.eqb_spec c barra) as [-> | H1];
      [repeat split; try discriminate; repeat constructor | ].
    destruct (Ascii.eqb_spec c "`"%char) as [-> | H2];
      [repeat split; try discriminate; repeat constructor | ].
    destruct (Ascii.eqb_spec c "$"%char) as [-> | H3];
      [repeat split; try discriminate; repeat constructor | ].
    repeat split; try discriminate; repeat constructor; assumption.
Qed.

(** The five replacements of [clipboard_button] act as one pass over the
    text: CR LF becomes a line feed, and then a backslash, a backtick and a
    dollar sign each get a backslash in front, a line feed becomes
    backslash-n, and every other character stays. The replacements made
    first add only backslashes, so no later one touches what an earlier one
    wrote. *)
Theorem clipboard_safe_uma_passada :
  forall text : string,
    clipboard_safe text
    = string_of_list_ascii
        (flat_map escapa_js
           (list_ascii_of_string
              (py_replace (String CR (String LF "")) (String LF "") text))).
Proof.
  intros text. apply string_eq_lista.
  rewrite clipboard_safe_lista. unfold py_replace.
  now rewrite !list_ascii_of_string_of_list_ascii.
Qed.

Lemma crlf_In (c : ascii) (l : list ascii) :
  ascii_eqb CR c = false ->
  In c l -> In c (replace_desde [CR; LF] [LF] 0 l).
Proof.
  intros Hc.
  assert (H : forall n l, (List.length l <= n)%nat ->
                In c l -> In c (replace_desde [CR; LF] [LF] 0 l)).
  { clear l. induction n as [ | n IH]; intros l Hl Hin.
    - destruct l; [destruct Hin | cbn in Hl; lia].
    - destruct l as [ | x r]; [destruct Hin | ]. cbn [List.length] in Hl.
      destruct (prefixo [CR; LF] (x :: r)) eqn:Ep.
      + cbn [prefixo] in Ep. destruct r as [ | y r']; [now rewrite andb_false_r in Ep | ].
        apply andb_prop in Ep. destruct Ep as [E1 E2].
        rewrite andb_true_r in E2.
        apply Ascii.eqb_eq in E1. apply Ascii.eqb_eq in E2. subst x y.
        rewrite crlf_CRLF. destruct Hin as [<- | [<- | Hin]].
        * discriminate Hc.
        * now left.
        * right. apply IH; [cbn [List.length] in Hl; lia | exact Hin].
      + rewrite (crlf_outro x r Ep). destruct Hin as [<- | Hin]; [now left | right].
        apply IH; [lia | exact Hin]. }
  apply (H (List.length l)). lia.
Qed.

(** What [safe] never holds and what it lets through. It has no line feed,
    so the literal stays on one line. A character other than backslash,
    backtick, dollar, CR and LF, the double quote among them, that is in
    the text is in [safe] too, unescaped; and a text made of such
    characters only is handed over as it is. *)
Theorem clipboard_safe_caracteres :
  forall text : string,
    ~ In LF (list_ascii_of_string (clipboard_safe text)) /\
    (forall c, char_comum c = true ->
               In c (list_ascii_of_string text) ->
               In c (list_ascii_of_string (clipboard_safe text))) /\
    char_comum (ascii_of_nat 34) = true /\
    (forallb char_comum (list_ascii_of_string text) = true ->
     clipboard_safe text = text).
Proof.
  intros text. rewrite clipboard_safe_lista. repeat apply conj.
  - rewrite in_flat_map. intros [c [_ Hc]]. unfold escapa_js, ascii_eqb in Hc.
    destruct (Ascii.eqb_spec c barra); [cbn in Hc; intuition discriminate | ].
    destruct (Ascii.eqb_spec c "`"%char); [cbn in Hc; intuition discriminate | ].
    destruct (Ascii.eqb_spec c "$"%char); [cbn in Hc; intuition discriminate | ].
    destruct (Ascii.eqb_spec c LF); [cbn in Hc; intuition discriminate | ].
    destruct Hc as [-> | []]. congruence.
  - intros c Hc Hin. unfold char_comum in Hc.
    apply negb_true_iff in Hc. rewrite !orb_false_iff in Hc.
    destruct Hc as [[[[H1 H2] H3] H4] H5].
    apply in_flat_map. exists c. split.
    + apply crlf_In; [ | exact Hin]. now rewrite ascii_eqb_sym.
    + unfold escapa_js. rewrite H1, H2, H3, H4. now left.
  - reflexivity.
  - intros Hall. apply string_eq_lista. rewrite clipboard_safe_lista.
    rewrite forallb_forall in Hall.
    assert (Hcr : Forall (fun c => ascii_eqb CR c = false) (list_ascii_of_string text)).
    { apply Forall_forall. intros c Hc. specialize (Hall c Hc).
      unfold char_comum in Hall. apply negb_true_iff in Hall.
      rewrite !orb_false_iff in Hall. rewrite ascii_eqb_sym. tauto. }
    rewrite <- (app_nil_r (list_ascii_of_string text)) at 1.
    rewrite (crlf_sem_CR _ [] Hcr). cbn [replace_desde]. rewrite app_nil_r.
    induction (list_ascii_of_string text) as [ | c l IH]; [reflexivity | ].
    cbn [flat_map].
    assert (Hc : escapa_js c = [c]).
    { specialize (Hall c (or_introl eq_refl)). unfold char_comum in Hall.
      apply negb_true_iff in Hall. rewrite !orb_false_iff in Hall.
      destruct Hall as [[[[H1 H2] H3] H4] H5].
      unfold escapa_js. now rewrite H1, H2, H3, H4. }
    rewrite Hc. cbn [app]. f_equal. apply IH.
    + intros x Hx. apply Hall. now right.
    + now inversion Hcr.
Qed.

(** ** Tab "Ranking" *)

Section OrdenaPor.

Variable A : Type.
Variable antes : A -> A -> bool.
Hypothesis antes_total : forall a b, antes a b = false -> antes b a = true.

Lemma insere_por_Permutation (x : A) (l : list A) :
  Permutation (insere_por antes x l) (x :: l).
Proof.
  induction l as [ | y l IH]; cbn [insere_por]; [reflexivity | ].
  destruct (antes x y); [reflexivity | ].
  rewrite IH. apply perm_swap.
Qed.

Lemma ordena_por_Permutation (l : list A) :
  Permutation (ordena_por antes l) l.
Proof.
  induction l as [ | x l IH]; cbn [ordena_por]; [reflexivity | ].
  rewrite insere_por_Permutation. now constructor.
Qed.

Lemma insere_por_HdRel (x a : A) (l : list A) :
  antes a x = true ->
  HdRel (fun u v => antes u v = true) a l ->
  HdRel (fun u v => antes u v = true) a (insere_por antes x l).
Proof.
  intros Hax Hal. destruct l as [ | y l]; cbn [insere_por].
  - now constructor.
  - destruct (antes x y); constructor; [exact Hax | ].
    now apply HdRel_inv in Hal.
Qed.

Lemma insere_por_Sorted (x : A) (l : list A) :
  Sorted (fun u v => antes u v = true) l ->
  Sorted (fun u v => antes u v = true) (insere_por antes x l).
Proof.
  induction l as [ | y l IH]; cbn [insere_por]; intros Hs.
  - repeat constructor.
  - destruct (antes x y) eqn:E.
    + constructor; [exact Hs | now constructor].
    + apply Sorted_inv in Hs. destruct Hs as [Hs Hd].
      constructor; [now apply IH | ].
      apply insere_por_HdRel; [ | exact Hd]. now apply antes_total.
Qed.

Lemma ordena_por_Sorted (l : list A) :
  Sorted (fun u v => antes u v = true) (ordena_por antes l).
Proof.
  induction l as [ | x l IH]; cbn [ordena_por]; [constructor | ].
  now apply insere_por_Sorted.
Qed.

End OrdenaPor.

Lemma cmp_desc_chaves_antisym (ks : list chave) (a b : linha) :
  cmp_desc_chaves ks b a = CompOpp (cmp_desc_chaves ks a b).
Proof.
  induction ks as [ | k ks IH]; cbn [cmp_desc_chaves]; [reflexivity | ].
  rewrite (sql_ordem_antisym (valor_chave k b) (valor_chave k a)).
  destruct (sql_ordem (valor_chave k b) (valor_chave k a)); cbn; auto.
Qed.

Lemma vem_antes_chaves_total (ks : list chave) (a b : linha) :
  vem_antes_chaves ks a b = false -> vem_antes_chaves ks b a = true.
Proof.
  unfold vem_antes_chaves. rewrite (cmp_desc_chaves_antisym ks a b).
  destruct (cmp_desc_chaves ks a b); cbn; congruence.
Qed.

Lemma precede_duas (k1 k2 : chave) (a b : linha) :
  precede_chaves [k1; k2] a b -> desc_por_duas k1 k2 a b.
Proof.
  unfold precede_chaves, vem_antes_chaves, desc_por_duas. cbn [cmp_desc_chaves].
  rewrite (sql_ordem_antisym (valor_chave k1 a) (valor_chave k1 b)).
  rewrite (sql_ordem_antisym (valor_chave k2 a) (valor_chave k2 b)).
  destruct (sql_ordem (valor_chave k1 a) (valor_chave k1 b));
    destruct (sql_ordem (valor_chave k2 a) (valor_chave k2 b));
    cbn; intros H; try discriminate; auto; right; split; congruence.
Qed.

Lemma precede_uma (k : chave) (a b : linha) :
  precede_chaves [k] a b -> desc_por_uma k a b.
Proof.
  unfold precede_chaves, vem_antes_chaves, desc_por_uma. cbn [cmp_desc_chaves].
  rewrite (sql_ordem_antisym (valor_chave k a) (valor_chave k b)).
  destruct (sql_ordem (valor_chave k a) (valor_chave k b));
    cbn; intros H; congruence.
Qed.

Lemma ranking_colunas (b : banco) (tipo mun : string) :
  forallb (coluna_existe (TBL b))
    (rank_cols (HAS_ENRICH b) tipo
     ++ flat_map cond_colunas (monta_where_rank mun)
     ++ flat_map colunas_chave (ordem_rank (HAS_ENRICH b) tipo)) = true.
Proof.
  destruct (TBL_cases b) as [[es [_ [-> [_ _]]]] | [_ [Et [Eh _]]]].
  - apply coluna_existe_enriquecida.
  - rewrite Et, Eh. unfold rank_cols, select_extra, ordem_rank, monta_where_rank.
    cbn [andb].
    destruct (String.eqb tipo MAIOR_AREA), (String.eqb tipo MAIOR_DETENCAO),
             (negb (String.eqb mun "Todos")); reflexivity.
Qed.

Lemma ranking_ok (b : banco) (tipo mun : string) (top_n : Z) (rows : list linha) :
  linhas_da_tabela b (TBL b) = Ok rows ->
  ranking b tipo mun top_n
  = Ok (limita (Some (top_n, 0))
          (ordena_por (vem_antes_chaves (ordem_rank (HAS_ENRICH b) tipo))
             (filter (passa (monta_where_rank mun)) rows))).
Proof.
  intros E. unfold ranking. rewrite E. cbn [bind].
  now rewrite ranking_colunas.
Qed.

Lemma passa_rank (mun : string) (l : linha) :
  passa (monta_where_rank mun) l = true <->
  uf (imovel_de l) = Some "SP" /\
  (mun <> "Todos" -> municipio (imovel_de l) = Some mun).
Proof.
  unfold passa, monta_where_rank.
  destruct (String.eqb_spec mun "Todos") as [-> | Hne]; cbn [negb quando forallb eval_cond valor].
  - rewrite andb_true_r, sql_eq_texto, texto_eqb_eq. intuition congruence.
  - rewrite andb_true_r, !sql_eq_texto, andb_true_iff, !texto_eqb_eq. intuition.
Qed.

(** The ranking shows, among the properties of SP (of the chosen
    municipality, when one is chosen), the first [top_n] in the order of
    the chosen type: by area in modules then total area (only with the
    enriched table), by total area, by holding percentage then total area,
    and for any other type by the weighted area
    [area_total_ha * (percentual_detencao / 100.0)] then total area. No
    other filter applies: properties without a module are ranked too. *)
Theorem ranking_ordenado :
  forall (b : banco) (tipo mun : string) (top_n : Z),
    tem_tabela b -> 0 <= top_n ->
    exists rows res resto,
      linhas_da_tabela b (TBL b) = Ok rows /\
      ranking b tipo mun top_n = Ok res /\
      (List.length res <= Z.to_nat top_n)%nat /\
      (List.length resto = 0%nat \/ List.length res = Z.to_nat top_n) /\
      Permutation (res ++ resto) (filter (passa (monta_where_rank mun)) rows) /\
      (forall l, In l (res ++ resto) <->
         In l rows /\ uf (imovel_de l) = Some "SP" /\
         (mun <> "Todos" -> municipio (imovel_de l) = Some mun)) /\
      Sorted (precede_chaves (ordem_rank (HAS_ENRICH b) tipo)) (res ++ resto) /\
      (HAS_ENRICH b = true -> tipo = MAIOR_AREA_MF ->
       Sorted (desc_por_duas (KColuna c_area_em_mf) (KColuna c_area_total_ha)) res) /\
      (tipo = MAIOR_AREA ->
       Sorted (desc_por_uma (KColuna c_area_total_ha)) res) /\
      (tipo = MAIOR_DETENCAO ->
       Sorted (desc_por_duas (KColuna c_percentual_detencao) (KColuna c_area_total_ha))
              res) /\
      (tipo <> MAIOR_AREA -> tipo <> MAIOR_DETENCAO ->
       (HAS_ENRICH b = false \/ tipo <> MAIOR_AREA_MF) ->
       Sorted (desc_por_duas KAreaPonderada (KColuna c_area_total_ha)) res).
Proof.
  intros b tipo mun top_n Ht Hn.
  destruct (linhas_da_tabela_ok b Ht) as [rows E].
  rewrite (ranking_ok b tipo mun top_n rows E).
  set (ks := ordem_rank (HAS_ENRICH b) tipo).
  set (todos := ordena_por (vem_antes_chaves ks)
                  (filter (passa (monta_where_rank mun)) rows)).
  assert (Hlim : limita (Some (top_n, 0)) todos = firstn (Z.to_nat top_n) todos).
  { cbn [limita]. destruct (Z.ltb_spec top_n 0); [lia | reflexivity]. }
  rewrite Hlim.
  assert (Hs : Sorted (precede_chaves ks) todos)
    by (apply ordena_por_Sorted, vem_antes_chaves_total).
  assert (Hres : Sorted (precede_chaves ks) (firstn (Z.to_nat top_n) todos))
    by (now apply Sorted_firstn).
  exists rows, (firstn (Z.to_nat top_n) todos), (skipn (Z.to_nat top_n) todos).
  rewrite firstn_skipn.
  split; [exact E | ]. split; [reflexivity | ].
  split; [apply firstn_le_length | ].
  split.
  { rewrite length_skipn, length_firstn. lia. }
  split; [apply ordena_por_Permutation | ].
  split.
  { intros l. rewrite <- passa_rank, <- filter_In. split; intros H.
    - eapply Permutation_in; [apply ordena_por_Permutation | exact H].
    - eapply Permutation_in; [symmetry; apply ordena_por_Permutation | exact H]. }
  split; [exact Hs | ].
  repeat apply conj.
  - intros Hhe ->. unfold ks, ordem_rank in Hres. rewrite Hhe in Hres.
    cbn [andb] in Hres. rewrite String.eqb_refl in Hres.
    exact (Sorted_weaken _ _ _ (precede_duas _ _) Hres).
  - intros ->. unfold ks, ordem_rank in Hres.
    replace (HAS_ENRICH b && String.eqb MAIOR_AREA MAIOR_AREA_MF) with false in Hres
      by (now rewrite andb_false_r).
    rewrite String.eqb_refl in Hres.
    exact (Sorted_weaken _ _ _ (precede_uma _) Hres).
  - intros ->. unfold ks, ordem_rank in Hres.
    replace (HAS_ENRICH b && String.eqb MAIOR_DETENCAO MAIOR_AREA_MF) with false in Hres
      by (now rewrite andb_false_r).
    change (String.eqb MAIOR_DETENCAO MAIOR_AREA) with false in Hres.
    rewrite String.eqb_refl in Hres.
    exact (Sorted_weaken _ _ _ (precede_duas _ _) Hres).
  - intros H1 H2 H3. unfold ks, ordem_rank in Hres.
    apply String.eqb_neq in H1, H2. rewrite H1, H2 in Hres.
    replace (HAS_ENRICH b && String.eqb tipo MAIOR_AREA_MF) with false in Hres.
    + exact (Sorted_weaken _ _ _ (precede_duas _ _) Hres).
    + destruct H3 as [-> | H3]; [reflexivity | ].
      apply String.eqb_neq in H3. now rewrite H3, andb_false_r.
Qed.

Lemma ranking_ordenado_witness :
  exists rows res resto,
    linhas_da_tabela banco_enriquecido_exemplo (TBL banco_enriquecido_exemplo) = Ok rows /\
    ranking banco_enriquecido_exemplo MAIOR_AREA_MF "Todos" 2 = Ok res /\
    (List.length res <= Z.to_nat 2)%nat /\
    (List.length resto = 0%nat \/ List.length res = Z.to_nat 2) /\
    Permutation (res ++ resto) (filter (passa (monta_where_rank "Todos")) rows) /\
    (forall l, In l (res ++ resto) <->
       In l rows /\ uf (imovel_de l) = Some "SP" /\
       ("Todos" <> "Todos" -> municipio (imovel_de l) = Some "Todos")) /\
    Sorted (precede_chaves (ordem_rank (HAS_ENRICH banco_enriquecido_exemplo) MAIOR_AREA_MF))
           (res ++ resto) /\
    (HAS_ENRICH banco_enriquecido_exemplo = true -> MAIOR_AREA_MF = MAIOR_AREA_MF ->
     Sorted (desc_por_duas (KColuna c_area_em_mf) (KColuna c_area_total_ha)) res) /\
    (MAIOR_AREA_MF = MAIOR_AREA ->
     Sorted (desc_por_uma (KColuna c_area_total_ha)) res) /\
    (MAIOR_AREA_MF = MAIOR_DETENCAO ->
     Sorted (desc_por_duas (KColuna c_percentual_detencao) (KColuna c_area_total_ha))
            res) /\
    (MAIOR_AREA_MF <> MAIOR_AREA -> MAIOR_AREA_MF <> MAIOR_DETENCAO ->
     (HAS_ENRICH banco_enriquecido_exemplo = false \/ MAIOR_AREA_MF <> MAIOR_AREA_MF) ->
     Sorted (desc_por_duas KAreaPonderada (KColuna c_area_total_ha)) res).
Proof.
  apply (ranking_ordenado banco_enriquecido_exemplo MAIOR_AREA_MF "Todos" 2).
  - left. discriminate.
  - discriminate.
Defined.

(** The weighted ranking on a half of 100 ha and the whole of 40 ha: the
    weighted areas are 50 and 40, and the half of 100 ha comes first. *)
Example ranking_ponderado :
  ranking (banco_base [inteiro_de_40; metade_de_100]) AREA_X_PCT "Todos" 100
  = Ok [LBase metade_de_100; LBase inteiro_de_40]
  /\ area_ponderada (LBase metade_de_100) = SReal (f64_of_Z 50)
  /\ area_ponderada (LBase inteiro_de_40) = SReal (f64_of_Z 40).
Proof. repeat apply conj; vm_compute; reflexivity. Qed.

Lemma Sorted_todos {A : Type} (R : A -> A -> Prop) (P : A -> bool) :
  (forall a b, R a b -> P a = true -> P b = true) ->
  forall (a : A) (l : list A),
    Sorted R (a :: l) -> P a = true -> Forall (fun x => P x = true) (a :: l).
Proof.
  intros HR a l. revert a. induction l as [ | b l IH]; intros a Hs Ha.
  - now repeat constructor.
  - apply Sorted_inv in Hs. destruct Hs as [Hs Hd]. apply HdRel_inv in Hd.
    constructor; [exact Ha | ]. apply IH; [exact Hs | ]. now apply (HR a b).
Qed.

Lemma Sorted_separa {A : Type} (R : A -> A -> Prop) (P : A -> bool) :
  (forall a b, R a b -> P a = true -> P b = true) ->
  forall l : list A,
    Sorted R l ->
    exists l1 l2,
      l = (l1 ++ l2)%list /\
      Forall (fun x => P x = false) l1 /\ Forall (fun x => P x = true) l2.
Proof.
  intros HR l. induction l as [ | a l IH]; intros Hs.
  - exists [], []. now repeat split.
  - destruct (P a) eqn:Ha.
    + exists [], (a :: l). repeat split; [constructor | ].
      now apply (Sorted_todos R P HR).
    + apply Sorted_inv in Hs. destruct Hs as [Hs _].
      destruct (IH Hs) as [l1 [l2 [-> [H1 H2]]]].
      exists (a :: l1), l2. repeat split; [now constructor | exact H2].
Qed.

Lemma precede_nulo (k : chave) (ks : list chave) (a b : linha) :
  precede_chaves (k :: ks) a b ->
  eh_nulo (valor_chave k a) = true -> eh_nulo (valor_chave k b) = true.
Proof.
  unfold precede_chaves, vem_antes_chaves. cbn [cmp_desc_chaves].
  destruct (valor_chave k a); try discriminate.
  destruct (valor_chave k b); cbn; intros H _; try reflexivity; discriminate.
Qed.

Lemma ordem_rank_cons (he : bool) (tipo : string) :
  exists k ks, ordem_rank he tipo = k :: ks.
Proof.
  unfold ordem_rank.
  destruct (he && String.eqb tipo MAIOR_AREA_MF), (String.eqb tipo MAIOR_AREA),
           (String.eqb tipo MAIOR_DETENCAO); eauto.
Qed.

(** In every ranking the rows whose ranking value is NULL come after all
    the others. In the ranking by area in modules of a table written by the
    job, these are exactly the properties of class "Sem MF": they are
    ranked, below every classified property. *)
Theorem ranking_nulos_por_ultimo :
  forall (b : banco) (tipo mun : string) (top_n : Z),
    tem_tabela b ->
    exists res k ks l1 l2,
      ranking b tipo mun top_n = Ok res /\
      ordem_rank (HAS_ENRICH b) tipo = k :: ks /\
      res = (l1 ++ l2)%list /\
      Forall (fun l => eh_nulo (valor_chave k l) = false) l1 /\
      Forall (fun l => eh_nulo (valor_chave k l) = true) l2 /\
      (forall im ref es,
          imoveis_enriquecido b = Some es -> enriquecer im ref = Ok es ->
          tipo = MAIOR_AREA_MF ->
          (forall e, In (LEnr e) l1 -> classe_tamanho e <> SEM_MF) /\
          (forall e, In (LEnr e) l2 -> classe_tamanho e = SEM_MF)).
Proof.
  intros b tipo mun top_n Ht.
  destruct (linhas_da_tabela_ok b Ht) as [rows E].
  rewrite (ranking_ok b tipo mun top_n rows E).
  destruct (ordem_rank_cons (HAS_ENRICH b) tipo) as [k [ks Hk]].
  set (todos := ordena_por (vem_antes_chaves (ordem_rank (HAS_ENRICH b) tipo))
                  (filter (passa (monta_where_rank mun)) rows)).
  assert (Hs : Sorted (precede_chaves (k :: ks)) (limita (Some (top_n, 0)) todos)).
  { apply limita_Sorted. rewrite <- Hk.
    apply ordena_por_Sorted, vem_antes_chaves_total. }
  destruct (Sorted_separa _ (fun l => eh_nulo (valor_chave k l))
              (precede_nulo k ks) _ Hs) as [l1 [l2 [Hl [H1 H2]]]].
  exists (limita (Some (top_n, 0)) todos), k, ks, l1, l2.
  repeat apply conj; try assumption; try reflexivity.
  intros im ref es Hes Hjob ->.
  destruct (TBL_cases b) as [[es' [Hes' [_ [Eh E']]]] | [En _]]; [ | congruence].
  rewrite Hes in Hes'. injection Hes' as <-.
  rewrite E in E'. injection E' as ->.
  rewrite Eh in Hk. unfold ordem_rank in Hk. cbn [andb] in Hk.
  rewrite String.eqb_refl in Hk. injection Hk as <- <-.
  assert (Hin : forall e, In (LEnr e) (l1 ++ l2) -> In e es).
  { intros e He. rewrite <- Hl in He. apply In_limita in He.
    unfold todos in He.
    apply (Permutation_in _ (ordena_por_Permutation _ _ _)) in He.
    apply filter_In in He. destruct He as [He _].
    apply in_map_iff in He. destruct He as [e' [[= ->] He']]. exact He'. }
  split.
  - intros e He.
    rewrite (linha_enriquecida_classe im ref es e Hjob)
      by (apply Hin, in_or_app; now left).
    rewrite Forall_forall in H1. specialize (H1 _ He).
    cbn [valor_chave valor] in H1. unfold sql_of_float in H1.
    intros Hc. apply classe_de_SEM_MF in Hc. rewrite Hc in H1. discriminate H1.
  - intros e He.
    rewrite (linha_enriquecida_classe im ref es e Hjob)
      by (apply Hin, in_or_app; now right).
    rewrite Forall_forall in H2. specialize (H2 _ He).
    cbn [valor_chave valor] in H2. unfold sql_of_float in H2.
    unfold classe_de. destruct (f64_is_nan (area_em_mf e)); [reflexivity | discriminate H2].
Qed.

Lemma ranking_nulos_por_ultimo_witness :
  exists res k ks l1 l2,
    ranking banco_enriquecido_exemplo MAIOR_AREA_MF "Todos" 100 = Ok res /\
    ordem_rank (HAS_ENRICH banco_enriquecido_exemplo) MAIOR_AREA_MF = k :: ks /\
    res = (l1 ++ l2)%list /\
    Forall (fun l => eh_nulo (valor_chave k l) = false) l1 /\
    Forall (fun l => eh_nulo (valor_chave k l) = true) l2 /\
    (forall im ref es,
        imoveis_enriquecido banco_enriquecido_exemplo = Some es ->
        enriquecer im ref = Ok es ->
        MAIOR_AREA_MF = MAIOR_AREA_MF ->
        (forall e, In (LEnr e) l1 -> classe_tamanho e <> SEM_MF) /\
        (forall e, In (LEnr e) l2 -> classe_tamanho e = SEM_MF)).
Proof.
  apply (ranking_nulos_por_ultimo banco_enriquecido_exemplo MAIOR_AREA_MF "Todos" 100).
  left. discriminate.
Defined.

(** The ranking by area in modules of the example: Jundiaí, Campinas, and
    Itu, which has no module, last. *)
Example ranking_mf_exemplo :
  ranking banco_enriquecido_exemplo MAIOR_AREA_MF "Todos" 100
  = Ok [LEnr (linha_enriquecida (jundiai_120, Numero (f64_of_Z 12)));
        LEnr (linha_enriquecida (campinas_50, Numero (f64_of_Z 20)));
        LEnr (linha_enriquecida (itu_100, Vazia))].
Proof. vm_compute. reflexivity. Qed.

(** ** Counts per group *)

Lemma mesma_chave_eq (a b : sqlval) :
  valor_textual a = true -> (mesma_chave a b = true <-> a = b).
Proof.
  unfold mesma_chave. destruct a as [ | x | s]; [ | discriminate | ]; intros _.
  - destruct b; cbn; split; congruence.
  - destruct b as [ | y | t]; cbn; try (split; congruence).
    split.
    + destruct (String.compare s t) eqn:E; try discriminate.
      apply String.compare_eq_iff in E. now subst.
    + intros [= ->]. now rewrite string_compare_refl.
Qed.

Lemma mesma_chave_refl (a : sqlval) :
  valor_textual a = true -> mesma_chave a a = true.
Proof. intros H. now apply mesma_chave_eq. Qed.

Lemma mesma_chave_sym (a b : sqlval) :
  valor_textual a = true -> valor_textual b = true ->
  mesma_chave a b = mesma_chave b a.
Proof.
  intros Ha Hb.
  destruct (mesma_chave a b) eqn:E1, (mesma_chave b a) eqn:E2; try reflexivity.
  - apply (mesma_chave_eq a b Ha) in E1. subst b.
    now rewrite (mesma_chave_refl a Ha) in E2.
  - apply (mesma_chave_eq b a Hb) in E2. subst b.
    now rewrite (mesma_chave_refl a Ha) in E1.
Qed.

Lemma valor_de_texto (c : coluna) (l : linha) :
  coluna_de_texto c = true -> valor_textual (valor c l) = true.
Proof.
  destruct c; try discriminate; intros _; cbn [valor];
    try (match goal with
         | |- context [sql_of_texto ?t] => destruct t; reflexivity
         end);
    destruct l; reflexivity.
Qed.

Lemma distintas_incl (x : sqlval) (ks : list sqlval) :
  In x (distintas ks) -> In x ks.
Proof.
  induction ks as [ | k ks IH]; cbn [distintas]; [auto | ].
  intros [<- | H]; [now left | right].
  apply filter_In in H. now apply IH.
Qed.

Lemma distintas_In (x : sqlval) (ks : list sqlval) :
  Forall (fun k => valor_textual k = true) ks ->
  In x ks -> In x (distintas ks).
Proof.
  induction ks as [ | k ks IH]; intros Ht Hin; [destruct Hin | ].
  inversion Ht as [ | ? ? Hk Ht']; subst. cbn [distintas].
  destruct (mesma_chave k x) eqn:E.
  - left. now apply (mesma_chave_eq k x Hk).
  - right. apply filter_In. rewrite E. split; [ | reflexivity].
    destruct Hin as [-> | Hin]; [ | now apply IH].
    now rewrite (mesma_chave_refl x Hk) in E.
Qed.

Lemma distintas_NoDup (ks : list sqlval) :
  Forall (fun k => valor_textual k = true) ks -> NoDup (distintas ks).
Proof.
  induction ks as [ | k ks IH]; intros Ht; [constructor | ].
  inversion Ht as [ | ? ? Hk Ht']; subst. cbn [distintas]. constructor.
  - intros H. apply filter_In in H. destruct H as [_ H].
    now rewrite (mesma_chave_refl k Hk) in H.
  - apply NoDup_filter. now apply IH.
Qed.

Lemma conta_cons (x k : sqlval) (ks : list sqlval) :
  conta x (k :: ks) = ((if mesma_chave x k then 1 else 0) + conta x ks)%nat.
Proof. unfold conta. cbn [filter]. now destruct (mesma_chave x k). Qed.

Lemma conta_zero (k : sqlval) (ks : list sqlval) :
  valor_textual k = true -> ~ In k ks -> conta k ks = 0%nat.
Proof.
  intros Hk Hn. unfold conta. rewrite filter_nil; [reflexivity | ].
  intros x Hx. destruct (mesma_chave k x) eqn:E; [ | reflexivity].
  apply (mesma_chave_eq k x Hk) in E. now subst.
Qed.

Lemma list_sum_cons (a : nat) (l : list nat) :
  list_sum (a :: l) = (a + list_sum l)%nat.
Proof. reflexivity. Qed.

Lemma soma_separa (f : sqlval -> nat) (k : sqlval) (d : list sqlval) :
  valor_textual k = true -> NoDup d ->
  exists m,
    list_sum (map f d)
    = (m + list_sum (map f (filter (fun x => negb (mesma_chave k x)) d)))%nat /\
    ((In k d /\ m = f k) \/ (~ In k d /\ m = 0%nat)).
Proof.
  intros Hk. induction d as [ | x d IH]; intros Hn.
  - exists 0%nat. split; [reflexivity | right; split; auto].
  - apply NoDup_cons_iff in Hn. destruct Hn as [Hx Hn].
    destruct (IH Hn) as [m [Hs Hm]]. cbn [map filter]. rewrite list_sum_cons.
    destruct (mesma_chave k x) eqn:E; cbn [negb].
    + apply (mesma_chave_eq k x Hk) in E. subst x.
      destruct Hm as [[Hin _] | [_ ->]]; [contradiction | ].
      exists (f k). split; [cbn [plus] in Hs; lia | left; split; [now left | reflexivity]].
    + exists m. cbn [map]. rewrite list_sum_cons. split; [lia | ].
      destruct Hm as [[Hin ->] | [Hnin ->]]; [left | right]; split; auto.
      * now right.
      * intros [-> | H]; [ | contradiction].
        now rewrite (mesma_chave_refl k Hk) in E.
Qed.

Lemma soma_das_contagens (ks : list sqlval) :
  Forall (fun k => valor_textual k = true) ks ->
  list_sum (map (fun k => conta k ks) (distintas ks)) = List.length ks.
Proof.
  induction ks as [ | k ks IH]; intros Ht; [reflexivity | ].
  inversion Ht as [ | ? ? Hk Ht']; subst.
  cbn [distintas map List.length]. rewrite list_sum_cons.
  rewrite conta_cons, (mesma_chave_refl k Hk).
  assert (Hext : map (fun x => conta x (k :: ks))
                     (filter (fun x => negb (mesma_chave k x)) (distintas ks))
                 = map (fun x => conta x ks)
                       (filter (fun x => negb (mesma_chave k x)) (distintas ks))).
  { apply map_ext_in. intros x Hx. apply filter_In in Hx. destruct Hx as [Hx Hne].
    rewrite conta_cons.
    assert (Hxt : valor_textual x = true).
    { rewrite Forall_forall in Ht'. apply Ht'. now apply distintas_incl. }
    rewrite (mesma_chave_sym x k Hxt Hk).
    apply negb_true_iff in Hne. now rewrite Hne. }
  rewrite Hext.
  destruct (soma_separa (fun x => conta x ks) k (distintas ks) Hk
              (distintas_NoDup ks Ht')) as [m [Hs Hm]].
  rewrite <- (IH Ht'), Hs.
  destruct Hm as [[_ ->] | [Hn ->]]; [lia | ].
  rewrite (conta_zero k ks Hk); [lia | ].
  intros Hin. apply Hn. now apply distintas_In.
Qed.

Lemma list_sum_Permutation (l l' : list nat) :
  Permutation l l' -> list_sum l = list_sum l'.
Proof.
  induction 1; rewrite ?list_sum_cons; lia.
Qed.

Lemma filter_map_length {A B : Type} (p : B -> bool) (f : A -> B) (l : list A) :
  List.length (filter p (map f l)) = List.length (filter (fun x => p (f x)) l).
Proof.
  induction l as [ | a l IH]; cbn [map filter]; [reflexivity | ].
  destruct (p (f a)); cbn [List.length]; now rewrite IH.
Qed.

Lemma qtd_desc_total (a b : sqlval * nat) :
  qtd_desc a b = false -> qtd_desc b a = true.
Proof.
  unfold qtd_desc. rewrite Nat.leb_gt, Nat.leb_le. lia.
Qed.

(** What the grouped frame of a text column holds, before LIMIT. *)
Lemma contagem_por_spec (c : coluna) (rows : list linha) :
  coluna_de_texto c = true ->
  let g := ordena_por qtd_desc (contagem_por c rows) in
  list_sum (map snd g) = List.length rows /\
  NoDup (map fst g) /\
  (forall k n, In (k, n) g ->
     (1 <= n)%nat /\
     (exists l, In l rows /\ valor c l = k) /\
     n = List.length (filter (fun l => mesma_chave k (valor c l)) rows)) /\
  (forall l, In l rows -> exists n, In (valor c l, n) g) /\
  Sorted (fun a b => (snd b <= snd a)%nat) g.
Proof.
  intros Hc g.
  assert (Ht : Forall (fun k => valor_textual k = true) (map (valor c) rows)).
  { apply Forall_forall. intros k Hk. apply in_map_iff in Hk.
    destruct Hk as [l [<- _]]. now apply valor_de_texto. }
  pose proof (ordena_por_Permutation _ qtd_desc (contagem_por c rows)) as Hp.
  fold g in Hp.
  repeat apply conj.
  - rewrite (list_sum_Permutation _ _ (Permutation_map snd Hp)).
    unfold contagem_por. rewrite map_map. cbn [snd].
    rewrite (soma_das_contagens _ Ht). apply length_map.
  - apply (Permutation_NoDup (l := map fst (contagem_por c rows)));
      [symmetry; now apply Permutation_map | ].
    unfold contagem_por. rewrite map_map. cbn [fst]. rewrite map_id.
    now apply distintas_NoDup.
  - intros k n Hin. apply (Permutation_in _ Hp) in Hin.
    unfold contagem_por in Hin. apply in_map_iff in Hin.
    destruct Hin as [k' [[= -> <-] Hk]].
    apply distintas_incl in Hk.
    assert (Hkt : valor_textual k = true) by (rewrite Forall_forall in Ht; auto).
    repeat apply conj.
    + unfold conta.
      assert (Hin : In k (filter (mesma_chave k) (map (valor c) rows))).
      { apply filter_In. split; [exact Hk | now apply mesma_chave_refl]. }
      destruct (filter (mesma_chave k) (map (valor c) rows));
        [destruct Hin | cbn; lia].
    + apply in_map_iff in Hk. destruct Hk as [l [E Hl]]. now exists l.
    + unfold conta. apply filter_map_length.
  - intros l Hl. exists (conta (valor c l) (map (valor c) rows)).
    apply (Permutation_in _ (Permutation_sym Hp)).
    unfold contagem_por. apply in_map_iff. exists (valor c l). split; [reflexivity | ].
    apply distintas_In; [exact Ht | now apply in_map].
  - eapply Sorted_weaken; [ | apply (ordena_por_Sorted _ qtd_desc qtd_desc_total)].
    intros a b0 H. unfold qtd_desc in H. now apply Nat.leb_le.
Qed.

Lemma run_contagem_ok (b : banco) (c : coluna) (lim : option nat) (rows : list linha) :
  linhas_da_tabela b (TBL b) = Ok rows ->
  coluna_existe (TBL b) c = true ->
  run_contagem b (TBL b) c [] sem_filtro lim
  = Ok (limita_n lim (ordena_por qtd_desc (contagem_por c rows))).
Proof.
  intros E Hc. unfold run_contagem. rewrite E. cbn [bind forallb]. rewrite Hc.
  cbn [andb]. rewrite (forallb_filter_id sem_filtro rows); [reflexivity | ].
  apply forallb_forall. reflexivity.
Qed.

(** The chart on the right of the dashboard (classes with the enriched
    table, person conditions without it) counts every row of the table in
    use exactly once: one bar per distinct value, NULL included, each with
    the number of rows that have the value, the bars adding up to the
    table, the longest first. *)
Theorem grafico_direito_conta_todas :
  forall b : banco,
    tem_tabela b ->
    exists rows g,
      linhas_da_tabela b (TBL b) = Ok rows /\
      grafico_direito b = Ok g /\
      let c := if HAS_ENRICH b then c_classe_tamanho else c_condicao_pessoa in
      list_sum (map snd g) = List.length rows /\
      NoDup (map fst g) /\
      (forall k n, In (k, n) g ->
         (1 <= n)%nat /\
         (exists l, In l rows /\ valor c l = k) /\
         n = List.length (filter (fun l => mesma_chave k (valor c l)) rows)) /\
      (forall l, In l rows -> exists n, In (valor c l, n) g) /\
      Sorted (fun a d => (snd d <= snd a)%nat) g.
Proof.
  intros b Ht.
  destruct (linhas_da_tabela_ok b Ht) as [rows E].
  exists rows. unfold grafico_direito, df_cls, df_pf_pj.
  destruct (TBL_cases b) as [[es [_ [Et [Eh _]]]] | [_ [Et [Eh _]]]]; rewrite Eh.
  - rewrite (run_contagem_ok b c_classe_tamanho None rows E)
      by (rewrite Et; reflexivity).
    eexists. split; [exact E | ]. split; [reflexivity | ].
    now apply contagem_por_spec.
  - rewrite (run_contagem_ok b c_condicao_pessoa None rows E)
      by (rewrite Et; reflexivity).
    eexists. split; [exact E | ]. split; [reflexivity | ].
    now apply contagem_por_spec.
Qed.

Lemma grafico_direito_conta_todas_witness :
  exists rows g,
    linhas_da_tabela banco_enriquecido_exemplo (TBL banco_enriquecido_exemplo) = Ok rows /\
    grafico_direito banco_enriquecido_exemplo = Ok g /\
    let c := if HAS_ENRICH banco_enriquecido_exemplo
             then c_classe_tamanho else c_condicao_pessoa in
    list_sum (map snd g) = List.length rows /\
    NoDup (map fst g) /\
    (forall k n, In (k, n) g ->
       (1 <= n)%nat /\
       (exists l, In l rows /\ valor c l = k) /\
       n = List.length (filter (fun l => mesma_chave k (valor c l)) rows)) /\
    (forall l, In l rows -> exists n, In (valor c l, n) g) /\
    Sorted (fun a d => (snd d <= snd a)%nat) g.
Proof.
  apply (grafico_direito_conta_todas banco_enriquecido_exemplo).
  left. discriminate.
Defined.





Lemma linhas_enriquecidas (b : banco) (es : list enriquecido) :
  imoveis_enriquecido b = Some es ->
  linhas_da_tabela b "imoveis_enriquecido" = Ok (map LEnr es) /\
  TBL b = "imoveis_enriquecido".
Proof.
  intros H. unfold linhas_da_tabela, TBL, table_exists. cbn. now rewrite H.
Qed.

Lemma ordena_por_nil {A : Type} (antes : A -> A -> bool) (l : list A) :
  ordena_por antes l = [] <-> l = [].
Proof.
  split; intros H.
  - apply Permutation_nil. rewrite <- H. apply ordena_por_Permutation.
  - now subst.
Qed.

Lemma contagem_por_nil (c : coluna) (rows : list linha) :
  contagem_por c rows = [] <-> rows = [].
Proof.
  unfold contagem_por. destruct rows as [ | l rows]; cbn; split; congruence.
Qed.

Lemma merge_left_In (im : list imovel) (ref : list ref_row) (r : imovel) (q : ref_row) :
  In r im -> In q ref ->
  texto_eqb (municipio_norm r) (ref_municipio_norm q) = true ->
  In (r, ref_mf_ha q) (merge_left im ref).
Proof.
  intros Hr Hq Hk. unfold merge_left. apply in_flat_map. exists r.
  split; [exact Hr | ].
  assert (Hin : In q (filter (fun q' => texto_eqb (municipio_norm r)
                                                  (ref_municipio_norm q')) ref))
    by (apply filter_In; now split).
  destruct (filter _ ref) as [ | q0 ms]; [destruct Hin | ].
  apply in_map_iff. now exists q.
Qed.

(** [sql_check.py], query 2 ("MF faltando, deve ser vazio"). Without the
    enriched table the query raises. With it, the listing is empty exactly
    when no row has a null module size, and its counts add up to the
    number of rows that have one. On a table written by the job the
    listing is empty exactly when every property's municipality key has a
    reference row and each reference row with that key gives a number. *)
Theorem mf_faltando_vazio :
  forall b : banco,
    (imoveis_enriquecido b = None -> exists e, mf_faltando b = Raise e) /\
    (forall es, imoveis_enriquecido b = Some es ->
       exists g,
         mf_faltando b = Ok g /\
         (g = [] <-> Forall (fun e => f64_is_nan (mf_ha e) = false) es) /\
         list_sum (map snd g)
         = List.length (filter (fun e => f64_is_nan (mf_ha e)) es) /\
         (forall im ref, enriquecer im ref = Ok es ->
            (g = [] <->
             forall r, In r im ->
               (exists q, In q ref /\
                  texto_eqb (municipio_norm r) (ref_municipio_norm q) = true) /\
               (forall q, In q ref ->
                  texto_eqb (municipio_norm r) (ref_municipio_norm q) = true ->
                  f64_is_nan (to_numeric_coerce (ref_mf_ha q)) = false)))).
Proof.
  intros b. split.
  - intros Hn. unfold mf_faltando, run_contagem, linhas_da_tabela. cbn.
    rewrite Hn. cbn. eauto.
  - intros es Hes.
    destruct (linhas_enriquecidas b es Hes) as [E _].
    unfold mf_faltando, run_contagem. rewrite E. cbn [bind].
    change (forallb (coluna_existe "imoveis_enriquecido") [c_municipio; c_mf_ha])
      with true. cbn [limita_n].
    set (nulas := filter (fun l => eh_nulo (valor c_mf_ha l)) (map LEnr es)).
    assert (Hnulas : nulas = [] <-> Forall (fun e => f64_is_nan (mf_ha e) = false) es).
    { unfold nulas. split.
      - intros H. apply Forall_forall. intros e He.
        destruct (f64_is_nan (mf_ha e)) eqn:En; [exfalso | reflexivity].
        assert (Hin : In (LEnr e) (filter (fun l => eh_nulo (valor c_mf_ha l))
                                          (map LEnr es))).
        { apply filter_In. split; [now apply in_map | ].
          cbn [valor]. unfold sql_of_float. now rewrite En. }
        rewrite H in Hin. destruct Hin.
      - intros H. apply filter_nil. intros l Hl.
        apply in_map_iff in Hl. destruct Hl as [e [<- He]].
        rewrite Forall_forall in H. cbn [valor]. unfold sql_of_float.
        now rewrite (H e He). }
    assert (Hg : ordena_por qtd_desc (contagem_por c_municipio nulas) = []
                 <-> nulas = []).
    { rewrite ordena_por_nil. apply contagem_por_nil. }
    eexists. split; [reflexivity | ].
    split; [now rewrite Hg | ].
    split.
    { destruct (contagem_por_spec c_municipio nulas eq_refl) as [Hs _].
      rewrite Hs. unfold nulas. rewrite filter_map_length.
      f_equal. apply filter_ext. intros e. cbn [valor]. unfold sql_of_float.
      now destruct (f64_is_nan (mf_ha e)). }
    intros im ref Hjob. rewrite Hg, Hnulas.
    rewrite enriquecer_ok in Hjob. injection Hjob as <-.
    rewrite Forall_forall. split.
    + intros H r Hr. split.
      * destruct (filter (fun q => texto_eqb (municipio_norm r) (ref_municipio_norm q)) ref)
          as [ | q ms] eqn:Ef.
        -- exfalso. pose proof (merge_left_ausente im ref r Hr Ef) as Hin.
           specialize (H (linha_enriquecida (r, Vazia)) (in_map _ _ _ Hin)).
           discriminate H.
        -- exists q.
           assert (Hq : In q (filter (fun q => texto_eqb (municipio_norm r)
                                                         (ref_municipio_norm q)) ref))
             by (rewrite Ef; now left).
           now apply filter_In in Hq.
      * intros q Hq Hk.
        exact (H (linha_enriquecida (r, ref_mf_ha q))
                 (in_map _ _ _ (merge_left_In im ref r q Hr Hq Hk))).
    + intros H e He. apply in_map_iff in He. destruct He as [[r c] [<- Hrc]].
      apply merge_left_fst in Hrc. cbn [fst snd] in Hrc.
      destruct Hrc as [Hr [[_ Hnil] | [q [Hq [Hk ->]]]]].
      * destruct (H r Hr) as [[q [Hq Hk]] _].
        assert (Hin : In q (filter (fun q => texto_eqb (municipio_norm r)
                                                       (ref_municipio_norm q)) ref))
          by (apply filter_In; now split).
        rewrite Hnil in Hin. destruct Hin.
      * destruct (H r Hr) as [_ Hnum]. exact (Hnum q Hq Hk).
Qed.

(** In the example Itu has no reference row, and the check lists it. *)
Example mf_faltando_exemplo :
  mf_faltando banco_enriquecido_exemplo = Ok [(SText "ITU", 1%nat)].
Proof. vm_compute. reflexivity. Qed.

Lemma classe_de_CLASSES (a : float64) : In (SText (classe_de a)) CLASSES.
Proof.
  unfold CLASSES. pose proof (classe_de_cases a) as H. cbn [In] in *.
  intuition congruence.
Qed.

(** On a table written by the job the chart of the classes, which is also
    query 3 of [sql_check.py], has at most four bars, each named by one of
    the four classes and counting the rows of that class, and the bars add
    up to the number of rows of the enriched table. *)
Theorem df_cls_quatro_classes :
  forall (b : banco) (im : list imovel) (ref : list ref_row) (es : list enriquecido),
    imoveis_enriquecido b = Some es ->
    enriquecer im ref = Ok es ->
    exists g,
      df_cls b = Ok g /\
      distribuicao_por_classe b = Ok g /\
      (List.length g <= 4)%nat /\
      (forall k n, In (k, n) g ->
         In k CLASSES /\ (1 <= n)%nat /\
         n = List.length (filter (fun e => mesma_chave k (SText (classe_tamanho e))) es)) /\
      list_sum (map snd g) = List.length es.
Proof.
  intros b im ref es Hes Hjob.
  destruct (linhas_enriquecidas b es Hes) as [E Et].
  assert (Hmesmo : run_contagem b "imoveis_enriquecido" c_classe_tamanho [] sem_filtro None
                   = Ok (limita_n None
                           (ordena_por qtd_desc
                              (contagem_por c_classe_tamanho (map LEnr es))))).
  { pose proof (run_contagem_ok b c_classe_tamanho None (map LEnr es)) as H.
    rewrite Et in H. apply H; [exact E | reflexivity]. }
  unfold df_cls, distribuicao_por_classe. rewrite Et.
  rewrite Hmesmo. cbn [limita_n].
  destruct (contagem_por_spec c_classe_tamanho (map LEnr es) eq_refl)
    as [H1 [H2 [H3 _]]].
  eexists. split; [reflexivity | ]. split; [reflexivity | ].
  assert (Hk : forall k n,
             In (k, n) (ordena_por qtd_desc (contagem_por c_classe_tamanho (map LEnr es))) ->
             In k CLASSES).
  { intros k n Hin. destruct (H3 k n Hin) as [_ [[l [Hl Hv]] _]].
    apply in_map_iff in Hl. destruct Hl as [e [<- He]]. cbn [valor] in Hv. subst k.
    rewrite (linha_enriquecida_classe im ref es e Hjob He).
    apply classe_de_CLASSES. }
  repeat apply conj.
  - rewrite <- (length_map fst).
    change 4%nat with (List.length CLASSES).
    apply NoDup_incl_length; [exact H2 | ].
    intros k Hin. apply in_map_iff in Hin. destruct Hin as [[k' n] [<- Hin]].
    exact (Hk k' n Hin).
  - intros k n Hin. destruct (H3 k n Hin) as [Hn [_ Hc]].
    repeat apply conj; try assumption; [exact (Hk k n Hin) | ].
    rewrite Hc.
    exact (filter_map_length (fun l => mesma_chave k (valor c_classe_tamanho l)) LEnr es).
  - rewrite H1. apply length_map.
Qed.

Lemma df_cls_quatro_classes_witness :
  exists g,
    df_cls banco_enriquecido_exemplo = Ok g /\
    distribuicao_por_classe banco_enriquecido_exemplo = Ok g /\
    (List.length g <= 4)%nat /\
    (forall k n, In (k, n) g ->
       In k CLASSES /\ (1 <= n)%nat /\
       n = List.length
             (filter (fun e => mesma_chave k (SText (classe_tamanho e)))
                     (map linha_enriquecida
                        (merge_left [campinas_50; itu_100; jundiai_120]
                                    referencia_exemplo)))) /\
    list_sum (map snd g)
    = List.length (map linha_enriquecida
                     (merge_left [campinas_50; itu_100; jundiai_120] referencia_exemplo)).
Proof.
  apply (df_cls_quatro_classes banco_enriquecido_exemplo
           [campinas_50; itu_100; jundiai_120] referencia_exemplo).
  - reflexivity.
  - apply enriquecer_ok.
Defined.

Lemma mf_faltando_vazio_witness :
  exists g,
    mf_faltando banco_enriquecido_exemplo = Ok g /\
    list_sum (map snd g)
    = List.length
        (filter (fun e => f64_is_nan (mf_ha e))
                (map linha_enriquecida
                   (merge_left [campinas_50; itu_100; jundiai_120] referencia_exemplo))).
Proof.
  destruct (mf_faltando_vazio banco_enriquecido_exemplo) as [_ H].
  destruct (H (map linha_enriquecida
                 (merge_left [campinas_50; itu_100; jundiai_120] referencia_exemplo))
              eq_refl) as [g [Hg [_ [Hs _]]]].
  exists g. split; assumption.
Defined.
